(** * xmind_tool: the document model, the outline codec, the package codecs
      and the update path of [skills/xmind/scripts/xmind_tool.py], embedded
      as Rocq functions.

    Python [str] values are sequences of Unicode code points: a character is
    its code point (an [N]) and a string a list of them.  String literals of
    the source are written [u "..."], the UTF-8 decoding of the Rocq
    literal.  Loops over a line list by index become recursion on the
    remaining lines; mutable locals become accumulators. *)

From Stdlib Require Import List String Ascii NArith ZArith Bool Arith Lia.
From Stdlib Require Import DecimalString.
Import ListNotations.

Abbreviation length := Datatypes.length.

Set Warnings "-register-all".

Local Open Scope N_scope.
Local Open Scope list_scope.

(* ================================================================== *)
(** * Python strings *)
(* ================================================================== *)

Module Py.

Abbreviation char := N.
Abbreviation str := (list char).

(** UTF-8 decoding of a byte list (well-formed input; a stray byte is kept
    as it is). *)
Fixpoint utf8_decode (bs : list N) : str :=
  match bs with
  | [] => []
  | b :: r =>
      if b <? 128 then b :: utf8_decode r
      else if b <? 224 then
        match r with
        | b1 :: r1 => ((b - 192) * 64 + (b1 - 128)) :: utf8_decode r1
        | [] => [b]
        end
      else if b <? 240 then
        match r with
        | b1 :: b2 :: r2 =>
            ((b - 224) * 4096 + (b1 - 128) * 64 + (b2 - 128)) :: utf8_decode r2
        | _ => b :: r
        end
      else
        match r with
        | b1 :: b2 :: b3 :: r3 =>
            ((b - 240) * 262144 + (b1 - 128) * 4096 + (b2 - 128) * 64 + (b3 - 128))
              :: utf8_decode r3
        | _ => b :: r
        end
  end.

(** A source literal. *)
Definition u (s : string) : str :=
  utf8_decode (map N_of_ascii (list_ascii_of_string s)).

Definition NL : char := 10.
Definition CR : char := 13.
Definition SP : char := 32.

(** [str.isspace] on one character, which is also what [\s] matches in a
    [str] pattern. *)
Definition is_space (c : char) : bool :=
  ((9 <=? c) && (c <=? 13)) || ((28 <=? c) && (c <=? 32))
  || (c =? 133) || (c =? 160) || (c =? 5760)
  || ((8192 <=? c) && (c <=? 8202))
  || (c =? 8232) || (c =? 8233) || (c =? 8239) || (c =? 8287) || (c =? 12288).

(** The line boundaries of [str.splitlines]. *)
Definition is_linebreak (c : char) : bool :=
  ((10 <=? c) && (c <=? 13)) || ((28 <=? c) && (c <=? 30))
  || (c =? 133) || (c =? 8232) || (c =? 8233).

(** Truth value of a string and of a list. *)
Definition truthy {A} (l : list A) : bool :=
  match l with [] => false | _ :: _ => true end.

Fixpoint drop_while (p : char -> bool) (s : str) : str :=
  match s with
  | [] => []
  | c :: r => if p c then drop_while p r else s
  end.

Fixpoint take_while (p : char -> bool) (s : str) : str :=
  match s with
  | [] => []
  | c :: r => if p c then c :: take_while p r else []
  end.

Definition lstrip (s : str) : str := drop_while is_space s.
Definition rstrip (s : str) : str := rev (drop_while is_space (rev s)).
(** [s.strip()] *)
Definition strip (s : str) : str := rstrip (lstrip s).

(** [s.startswith(p)] *)
Fixpoint startswith (s p : str) : bool :=
  match p with
  | [] => true
  | c :: p' =>
      match s with
      | [] => false
      | d :: s' => (c =? d) && startswith s' p'
      end
  end.

Definition cons_head (c : char) (l : list str) : list str :=
  match l with
  | [] => [[c]]
  | h :: t => (c :: h) :: t
  end.

(** [s.split(sep)] for a one-character separator. *)
Fixpoint split_char (sep : char) (s : str) : list str :=
  match s with
  | [] => [[]]
  | c :: r =>
      if c =? sep then [] :: split_char sep r
      else cons_head c (split_char sep r)
  end.

(** Splitting on the occurrences of a non-empty literal, leftmost first and
    not overlapping: [re.split] with a literal pattern.  [skip] counts the
    characters of a matched separator still to pass. *)
Fixpoint split_lit (sep : str) (skip : nat) (s : str) : list str :=
  match s with
  | [] => [[]]
  | c :: r =>
      match skip with
      | S k => split_lit sep k r
      | O =>
          if startswith s sep then [] :: split_lit sep (length sep - 1) r
          else cons_head c (split_lit sep 0 r)
      end
  end.

(** [sep.join(l)] *)
Fixpoint join (sep : str) (l : list str) : str :=
  match l with
  | [] => []
  | x :: r =>
      match r with
      | [] => x
      | _ :: _ => x ++ sep ++ join sep r
      end
  end.

(** [s.splitlines()]: the line boundary is dropped, CR LF is one boundary,
    and a final boundary opens no empty line. *)
Fixpoint splitlines (s : str) : list str :=
  match s with
  | [] => []
  | c :: r =>
      if is_linebreak c then
        match r with
        | d :: r' =>
            if (c =? CR) && (d =? NL) then [] :: splitlines r'
            else [] :: splitlines r
        | [] => [[]]
        end
      else cons_head c (splitlines r)
  end.

(** [c * n] for a one-character string [c]. *)
Definition spaces (n : nat) : str := repeat SP n.

End Py.
Import Py.

(* ================================================================== *)
(** * The document model *)
(* ================================================================== *)

(** [class Topic]: the fields in the order of [__init__]. *)
Inductive Topic : Type :=
  mkTopic (id : str) (title : str) (children : list Topic) (notes : str)
          (labels : list str) (link : str) (markers : list str).

Definition topic_id (t : Topic) : str := let (i, _, _, _, _, _, _) := t in i.
Definition topic_title (t : Topic) : str := let (_, x, _, _, _, _, _) := t in x.
Definition topic_children (t : Topic) : list Topic := let (_, _, x, _, _, _, _) := t in x.
Definition topic_notes (t : Topic) : str := let (_, _, _, x, _, _, _) := t in x.
Definition topic_labels (t : Topic) : list str := let (_, _, _, _, x, _, _) := t in x.
Definition topic_link (t : Topic) : str := let (_, _, _, _, _, x, _) := t in x.
Definition topic_markers (t : Topic) : list str := let (_, _, _, _, _, _, x) := t in x.

Definition set_title (t : Topic) (v : str) : Topic :=
  let (i, _, c, n, l, k, m) := t in mkTopic i v c n l k m.
Definition set_children (t : Topic) (v : list Topic) : Topic :=
  let (i, x, _, n, l, k, m) := t in mkTopic i x v n l k m.
Definition set_notes (t : Topic) (v : str) : Topic :=
  let (i, x, c, _, l, k, m) := t in mkTopic i x c v l k m.
Definition set_labels (t : Topic) (v : list str) : Topic :=
  let (i, x, c, n, _, k, m) := t in mkTopic i x c n v k m.
Definition set_link (t : Topic) (v : str) : Topic :=
  let (i, x, c, n, l, _, m) := t in mkTopic i x c n l v m.
Definition set_markers (t : Topic) (v : list str) : Topic :=
  let (i, x, c, n, l, k, _) := t in mkTopic i x c n l k v.

(** [class Sheet] *)
Record Sheet : Type := mkSheet {
  sheet_id : str;
  sheet_title : str;
  root_topic : option Topic
}.

(** A document is the list of its sheets. *)
Definition Document := list Sheet.

(** ** Identifiers

    [uuid.uuid4().hex[:26]] reads the system's randomness.  The [n]-th call
    of a run answers [uuid n]; the functions that create topics and sheets
    take the generator and the number of calls made so far, and return the
    number after them. *)
Definition IdGen := nat -> str.

(** [Topic(title, topic_id)]: [topic_id or uuid.uuid4().hex[:26]] *)
Definition new_topic (uuid : IdGen) (title : str) (tid : option str) (n : nat)
  : Topic * nat :=
  match tid with
  | Some (c :: i) => (mkTopic (c :: i) title [] [] [] [] [], n)
  | _ => (mkTopic (uuid n) title [] [] [] [] [], S n)
  end.

(** [Sheet(title, sheet_id)] *)
Definition new_sheet (uuid : IdGen) (title : str) (sid : option str) (n : nat)
  : Sheet * nat :=
  match sid with
  | Some (c :: i) => (mkSheet (c :: i) title None, n)
  | _ => (mkSheet (uuid n) title None, S n)
  end.

(* ================================================================== *)
(** * Data model -> outline text *)
(* ================================================================== *)

Module Outline.

(** [_format_meta_block] *)
Definition _format_meta_block (topic : Topic) : str :=
  let lines := [] in
  let lines :=
    if truthy (topic_labels topic)
    then lines ++ [u "> Labels: " ++ join (u ", ") (topic_labels topic)]
    else lines in
  let lines :=
    if truthy (topic_link topic)
    then lines ++ [u "> Link: " ++ topic_link topic]
    else lines in
  let lines :=
    if truthy (topic_markers topic)
    then lines ++ [u "> Markers: " ++ join (u ", ") (topic_markers topic)]
    else lines in
  let lines :=
    if truthy (topic_notes topic)
    then lines ++ map (fun nl => u "> " ++ nl) (splitlines (topic_notes topic))
    else lines in
  join [NL] lines.

(** The inline fragments of a bullet, in the order labels, link, markers. *)
Definition inline_tags (labels : list str) (link : str) (markers : list str)
  : list str :=
  (if truthy labels then [u "{labels: " ++ join (u ", ") labels ++ u "}"] else [])
  ++ (if truthy link then [u "{link: " ++ link ++ u "}"] else [])
  ++ (if truthy markers then [u "{markers: " ++ join (u ", ") markers ++ u "}"] else []).

(** [_topic_to_md]: the bullet, its quoted note lines, then the children one
    level deeper; the pieces are joined by newlines. *)
Fixpoint _topic_to_md (topic : Topic) (depth : nat) : str :=
  match topic with
  | mkTopic _ title children notes labels link markers =>
      let indent := spaces (2 * depth) in
      let inline := inline_tags labels link markers in
      let title_line := indent ++ u "- " ++ title in
      let title_line :=
        if truthy inline then title_line ++ u "  " ++ join (u "  ") inline
        else title_line in
      let lines := [title_line] in
      let lines :=
        if truthy notes
        then lines ++ map (fun nl => indent ++ u "  > " ++ nl) (splitlines notes)
        else lines in
      let lines := lines ++ map (fun child => _topic_to_md child (S depth)) children in
      join [NL] lines
  end.

(** The entries one sheet appends to [parts] in [sheets_to_markdown]; [i] is
    its index. *)
Definition sheet_parts (i : nat) (sheet : Sheet) : list str :=
  (match i with O => [] | S _ => [[NL] ++ u "---" ++ [NL]] end)
  ++ [u "# Sheet: " ++ sheet_title sheet ++ [NL]]
  ++ match root_topic sheet with
     | Some root =>
         [[NL] ++ u "## " ++ topic_title root ++ [NL]]
         ++ (let meta := _format_meta_block root in
             if truthy meta then [meta] else [])
         ++ [[]]
         ++ map (fun child => _topic_to_md child 0) (topic_children root)
     | None => []
     end.

Fixpoint all_parts (i : nat) (sheets : list Sheet) : list str :=
  match sheets with
  | [] => []
  | sheet :: rest => sheet_parts i sheet ++ all_parts (S i) rest
  end.

(** [sheets_to_markdown] *)
Definition sheets_to_markdown (sheets : Document) : str :=
  join [NL] (all_parts 0 sheets).


(* ================================================================== *)
(** * Outline text -> data model *)
(* ================================================================== *)

(** ** The regular expressions of the decoder

    Each is matched from the start of the line.  [\s*] is greedy and what
    follows it starts with a character that is no white space, so it takes
    the whole leading white space; [.] is any character but a newline, and
    [$] holds at the end of the line or before a newline that ends it. *)

Definition not_newline (c : char) : bool := negb (c =? NL).

(** Where [$] holds. *)
Definition at_end (s : str) : bool :=
  match s with
  | [] => true
  | [c] => c =? NL
  | _ => false
  end.

(** The item pattern of [_parse_md_items], [re.match] on [line]: leading
    white space (group 1), a dash and a space, then [(.+)$] (group 2). *)
Definition re_item (line : str) : option (str * str) :=
  match drop_while is_space line with
  | 45 :: 32 :: body =>
      let text := take_while not_newline body in
      if truthy text && at_end (drop_while not_newline body)
      then Some (take_while is_space line, text)
      else None
  | _ => None
  end.

(** The bullet test of the inner loop, [re.match] on [nxt]: leading white
    space (group 1), a dash and a space. *)
Definition re_bullet (nxt : str) : option str :=
  match drop_while is_space nxt with
  | 45 :: 32 :: _ => Some (take_while is_space nxt)
  | _ => None
  end.

(** The quoted-line pattern, [re.match] on [nxt]: leading white space
    (group 1), [>] and a space, then the rest of the line (group 2). *)
Definition re_quote (nxt : str) : option (str * str) :=
  match drop_while is_space nxt with
  | 62 :: 32 :: body =>
      if at_end (drop_while not_newline body)
      then Some (take_while is_space nxt, take_while not_newline body)
      else None
  | _ => None
  end.

(** [re.sub] of a leading [>] and the white space after it by nothing. *)
Definition re_sub_quote (line : str) : str :=
  match line with
  | 62 :: r => drop_while is_space r
  | _ => line
  end.

Definition not_rbrace (c : char) : bool := negb (c =? 125).

(** The tag pattern of [_parse_title_meta] tried at the start of [s]: an
    opening brace, the key, a colon, white space, one or more characters
    that are no closing brace (group 1), a closing brace.  The result is
    group 1 and the length of the match.  There must be a character
    between the colon and the first closing brace; the white space is
    greedy and gives back its last character when there is nothing else
    for group 1. *)
Definition tag_here (key : str) (s : str) : option (str * nat) :=
  let opening := u "{" ++ key ++ u ":" in
  if startswith s opening then
    let rest := skipn (length opening) s in
    let inner := take_while not_rbrace rest in
    match inner, drop_while not_rbrace rest with
    | _ :: _, _ :: _ =>
        let k := Nat.min (length (take_while is_space inner)) (length inner - 1) in
        Some (skipn k inner, (length opening + length inner + 1)%nat)
    | _, _ => None
    end
  else None.

(** [re.search] of that pattern: start, end and group 1 of the leftmost
    match; [pos] is the offset of [s] in the searched string. *)
Fixpoint search_tag (key : str) (pos : nat) (s : str)
  : option (nat * nat * str) :=
  match tag_here key s with
  | Some (g, len) => Some (pos, (pos + len)%nat, g)
  | None =>
      match s with
      | [] => None
      | _ :: r => search_tag key (S pos) r
      end
  end.

(** [[v.strip() for v in val.split(',') if v.strip()]] *)
Definition comma_list (val : str) : list str :=
  map strip (filter (fun v => truthy (strip v)) (split_char 44 val)).

Section Decoder.

Variable uuid : IdGen.

(** One round of the loop of [_parse_title_meta] for a list-valued key. *)
Definition take_list_tag (key : str) (set : Topic -> list str -> Topic)
    (acc : Topic * str) : Topic * str :=
  let (topic, remaining) := acc in
  match search_tag key 0 remaining with
  | Some (start, stop, g) =>
      (set topic (comma_list (strip g)),
       firstn start remaining ++ skipn stop remaining)
  | None => acc
  end.

(** The round for [link], which keeps the stripped text. *)
Definition take_text_tag (key : str) (set : Topic -> str -> Topic)
    (acc : Topic * str) : Topic * str :=
  let (topic, remaining) := acc in
  match search_tag key 0 remaining with
  | Some (start, stop, g) =>
      (set topic (strip g), firstn start remaining ++ skipn stop remaining)
  | None => acc
  end.

(** [_parse_title_meta] *)
Definition _parse_title_meta (raw : str) (n : nat) : Topic * nat :=
  let (topic, n) := new_topic uuid [] None n in
  let acc := (topic, raw) in
  let acc := take_list_tag (u "labels") set_labels acc in
  let acc := take_text_tag (u "link") set_link acc in
  let acc := take_list_tag (u "markers") set_markers acc in
  let (topic, remaining) := acc in
  (set_title topic (strip remaining), n).

(** One round of the loop of [_apply_block_meta]: the topic and
    [note_parts]. *)
Definition meta_step (acc : Topic * list str) (line : str) : Topic * list str :=
  let (topic, note_parts) := acc in
  let text := re_sub_quote line in
  if startswith text (u "Labels:") then
    (set_labels topic (comma_list (skipn 7 text)), note_parts)
  else if startswith text (u "Link:") then
    (set_link topic (strip (skipn 5 text)), note_parts)
  else if startswith text (u "Markers:") then
    (set_markers topic (comma_list (skipn 8 text)), note_parts)
  else (topic, note_parts ++ [text]).

(** [_apply_block_meta] *)
Definition _apply_block_meta (topic : Topic) (meta_lines : list str) : Topic :=
  let (topic, note_parts) := fold_left meta_step meta_lines (topic, []) in
  if truthy note_parts then set_notes topic (join [NL] note_parts) else topic.

(** ** The bullet list *)

(** The inner loop of [_parse_md_items], from the line after an item at
    indent [cur]: the child lines, the note lines and the lines left at the
    [break] (or at the end). *)
Fixpoint collect_item (cur : nat) (child_lines note_lines : list str)
    (lines : list str) : list str * list str * list str :=
  match lines with
  | [] => (child_lines, note_lines, [])
  | nxt :: rest =>
      if negb (truthy (strip nxt)) then
        collect_item cur child_lines note_lines rest
      else
        match re_bullet nxt with
        | Some ws =>
            if (cur <? length ws)%nat
            then collect_item cur (child_lines ++ [nxt]) note_lines rest
            else (child_lines, note_lines, lines)
        | None =>
            match re_quote nxt with
            | Some (ws, text) =>
                if negb (truthy child_lines) && (length ws =? cur + 2)%nat
                then collect_item cur child_lines (note_lines ++ [text]) rest
                else if (cur <? length ws)%nat
                then collect_item cur (child_lines ++ [nxt]) note_lines rest
                else (child_lines, note_lines, lines)
            | None =>
                if startswith nxt (spaces (cur + 2))
                then collect_item cur (child_lines ++ [nxt]) note_lines rest
                else (child_lines, note_lines, lines)
            end
        end
  end.

(** The outer loop.  The recursive calls are on the child lines and on the
    lines left after the item, both shorter than [lines]; [fuel] bounds the
    depth, and [parse_items_unfold] below shows it is never used up. *)
Fixpoint parse_items (fuel : nat) (lines : list str) (n : nat)
  : list Topic * nat :=
  match fuel with
  | O => ([], n)
  | S fuel =>
      match lines with
      | [] => ([], n)
      | line :: rest =>
          match re_item line with
          | None => parse_items fuel rest n
          | Some (ws, text) =>
              let cur_indent := length ws in
              let (topic, n) := _parse_title_meta text n in
              let '(child_lines, note_lines, rest) :=
                collect_item cur_indent [] [] rest in
              let topic :=
                if truthy note_lines
                then set_notes topic (join [NL] note_lines) else topic in
              let (topic, n) :=
                if truthy child_lines
                then let (kids, n) := parse_items fuel child_lines n in
                     (set_children topic kids, n)
                else (topic, n) in
              let (items, n) := parse_items fuel rest n in
              (topic :: items, n)
          end
      end
  end.

(** [_parse_md_items] *)
Definition _parse_md_items (lines : list str) (n : nat) : list Topic * nat :=
  parse_items (S (length lines)) lines n.

(** ** One sheet block *)

Inductive Phase := PInit | PAfterSheet | PRootMeta | PBody.

Record BlockScan := mkScan {
  scan_sheet_title : str;
  scan_root_title : str;
  scan_root_meta : list str;
  scan_body_lines : list str;
  scan_phase : Phase
}.

Definition is_body (p : Phase) : bool :=
  match p with PBody => true | _ => false end.

(** The body of the [for line in lines] loop of [_parse_sheet_block]. *)
Definition block_step (st : BlockScan) (line : str) : BlockScan :=
  let stripped := strip line in
  let '(mkScan sheet_title root_title root_meta body_lines phase) := st in
  if negb (truthy stripped) then
    if is_body phase
    then mkScan sheet_title root_title root_meta (body_lines ++ [line]) phase
    else st
  else
    match phase with
    | PInit =>
        if startswith stripped (u "# Sheet:") then
          mkScan (strip (skipn 8 stripped)) root_title root_meta body_lines PAfterSheet
        else if startswith stripped (u "## ") then
          mkScan sheet_title (strip (skipn 3 stripped)) root_meta body_lines PRootMeta
        else mkScan sheet_title root_title root_meta (body_lines ++ [line]) PBody
    | PAfterSheet =>
        if startswith stripped (u "## ") then
          mkScan sheet_title (strip (skipn 3 stripped)) root_meta body_lines PRootMeta
        else mkScan sheet_title root_title root_meta (body_lines ++ [line]) PBody
    | PRootMeta =>
        if startswith stripped (u ">") then
          mkScan sheet_title root_title (root_meta ++ [stripped]) body_lines phase
        else mkScan sheet_title root_title root_meta (body_lines ++ [line]) PBody
    | PBody =>
        mkScan sheet_title root_title root_meta (body_lines ++ [line]) PBody
    end.

Definition scan_block (lines : list str) : BlockScan :=
  fold_left block_step lines (mkScan (u "Sheet 1") [] [] [] PInit).

(** [_parse_sheet_block] *)
Definition _parse_sheet_block (block : str) (n : nat) : option Sheet * nat :=
  let lines := split_char NL block in
  let st := scan_block lines in
  if negb (truthy (scan_root_title st)) && negb (truthy (scan_body_lines st))
  then (None, n)
  else
    let (sheet, n) := new_sheet uuid (scan_sheet_title st) None n in
    let (root, n) := new_topic uuid (scan_root_title st) None n in
    let root := _apply_block_meta root (scan_root_meta st) in
    let (root, n) :=
      if truthy (scan_body_lines st)
      then let (kids, n) := _parse_md_items (scan_body_lines st) n in
           (set_children root kids, n)
      else (root, n) in
    (Some (mkSheet (sheet_id sheet) (sheet_title sheet) (Some root)), n).

(** The loop of [markdown_to_sheets] over the blocks. *)
Fixpoint parse_blocks (blocks : list str) (n : nat) : list Sheet * nat :=
  match blocks with
  | [] => ([], n)
  | block :: rest =>
      let (sheet, n) := _parse_sheet_block (strip block) n in
      let (sheets, n) := parse_blocks rest n in
      (match sheet with Some s => s :: sheets | None => sheets end, n)
  end.

(** [markdown_to_sheets]: the blocks are what [re.split(r'\n---\n', ...)]
    gives. *)
Definition markdown_to_sheets (md_text : str) (n : nat) : Document * nat :=
  parse_blocks (split_lit ([NL] ++ u "---" ++ [NL]) 0 md_text) n.

End Decoder.

End Outline.

(* ================================================================== *)
(** * Exceptions *)
(* ================================================================== *)

(** The exceptions the modelled code can raise.  [ValueError text shown] is
    a [ValueError] whose message is [text] followed by [repr(shown)].
    [NotText] is no Python exception: Python attributes are untyped and
    would keep a JSON value that is no string where the model has a [str]
    field; the model stops there.  [DepthExceeded] marks a recursion bound
    of the model that was too small; the decoders are started with a bound
    that is large enough. *)
Inductive Exc : Type :=
| AttributeError
| TypeError
| KeyError (key : str)
| ValueError (text : str) (shown : list str)
| FileNotFoundError (path : str)
| BadZipFile
| JSONDecodeError
| ParseError
| UnicodeDecodeError
| NotText
| DepthExceeded.

Inductive result (A : Type) : Type :=
| Ok (a : A)
| Raise (e : Exc).
Arguments Ok {A} a.
Arguments Raise {A} e.

Definition bind {A B} (r : result A) (k : A -> result B) : result B :=
  match r with
  | Ok a => k a
  | Raise e => Raise e
  end.

Notation "x <- r ;; k" := (bind r (fun x => k))
  (at level 61, r at next level, right associativity).
Notation "' p <- r ;; k" := (bind r (fun x => let 'p := x in k))
  (at level 61, p pattern, r at next level, right associativity).


(** [str == str] *)
Fixpoint str_eqb (a b : str) : bool :=
  match a, b with
  | [], [] => true
  | c :: a', d :: b' => (c =? d) && str_eqb a' b'
  | _, _ => false
  end.

(* ================================================================== *)
(** * JSON values and the zen codec *)
(* ================================================================== *)

Module Zen.

(** What [json.loads] returns and [json.dumps] takes: [None], [bool],
    [int], [str], [list] and [dict] with string keys in insertion order.
    (Numbers that are no integers do not occur in the values the codec
    reads or builds and are not represented.) *)
Inductive json : Type :=
| JNull
| JBool (b : bool)
| JNum (z : Z)
| JStr (s : str)
| JArr (items : list json)
| JObj (fields : list (str * json)).

(** Truth value of a Python object. *)
Definition json_truthy (v : json) : bool :=
  match v with
  | JNull => false
  | JBool b => b
  | JNum z => negb (Z.eqb z 0)
  | JStr s => truthy s
  | JArr l => truthy l
  | JObj kv => truthy kv
  end.

Fixpoint dict_get (kv : list (str * json)) (k : str) : option json :=
  match kv with
  | [] => None
  | (k', v) :: r => if str_eqb k k' then Some v else dict_get r k
  end.

(** [data.get(key, default)]: only a [dict] has the method. *)
Definition py_get (data : json) (k : str) (default : json) : result json :=
  match data with
  | JObj kv =>
      match dict_get kv k with
      | Some v => Ok v
      | None => Ok default
      end
  | _ => Raise AttributeError
  end.

(** [for x in v]: the items of a list, the characters of a string, the
    keys of a dict; nothing else can be iterated. *)
Definition py_iter (v : json) : result (list json) :=
  match v with
  | JArr l => Ok l
  | JStr s => Ok (map (fun c => JStr [c]) s)
  | JObj kv => Ok (map (fun p => JStr (fst p)) kv)
  | _ => Raise TypeError
  end.

(** A value stored in a [str] field. *)
Definition as_text (v : json) : result str :=
  match v with
  | JStr s => Ok s
  | _ => Raise NotText
  end.

Fixpoint all_text (l : list json) : result (list str) :=
  match l with
  | [] => Ok []
  | v :: r => s <- as_text v ;; rs <- all_text r ;; Ok (s :: rs)
  end.

Definition is_dict (v : json) : bool :=
  match v with JObj _ => true | _ => false end.

(** [''.join(op.get('insert', '') for op in ops if isinstance(op, dict))]:
    [join] takes strings only. *)
Fixpoint join_inserts (ops : list json) : result str :=
  match ops with
  | [] => Ok []
  | op :: r =>
      match op with
      | JObj kv =>
          match (match dict_get kv (u "insert") with Some v => v | None => JStr [] end) with
          | JStr s => rest <- join_inserts r ;; Ok (s ++ rest)
          | _ => Raise TypeError
          end
      | _ => join_inserts r
      end
  end.

(** The notes part of [_parse_zen_topic]: what [topic.notes] is after it,
    [current] being its value before. *)
Definition parse_zen_notes (notes_data : json) (current : str) : result str :=
  match notes_data with
  | JObj kv =>
      match dict_get kv (u "plain") with
      | Some plain =>
          content <- py_get plain (u "content") (JStr []) ;;
          as_text content
      | None =>
          match dict_get kv (u "ops") with
          | Some ops =>
              ops <- (if is_dict ops then py_get ops (u "ops") (JArr []) else Ok ops) ;;
              items <- py_iter ops ;;
              text <- join_inserts items ;;
              Ok (strip text)
          | None => Ok current
          end
      end
  | _ => Ok current
  end.

(** [[m.get('markerId', '') for m in ... if isinstance(m, dict) and
    m.get('markerId')]] *)
Fixpoint parse_zen_markers (ms : list json) : result (list str) :=
  match ms with
  | [] => Ok []
  | m :: r =>
      match m with
      | JObj kv =>
          match dict_get kv (u "markerId") with
          | Some v =>
              if json_truthy v
              then s <- as_text v ;; rs <- parse_zen_markers r ;; Ok (s :: rs)
              else parse_zen_markers r
          | None => parse_zen_markers r
          end
      | _ => parse_zen_markers r
      end
  end.

(** [topic_id] as [Topic.__init__] receives it from [data.get('id')]. *)
Definition id_arg (v : json) : result (option str) :=
  if json_truthy v then s <- as_text v ;; Ok (Some s) else Ok None.

Fixpoint json_depth (v : json) : nat :=
  match v with
  | JArr l => S (fold_right (fun x d => Nat.max (json_depth x) d) O l)
  | JObj kv => S (fold_right (fun p d => Nat.max (json_depth (snd p)) d) O kv)
  | _ => O
  end.

Section Decoder.

Variable uuid : IdGen.

(** [_parse_zen_topic]; [fuel] bounds the nesting of the calls. *)
Fixpoint parse_zen_topic (fuel : nat) (data : json) (n : nat)
  : result (Topic * nat) :=
  match fuel with
  | O => Raise DepthExceeded
  | S fuel =>
      title <- py_get data (u "title") (JStr []) ;;
      tid <- py_get data (u "id") JNull ;;
      title <- as_text title ;;
      tid <- id_arg tid ;;
      let (topic, n) := new_topic uuid title tid n in
      notes_data <- py_get data (u "notes") (JObj []) ;;
      notes <- parse_zen_notes notes_data (topic_notes topic) ;;
      let topic := set_notes topic notes in
      labels <- py_get data (u "labels") (JArr []) ;;
      labels <- py_iter labels ;;
      labels <- all_text labels ;;
      let topic := set_labels topic labels in
      href <- py_get data (u "href") (JStr []) ;;
      href <- as_text href ;;
      let topic := set_link topic href in
      ms <- py_get data (u "markers") (JArr []) ;;
      ms <- py_iter ms ;;
      markers <- parse_zen_markers ms ;;
      let topic := set_markers topic markers in
      children_data <- py_get data (u "children") (JObj []) ;;
      attached <- py_get children_data (u "attached") (JArr []) ;;
      attached <- py_iter attached ;;
      '(kids, n) <-
        (fix each (l : list json) (n : nat) : result (list Topic * nat) :=
           match l with
           | [] => Ok ([], n)
           | child :: r =>
               '(t, n) <- parse_zen_topic fuel child n ;;
               '(ts, n) <- each r n ;;
               Ok (t :: ts, n)
           end) attached n ;;
      Ok (set_children topic (topic_children topic ++ kids), n)
  end.

(** [_parse_zen_topic] *)
Definition _parse_zen_topic (data : json) (n : nat) : result (Topic * nat) :=
  parse_zen_topic (S (json_depth data)) data n.

(** The body of the loop of [parse_zen] for one [sheet_data]. *)
Definition parse_zen_sheet (sheet_data : json) (n : nat) : result (Sheet * nat) :=
  title <- py_get sheet_data (u "title") (JStr (u "Sheet 1")) ;;
  sid <- py_get sheet_data (u "id") JNull ;;
  title <- as_text title ;;
  sid <- id_arg sid ;;
  let (sheet, n) := new_sheet uuid title sid n in
  match sheet_data with
  | JObj kv =>
      match dict_get kv (u "rootTopic") with
      | Some rt =>
          '(root, n) <- _parse_zen_topic rt n ;;
          Ok (mkSheet (sheet_id sheet) (sheet_title sheet) (Some root), n)
      | None => Ok (sheet, n)
      end
  | _ => Raise AttributeError
  end.

Fixpoint parse_zen_sheets (l : list json) (n : nat) : result (Document * nat) :=
  match l with
  | [] => Ok ([], n)
  | sheet_data :: r =>
      '(sheet, n) <- parse_zen_sheet sheet_data n ;;
      '(sheets, n) <- parse_zen_sheets r n ;;
      Ok (sheet :: sheets, n)
  end.

(** [parse_zen] once [content.json] is read and parsed. *)
Definition parse_zen_content (content : json) (n : nat) : result (Document * nat) :=
  items <- py_iter content ;;
  parse_zen_sheets items n.

End Decoder.

(** [_topic_to_zen_dict] *)
Fixpoint _topic_to_zen_dict (topic : Topic) : json :=
  match topic with
  | mkTopic id title children notes labels link markers =>
      JObj
        ([(u "id", JStr id); (u "class", JStr (u "topic")); (u "title", JStr title)]
         ++ (if truthy notes
             then [(u "notes", JObj [(u "plain", JObj [(u "content", JStr notes)])])]
             else [])
         ++ (if truthy labels then [(u "labels", JArr (map JStr labels))] else [])
         ++ (if truthy link then [(u "href", JStr link)] else [])
         ++ (if truthy markers
             then [(u "markers", JArr (map (fun m => JObj [(u "markerId", JStr m)]) markers))]
             else [])
         ++ (if truthy children
             then [(u "children", JObj [(u "attached", JArr (map _topic_to_zen_dict children))])]
             else []))
  end.

(** The [sheet_data] of one sheet in [create_zen]. *)
Definition sheet_to_zen_dict (sheet : Sheet) : json :=
  JObj
    ([(u "id", JStr (sheet_id sheet)); (u "class", JStr (u "sheet"));
      (u "title", JStr (sheet_title sheet))]
     ++ match root_topic sheet with
        | Some root => [(u "rootTopic", _topic_to_zen_dict root)]
        | None => []
        end).

(** [content] and [metadata] of [create_zen]. *)
Definition zen_content (sheets : Document) : json :=
  JArr (map sheet_to_zen_dict sheets).

Definition zen_metadata : json :=
  JObj [(u "creator", JObj [(u "name", JStr (u "xmind-tool"));
                            (u "version", JStr (u "1.0.0"))])].

End Zen.

(* ================================================================== *)
(** * XML elements and the legacy codec *)
(* ================================================================== *)

Module Legacy.

(** An [xml.etree.ElementTree.Element]: the qualified tag, the attributes in
    insertion order, the text and the child elements. *)
Inductive Element : Type :=
  Elem (tag : str) (attrib : list (str * str)) (text : option str)
       (kids : list Element).

Definition elem_tag (e : Element) : str := let (t, _, _, _) := e in t.
Definition elem_attrib (e : Element) : list (str * str) := let (_, a, _, _) := e in a.
Definition elem_text (e : Element) : option str := let (_, _, x, _) := e in x.
Definition elem_kids (e : Element) : list Element := let (_, _, _, k) := e in k.

Definition _CONTENT_NS : str := u "urn:xmind:xmap:xmlns:content:2.0".
Definition _XLINK_NS : str := u "http://www.w3.org/1999/xlink".

(** [_ctag] *)
Definition _ctag (local : str) : str := u "{" ++ _CONTENT_NS ++ u "}" ++ local.

(** [_XLINK], which is also the key [create_legacy] sets. *)
Definition _XLINK : str := u "{" ++ _XLINK_NS ++ u "}" ++ u "href".

(** [elem.get(key)] *)
Fixpoint attr_get (a : list (str * str)) (k : str) : option str :=
  match a with
  | [] => None
  | (k', v) :: r => if str_eqb k k' then Some v else attr_get r k
  end.

(** [elem.set(key, value)] *)
Fixpoint attr_set (a : list (str * str)) (k v : str) : list (str * str) :=
  match a with
  | [] => [(k, v)]
  | (k', v') :: r => if str_eqb k k' then (k', v) :: r else (k', v') :: attr_set r k v
  end.

(** [elem.findall('c:local', _NS)]: the direct children with that tag. *)
Definition findall (e : Element) (local : str) : list Element :=
  filter (fun c => str_eqb (elem_tag c) (_ctag local)) (elem_kids e).

(** [elem.find('c:local', _NS)] *)
Definition find (e : Element) (local : str) : option Element :=
  hd_error (findall e local).

(** [e.text if e is not None and e.text else default] *)
Definition text_or (e : option Element) (default : str) : str :=
  match e with
  | Some (Elem _ _ (Some (c :: t)) _) => c :: t
  | _ => default
  end.

Fixpoint elem_depth (e : Element) : nat :=
  match e with
  | Elem _ _ _ kids => S (fold_right (fun x d => Nat.max (elem_depth x) d) O kids)
  end.

Section Decoder.

Variable uuid : IdGen.

(** [_parse_legacy_topic]; [fuel] bounds the nesting of the calls. *)
Fixpoint parse_legacy_topic (fuel : nat) (elem : Element) (n : nat)
  : result (Topic * nat) :=
  match fuel with
  | O => Raise DepthExceeded
  | S fuel =>
      let title_elem := find elem (u "title") in
      let (topic, n) :=
        new_topic uuid (text_or title_elem []) (attr_get (elem_attrib elem) (u "id")) n in
      let topic :=
        match find elem (u "notes") with
        | Some notes_elem =>
            match find notes_elem (u "plain") with
            | Some (Elem _ _ (Some (c :: t)) _) => set_notes topic (c :: t)
            | _ => topic
            end
        | None => topic
        end in
      let topic :=
        match find elem (u "labels") with
        | Some labels_elem =>
            set_labels topic
              (topic_labels topic
               ++ flat_map (fun lbl => match elem_text lbl with
                                       | Some (c :: t) => [c :: t]
                                       | _ => []
                                       end)
                           (findall labels_elem (u "label")))
        | None => topic
        end in
      let href := match attr_get (elem_attrib elem) _XLINK with
                  | Some h => h | None => [] end in
      let topic := if truthy href then set_link topic href else topic in
      let topic :=
        match find elem (u "marker-refs") with
        | Some mrefs =>
            set_markers topic
              (topic_markers topic
               ++ flat_map (fun mref =>
                              match attr_get (elem_attrib mref) (u "marker-id") with
                              | Some (c :: t) => [c :: t]
                              | _ => []
                              end)
                           (findall mrefs (u "marker-ref")))
        | None => topic
        end in
      match find elem (u "children") with
      | Some children_elem =>
          let attached :=
            flat_map (fun topics_elem =>
                        match attr_get (elem_attrib topics_elem) (u "type") with
                        | Some ty => if str_eqb ty (u "attached")
                                     then findall topics_elem (u "topic") else []
                        | None => []
                        end)
                     (findall children_elem (u "topics")) in
          '(kids, n) <-
            (fix each (l : list Element) (n : nat) : result (list Topic * nat) :=
               match l with
               | [] => Ok ([], n)
               | child_elem :: r =>
                   '(t, n) <- parse_legacy_topic fuel child_elem n ;;
                   '(ts, n) <- each r n ;;
                   Ok (t :: ts, n)
               end) attached n ;;
          Ok (set_children topic (topic_children topic ++ kids), n)
      | None => Ok (topic, n)
      end
  end.

(** [_parse_legacy_topic] *)
Definition _parse_legacy_topic (elem : Element) (n : nat) : result (Topic * nat) :=
  parse_legacy_topic (S (elem_depth elem)) elem n.

(** The body of the loop of [parse_legacy] for one [sheet_elem]. *)
Definition parse_legacy_sheet (sheet_elem : Element) (n : nat)
  : result (Sheet * nat) :=
  let title_elem := find sheet_elem (u "title") in
  let (sheet, n) :=
    new_sheet uuid (text_or title_elem (u "Sheet 1"))
              (attr_get (elem_attrib sheet_elem) (u "id")) n in
  match find sheet_elem (u "topic") with
  | Some topic_elem =>
      '(root, n) <- _parse_legacy_topic topic_elem n ;;
      Ok (mkSheet (sheet_id sheet) (sheet_title sheet) (Some root), n)
  | None => Ok (sheet, n)
  end.

Fixpoint parse_legacy_sheets (l : list Element) (n : nat)
  : result (Document * nat) :=
  match l with
  | [] => Ok ([], n)
  | sheet_elem :: r =>
      '(sheet, n) <- parse_legacy_sheet sheet_elem n ;;
      '(sheets, n) <- parse_legacy_sheets r n ;;
      Ok (sheet :: sheets, n)
  end.

(** [parse_legacy] once [content.xml] is read and parsed into [root]. *)
Definition parse_legacy_root (root : Element) (n : nat) : result (Document * nat) :=
  parse_legacy_sheets (findall root (u "sheet")) n.

End Decoder.

(** ** Encoding

    [int(time.time() * 1000)] reads the clock; the [k]-th reading of a run
    is [clock k], and the encoder takes and returns the number of readings
    made. *)
Definition Clock := nat -> Z.

(** [str(i)] for an [int]. *)
Definition str_of_int (z : Z) : str :=
  u (DecimalString.NilZero.string_of_int (Z.to_int z)).

Section Encoder.

Variable clock : Clock.

(** [_topic_to_legacy_xml]: the element appended to [parent]. *)
Fixpoint _topic_to_legacy_xml (topic : Topic) (k : nat) : Element * nat :=
  match topic with
  | mkTopic id title children notes labels link markers =>
      let attrib := attr_set [] (u "id") id in
      let attrib := attr_set attrib (u "timestamp") (str_of_int (clock k)) in
      let k := S k in
      let subs := [Elem (_ctag (u "title")) [] (Some title) []] in
      let subs :=
        if truthy notes
        then subs ++ [Elem (_ctag (u "notes")) [] None
                        [Elem (_ctag (u "plain")) [] (Some notes) []]]
        else subs in
      let subs :=
        if truthy labels
        then subs ++ [Elem (_ctag (u "labels")) [] None
                        (map (fun lbl => Elem (_ctag (u "label")) [] (Some lbl) []) labels)]
        else subs in
      let attrib := if truthy link then attr_set attrib _XLINK link else attrib in
      let subs :=
        if truthy markers
        then subs ++ [Elem (_ctag (u "marker-refs")) [] None
                        (map (fun mid => Elem (_ctag (u "marker-ref"))
                                              (attr_set [] (u "marker-id") mid) None [])
                             markers)]
        else subs in
      let '(subs, k) :=
        if truthy children
        then
          let '(es, k) :=
            (fix each (l : list Topic) (k : nat) : list Element * nat :=
               match l with
               | [] => ([], k)
               | child :: r =>
                   let (e, k) := _topic_to_legacy_xml child k in
                   let (es, k) := each r k in
                   (e :: es, k)
               end) children k in
          (subs ++ [Elem (_ctag (u "children")) [] None
                      [Elem (_ctag (u "topics")) (attr_set [] (u "type") (u "attached"))
                            None es]], k)
        else (subs, k) in
      (Elem (_ctag (u "topic")) attrib None subs, k)
  end.

(** The [sheet_elem] of one sheet in [create_legacy]. *)
Definition sheet_to_legacy_xml (sheet : Sheet) (k : nat) : Element * nat :=
  let attrib := attr_set [] (u "id") (sheet_id sheet) in
  let attrib := attr_set attrib (u "timestamp") (str_of_int (clock k)) in
  let k := S k in
  let '(subs, k) :=
    match root_topic sheet with
    | Some root => let (e, k) := _topic_to_legacy_xml root k in ([e], k)
    | None => ([], k)
    end in
  (Elem (_ctag (u "sheet")) attrib None
        (subs ++ [Elem (_ctag (u "title")) [] (Some (sheet_title sheet)) []]), k).

Fixpoint sheets_to_legacy_xml (sheets : list Sheet) (k : nat) : list Element * nat :=
  match sheets with
  | [] => ([], k)
  | sheet :: r =>
      let (e, k) := sheet_to_legacy_xml sheet k in
      let (es, k) := sheets_to_legacy_xml r k in
      (e :: es, k)
  end.

(** [root] of [create_legacy]. *)
Definition legacy_root (sheets : Document) (k : nat) : Element * nat :=
  let (es, k) := sheets_to_legacy_xml sheets k in
  (Elem (_ctag (u "xmap-content")) (attr_set [] (u "version") (u "2.0")) None es, k).

End Encoder.

(** [manifest] of [create_legacy]; [qt] is a double quote. *)
Definition qt (s : string) : str := [34] ++ u s ++ [34].

Definition legacy_manifest : str :=
  u "<?xml version=" ++ qt "1.0" ++ u " encoding=" ++ qt "UTF-8"
    ++ u " standalone=" ++ qt "no" ++ u "?>" ++ [NL]
  ++ u "<manifest xmlns=" ++ qt "urn:xmind:xmap:xmlns:manifest:1.0" ++ u ">" ++ [NL]
  ++ u "  <file-entry full-path=" ++ qt "content.xml"
    ++ u " media-type=" ++ qt "text/xml" ++ u "/>" ++ [NL]
  ++ u "  <file-entry full-path=" ++ qt "META-INF/"
    ++ u " media-type=" ++ qt "" ++ u "/>" ++ [NL]
  ++ u "  <file-entry full-path=" ++ qt "META-INF/manifest.xml"
    ++ u " media-type=" ++ qt "text/xml" ++ u "/>" ++ [NL]
  ++ u "</manifest>".

End Legacy.

(* ================================================================== *)
(** * Files, format detection, update and the commands *)
(* ================================================================== *)

Module Tool.

Import Outline Zen Legacy.

(** The bytes of an archive entry, kept in parsed form: [PJson v] are bytes
    [json.loads] reads as [v] (and [json.dumps(v)] are such bytes), [PXml
    root] are bytes [ET.fromstring] reads as [root] (and what
    [ElementTree(root).write] produces), [PRaw] are other bytes, which no
    decoder of the tool is run on. *)
Inductive Payload : Type :=
| PJson (v : json)
| PXml (root : Element)
| PRaw (bytes : str).

(** A ZIP archive: its entries in order, name and content. *)
Definition Archive := list (str * Payload).

(** A file: UTF-8 text (its characters), a ZIP archive, or anything else.
    An archive is not taken to be readable as UTF-8 text. *)
Inductive File : Type :=
| FText (text : str)
| FZip (a : Archive)
| FOther.

(** The state of a run: the files by path, the temporary directory, the
    identifiers and clock readings used so far, and what was printed. *)
Record World : Type := mkWorld {
  files : list (str * File);
  tmpdir : str;
  ids : nat;
  ticks : nat;
  stdout : list str;
  stderr : list str
}.

Fixpoint fs_get (fs : list (str * File)) (path : str) : option File :=
  match fs with
  | [] => None
  | (p, f) :: r => if str_eqb path p then Some f else fs_get r path
  end.

Fixpoint fs_put (fs : list (str * File)) (path : str) (f : File)
  : list (str * File) :=
  match fs with
  | [] => [(path, f)]
  | (p, g) :: r => if str_eqb path p then (p, f) :: r else (p, g) :: fs_put r path f
  end.

Definition with_files (w : World) (fs : list (str * File)) : World :=
  mkWorld fs (tmpdir w) (ids w) (ticks w) (stdout w) (stderr w).
Definition with_ids (w : World) (n : nat) : World :=
  mkWorld (files w) (tmpdir w) n (ticks w) (stdout w) (stderr w).
Definition with_ticks (w : World) (k : nat) : World :=
  mkWorld (files w) (tmpdir w) (ids w) k (stdout w) (stderr w).
(** [print(line)] and [print(line, file=sys.stderr)] *)
Definition print_out (w : World) (line : str) : World :=
  mkWorld (files w) (tmpdir w) (ids w) (ticks w) (stdout w ++ [line]) (stderr w).
Definition print_err (w : World) (line : str) : World :=
  mkWorld (files w) (tmpdir w) (ids w) (ticks w) (stdout w) (stderr w ++ [line]).

(** [os.path.exists] *)
Definition path_exists (w : World) (path : str) : bool :=
  match fs_get (files w) path with Some _ => true | None => false end.

(** [zipfile.ZipFile(path, 'r')] *)
Definition zip_open (w : World) (path : str) : result Archive :=
  match fs_get (files w) path with
  | None => Raise (FileNotFoundError path)
  | Some (FZip a) => Ok a
  | Some _ => Raise BadZipFile
  end.

(** [zf.namelist()] *)
Definition namelist (a : Archive) : list str := map fst a.

(** [zf.read(name)]: the last entry of that name. *)
Fixpoint zip_read (a : Archive) (name : str) : result Payload :=
  match a with
  | [] => Raise (KeyError name)
  | (nm, p) :: r =>
      match zip_read r name with
      | Ok q => Ok q
      | Raise _ => if str_eqb name nm then Ok p else Raise (KeyError name)
      end
  end.

(** [name in names] *)
Definition str_in (name : str) (names : list str) : bool :=
  existsb (str_eqb name) names.

Definition unrecognized_text : str :=
  u "无法识别的 XMind 格式：文件中既无 content.json 也无 content.xml" ++ [NL]
  ++ u "文件内容: ".

(** [detect_format] *)
Definition detect_format (w : World) (xmind_path : str) : result str :=
  zf <- zip_open w xmind_path ;;
  let names := namelist zf in
  if str_in (u "content.json") names then Ok (u "zen")
  else if str_in (u "content.xml") names then Ok (u "legacy")
  else Raise (ValueError unrecognized_text names).

(** Text mode reading turns CR LF and CR into LF. *)
Fixpoint universal_newlines (s : str) : str :=
  match s with
  | [] => []
  | c :: r =>
      if c =? CR then
        NL :: match r with
              | d :: r' => if d =? NL then universal_newlines r' else universal_newlines r
              | [] => []
              end
      else c :: universal_newlines r
  end.

(** [open(path, 'r', encoding='utf-8').read()] *)
Definition read_text (w : World) (path : str) : result str :=
  match fs_get (files w) path with
  | None => Raise (FileNotFoundError path)
  | Some (FText s) => Ok (universal_newlines s)
  | Some _ => Raise UnicodeDecodeError
  end.

(** [open(path, 'w', encoding='utf-8').write(text)] *)
Definition write_text (w : World) (path : str) (text : str) : World :=
  with_files w (fs_put (files w) path (FText text)).

Definition json_loads (p : Payload) : result json :=
  match p with PJson v => Ok v | _ => Raise JSONDecodeError end.

Definition et_fromstring (p : Payload) : result Element :=
  match p with PXml e => Ok e | _ => Raise ParseError end.

Section Run.

Variable uuid : IdGen.
Variable clock : Clock.

(** [parse_zen] *)
Definition parse_zen (w : World) (xmind_path : str) : result Document * World :=
  match (zf <- zip_open w xmind_path ;;
         raw <- zip_read zf (u "content.json") ;;
         content <- json_loads raw ;;
         parse_zen_content uuid content (ids w)) with
  | Ok (sheets, n) => (Ok sheets, with_ids w n)
  | Raise e => (Raise e, w)
  end.

(** [parse_legacy] *)
Definition parse_legacy (w : World) (xmind_path : str) : result Document * World :=
  match (zf <- zip_open w xmind_path ;;
         raw <- zip_read zf (u "content.xml") ;;
         root <- et_fromstring raw ;;
         parse_legacy_root uuid root (ids w)) with
  | Ok (sheets, n) => (Ok sheets, with_ids w n)
  | Raise e => (Raise e, w)
  end.

(** [create_zen]: the archive written at [output_path]. *)
Definition create_zen (sheets : Document) (output_path : str) (w : World) : World :=
  with_files w
    (fs_put (files w) output_path
       (FZip [(u "content.json", PJson (zen_content sheets));
              (u "metadata.json", PJson zen_metadata)])).

(** [create_legacy] *)
Definition create_legacy (sheets : Document) (output_path : str) (w : World) : World :=
  let (root, k) := legacy_root clock sheets (ticks w) in
  with_files (with_ticks w k)
    (fs_put (files w) output_path
       (FZip [(u "content.xml", PXml root);
              (u "META-INF/manifest.xml", PRaw legacy_manifest)])).

(** [update_xmind] *)
Definition update_xmind (xmind_path md_path : str) (w : World)
  : result str * World :=
  match detect_format w xmind_path with
  | Raise e => (Raise e, w)
  | Ok fmt =>
      match read_text w md_path with
      | Raise e => (Raise e, w)
      | Ok md_text =>
          let (sheets, n) := markdown_to_sheets uuid md_text (ids w) in
          let w := with_ids w n in
          let w := if str_eqb fmt (u "zen")
                   then create_zen sheets xmind_path w
                   else create_legacy sheets xmind_path w in
          (Ok xmind_path, w)
      end
  end.

(** ** The session memory *)

(** [os.path.join(a, b)] on POSIX. *)
Definition path_join (a b : str) : str :=
  if startswith b (u "/") then b
  else if negb (truthy a) || startswith (rev a) (u "/") then a ++ b
  else a ++ u "/" ++ b.

(** The last index of [c] in [s], when there is one. *)
Fixpoint rfind (c : char) (s : str) : option nat :=
  match s with
  | [] => None
  | d :: r =>
      match rfind c r with
      | Some i => Some (S i)
      | None => if d =? c then Some O else None
      end
  end.

(** [Path(p).stem]: the last component that is neither empty nor a dot,
    up to its last dot when that dot is neither first nor last. *)
Definition path_stem (p : str) : str :=
  let parts :=
    filter (fun c => truthy c && negb (str_eqb c (u "."))) (split_char 47 p) in
  let name := last parts [] in
  match rfind 46 name with
  | Some i => if (0 <? i)%nat && (i <? length name - 1)%nat then firstn i name else name
  | None => name
  end.

(** [get_memory_dir] (directories are not part of the model) and
    [get_memory_path] *)
Definition get_memory_dir (w : World) (session_id : str) : str :=
  path_join (path_join (tmpdir w) (u "skills-xmind-parsed")) session_id.

Definition get_memory_path (w : World) (session_id xmind_path : str) : str :=
  path_join (get_memory_dir w session_id) (path_stem xmind_path ++ u ".md").

(** ** The commands: the exit status, or the exception that leaves them *)

Definition usage_create : str :=
  u "用法: xmind_tool.py --session <id> create <output.xmind> <input.md> [--format zen|legacy]".
Definition usage_update : str :=
  u "用法: xmind_tool.py --session <id> update <file.xmind> <modified.md>".
Definition no_sheets_message : str :=
  u "错误：未能从 Markdown 中解析出任何工作表".

(** [args.index(x)] for an [x] that is in [args]. *)
Fixpoint index_of (x : str) (args : list str) : nat :=
  match args with
  | [] => O
  | a :: r => if str_eqb a x then O else S (index_of x r)
  end.

(** The format option of [cmd_create]. *)
Definition format_option (args : list str) : str :=
  if str_in (u "--format") args then
    let fi := index_of (u "--format") args in
    if (fi + 1 <? length args)%nat then nth (fi + 1) args [] else u "zen"
  else u "zen".

(** [cmd_create] *)
Definition cmd_create (session_id : str) (args : list str) (w : World)
  : result Z * World :=
  match args with
  | output_path :: md_path :: _ =>
      let fmt := format_option args in
      if negb (path_exists w md_path) then
        (Ok 1%Z, print_err w (u "错误：Markdown 文件不存在: " ++ md_path))
      else
        match read_text w md_path with
        | Raise e => (Raise e, w)
        | Ok md_text =>
            let (sheets, n) := markdown_to_sheets uuid md_text (ids w) in
            let w := with_ids w n in
            if negb (truthy sheets) then
              (Ok 1%Z, print_err w no_sheets_message)
            else
              let w := if str_eqb fmt (u "legacy")
                       then create_legacy sheets output_path w
                       else create_zen sheets output_path w in
              let mem := get_memory_path w session_id output_path in
              let w := write_text w mem md_text in
              let w := print_out w (u "已创建: " ++ output_path) in
              let w := print_out w (u "格式: " ++ fmt) in
              let w := print_out w (u "记忆文件: " ++ mem) in
              (Ok 0%Z, w)
        end
  | _ => (Ok 1%Z, print_err w usage_create)
  end.

(** [cmd_update] *)
Definition cmd_update (session_id : str) (args : list str) (w : World)
  : result Z * World :=
  match args with
  | xmind_path :: md_path :: _ =>
      if negb (path_exists w xmind_path) then
        (Ok 1%Z, print_err w (u "错误：XMind 文件不存在: " ++ xmind_path))
      else if negb (path_exists w md_path) then
        (Ok 1%Z, print_err w (u "错误：Markdown 文件不存在: " ++ md_path))
      else
        match update_xmind xmind_path md_path w with
        | (Raise e, w) => (Raise e, w)
        | (Ok _, w) =>
            let mem := get_memory_path w session_id xmind_path in
            match read_text w md_path with
            | Raise e => (Raise e, w)
            | Ok md_text =>
                let w := write_text w mem md_text in
                let w := print_out w (u "已更新: " ++ xmind_path) in
                let w := print_out w (u "记忆文件: " ++ mem) in
                (Ok 0%Z, w)
            end
        end
  | _ => (Ok 1%Z, print_err w usage_update)
  end.

End Run.

End Tool.

(* ================================================================== *)
(** * Sample data: a generator, a clock, documents, files and texts used by
      the closed statements below *)
(* ================================================================== *)

Module Samples.

Import Outline Zen Legacy Tool.

Definition demo_uuid : IdGen := fun n => u "id" ++ [48 + N.of_nat n].
Definition demo_clock : Clock := fun k => (1700000000000 + Z.of_nat k)%Z.
Definition leaf (id title : string) : Topic := mkTopic (u id) (u title) [] [] [] [] [].
Definition one_sheet : Document :=
  [mkSheet (u "s1") (u "Plan") (Some (mkTopic (u "t1") (u "Root") [leaf "t2" "A"] [] [] [] []))].
Definition zen_world : World :=
  mkWorld [(u "map.xmind", FZip [(u "content.json", PJson (zen_content one_sheet))]);
           (u "edit.md", FText [])]
          (u "/tmp") 0 0 [] [].
Definition outline_S : str :=
  u "# Sheet: S" ++ [NL; NL] ++ u "## Root" ++ [NL; NL]
  ++ u "- Child A  {labels: x, y}" ++ [NL] ++ u "  > a note" ++ [NL]
  ++ u "- Child B" ++ [NL].
Definition outline_S_encoded : str :=
  u "# Sheet: S" ++ [NL; NL; NL] ++ u "## Root" ++ [NL; NL; NL]
  ++ u "- Child A  {labels: x, y}" ++ [NL] ++ u "  > a note" ++ [NL]
  ++ u "- Child B".
Definition document_S (uuid : IdGen) (n : nat) : Document :=
  [mkSheet (uuid n) (u "S")
     (Some (mkTopic (uuid (1 + n)%nat) (u "Root")
              [mkTopic (uuid (2 + n)%nat) (u "Child A") [] (u "a note") [u "x"; u "y"] [] [];
               mkTopic (uuid (3 + n)%nat) (u "Child B") [] [] [] [] []]
              [] [] [] []))].

End Samples.

(* ================================================================== *)
(** * The command line *)
(* ================================================================== *)

Module Cli.

Import Outline Zen Legacy Tool.

(** The docstring of the module, line by line. *)
Definition __doc__ : str :=
  join [NL]
    [[];
     u "XMind Tool - 零依赖 XMind 文件解析、创建和更新工具。";
     [];
     u "支持 XMind 8（XML 格式）和 XMind Zen/2020+（JSON 格式）。";
     u "仅使用 Python 标准库，无需安装第三方依赖。";
     [];
     u "用法:";
     u "  python xmind_tool.py --session <id> parse   <file.xmind>                              解析为 Markdown";
     u "  python xmind_tool.py --session <id> create  <output.xmind> <input.md> [--format zen|legacy]  从 Markdown 创建";
     u "  python xmind_tool.py --session <id> update  <file.xmind> <modified.md>                更新已有文件";
     u "  python xmind_tool.py --session <id> memory  <file.xmind>                              查看会话记忆文件";
     [];
     u "--session <id> 为必填参数，用于隔离不同会话的记忆文件。";
     u "记忆文件存储路径: /tmp/skills-xmind-parsed/<session-id>/<filename>.md";
     []].

(** What ends a command or the program: an exit status, or an exception
    nobody catches.  Besides the exceptions of the modelled code there is
    the [UnicodeEncodeError] of writing a text file. *)
Inductive Failure : Type :=
| Exception (e : Exc)
| UnicodeEncodeError.

Inductive Exit : Type :=
| Status (code : Z)
| Uncaught (f : Failure).

Definition exit_of (r : result Z) : Exit :=
  match r with
  | Ok code => Status code
  | Raise e => Uncaught (Exception e)
  end.

(** A surrogate code point, which UTF-8 does not encode. *)
Definition is_surrogate (c : char) : bool := (55296 <=? c) && (c <=? 57343).

Definition encodable (s : str) : bool := forallb (fun c => negb (is_surrogate c)) s.

(** [with open(path, 'w', encoding='utf-8') as f: f.write(text)]: opening
    empties the file, and the write fails as a whole on a text UTF-8 cannot
    encode.  The result tells whether the text was written. *)
Definition write_utf8 (w : World) (path : str) (text : str) : bool * World :=
  if encodable text then (true, write_text w path text)
  else (false, write_text w path []).

Definition missing_path : str := u "错误：缺少 xmind 文件路径".

Section Commands.

Variable uuid : IdGen.
Variable clock : Clock.

(** [cmd_parse] *)
Definition cmd_parse (session_id : str) (args : list str) (w : World)
  : Exit * World :=
  match args with
  | [] => (Status 1%Z, print_err w missing_path)
  | xmind_path :: _ =>
      if negb (path_exists w xmind_path) then
        (Status 1%Z, print_err w (u "错误：文件不存在: " ++ xmind_path))
      else
        match detect_format w xmind_path with
        | Raise e => (Uncaught (Exception e), w)
        | Ok fmt =>
            let (r, w) := if str_eqb fmt (u "zen")
                          then parse_zen uuid w xmind_path
                          else parse_legacy uuid w xmind_path in
            match r with
            | Raise e => (Uncaught (Exception e), w)
            | Ok sheets =>
                let md := sheets_to_markdown sheets in
                let mem := get_memory_path w session_id xmind_path in
                match write_utf8 w mem md with
                | (false, w) => (Uncaught UnicodeEncodeError, w)
                | (true, w) =>
                    let w := print_out w md in
                    let w := print_out w ([NL] ++ u "<!-- memory_file: " ++ mem ++ u " -->") in
                    (Status 0%Z, w)
                end
            end
        end
  end.

(** [cmd_memory] *)
Definition cmd_memory (session_id : str) (args : list str) (w : World)
  : Exit * World :=
  match args with
  | [] => (Status 1%Z, print_err w missing_path)
  | xmind_path :: _ =>
      let mem := get_memory_path w session_id xmind_path in
      if path_exists w mem then
        match read_text w mem with
        | Ok text => (Status 0%Z, print_out w text)
        | Raise e => (Uncaught (Exception e), w)
        end
      else
        let w := print_err w (u "未找到记忆文件: " ++ mem) in
        let w := print_err w (u "请先使用 parse 命令解析对应的 xmind 文件。") in
        (Status 1%Z, w)
  end.

(** [print_usage] *)
Definition print_usage (w : World) : World := print_out w (strip __doc__).

(** [argv[0] in ('-h', '--help', 'help')] *)
Definition is_help (a : str) : bool := str_in a [u "-h"; u "--help"; u "help"].

(** The [--session] part of [main]: the session id, when the option is
    there, and the arguments without the option and its value; [None] when
    the option is the last argument. *)
Definition take_session (argv : list str) : option (option str * list str) :=
  if str_in (u "--session") argv then
    let si := index_of (u "--session") argv in
    if (si + 1 <? length argv)%nat
    then Some (Some (nth (si + 1) argv []), firstn si argv ++ skipn (si + 2) argv)
    else None
  else Some (None, argv).

(** [dispatch.get(cmd)] applied to the session and the rest. *)
Definition dispatch (cmd : str)
  : option (str -> list str -> World -> Exit * World) :=
  if str_eqb cmd (u "parse") then Some cmd_parse
  else if str_eqb cmd (u "create")
  then Some (fun s a w => let (r, w) := cmd_create uuid clock s a w in (exit_of r, w))
  else if str_eqb cmd (u "update")
  then Some (fun s a w => let (r, w) := cmd_update uuid clock s a w in (exit_of r, w))
  else if str_eqb cmd (u "memory") then Some cmd_memory
  else None.

(** [main], [argv] being [sys.argv[1:]]; [sys.exit(n)] ends it with
    [Status n]. *)
Definition main (argv : list str) (w : World) : Exit * World :=
  match argv with
  | [] => (Status 1%Z, print_usage w)
  | first :: _ =>
      if is_help first then (Status 0%Z, print_usage w)
      else
        match take_session argv with
        | None => (Status 1%Z, print_err w (u "错误：--session 需要提供会话 ID"))
        | Some (session_id, argv) =>
            match session_id with
            | Some (c :: sid) =>
                let session_id := c :: sid in
                match argv with
                | [] => (Status 1%Z, print_usage w)
                | cmd :: rest =>
                    match dispatch cmd with
                    | None =>
                        let w := print_err w (u "未知命令: " ++ cmd) in
                        (Status 1%Z, print_usage w)
                    | Some fn => fn session_id rest w
                    end
                end
            | _ =>
                let w := print_err w (u "错误：缺少必填参数 --session <id>") in
                (Status 1%Z, print_usage w)
            end
        end
  end.

End Commands.

End Cli.

(** A state with a zen package and the sample outline beside it. *)
Definition outline_world : Tool.World :=
  Tool.mkWorld
    [(u "map.xmind",
      Tool.FZip [(u "content.json", Tool.PJson (Zen.zen_content Samples.one_sheet));
                 (u "Thumbnails/thumbnail.png", Tool.PRaw (u "png"))]);
     (u "edit.md", Tool.FText Samples.outline_S)]
    (u "/tmp") 0 0 [] [].

(* ================================================================== *)
(** * Vocabulary of the properties *)
(* ================================================================== *)

Import Outline Zen Legacy Tool Samples.
Import Cli.

(** ** Documents the outline keeps *)

Definition one_line (s : str) : bool := forallb not_newline s.

(** [l ++ h] put in front of the pieces of a split. *)
Definition prepend (l : str) (pieces : list str) : list str :=
  match pieces with
  | [] => [l]
  | h :: t => (l ++ h) :: t
  end.

Definition starts_clean (s : str) : bool :=
  match s with [] => true | c :: _ => negb (is_space c) end.

Definition ends_clean (s : str) : bool := starts_clean (rev s).

(** No white space at either end. *)
Definition trimmed (s : str) : bool := starts_clean s && ends_clean s.

(** [c] does not occur in [s]. *)
Definition lacks (c : char) (s : str) : bool := forallb (fun d => negb (d =? c)) s.

(** An entry of a label or marker list that the comma-separated form
    keeps: not empty, no white space at its ends, no newline, no comma. *)
Definition item_ok (s : str) : bool :=
  truthy s && trimmed s && one_line s && lacks 44 s.

(** The only line boundary in [s] is the newline. *)
Definition plain_breaks (s : str) : bool :=
  forallb (fun c => negb (is_linebreak c) || (c =? NL)) s.

(** The text of a tag, and the fragment the encoder appends for it. *)
Definition tag (key v : str) : str := u "{" ++ key ++ u ": " ++ v ++ u "}".
Definition opt_frag (key v : str) (present : bool) : str :=
  if present then u "  " ++ tag key v else [].

Definition brace_free (s : str) : bool := lacks 123 s && lacks 125 s.

(** An entry of the labels or markers of a bullet. *)
Definition tag_item_ok (s : str) : bool := item_ok s && brace_free s.

(** A text on one line without white space at its ends. *)
Definition text_ok (s : str) : bool := trimmed s && one_line s.

(** The link of a bullet, when there is one. *)
Definition tag_text_ok (s : str) : bool := text_ok s && brace_free s.

(** The quoted lines under a bullet at indent [n]. *)
Definition quoted_lines (n : nat) (notes : str) : list str :=
  if truthy notes
  then map (fun nl => spaces n ++ u "  > " ++ nl) (splitlines notes)
  else [].

(** The bullet line of a topic at indent [n]. *)
Definition bullet_line (n : nat) (title : str) (labels : list str) (link : str)
    (markers : list str) : str :=
  spaces n ++ u "- " ++ title
  ++ opt_frag (u "labels") (join (u ", ") labels) (truthy labels)
  ++ opt_frag (u "link") link (truthy link)
  ++ opt_frag (u "markers") (join (u ", ") markers) (truthy markers).

(** What [_topic_to_md] emits, line by line. *)
Fixpoint topic_lines (depth : nat) (t : Topic) : list str :=
  match t with
  | mkTopic _ title children notes labels link markers =>
      bullet_line (2 * depth) title labels link markers
      :: quoted_lines (2 * depth) notes
      ++ flat_map (topic_lines (S depth)) children
  end.

(** A bullet or quoted line indented by more than [cur]. *)
Inductive deep (cur : nat) : str -> Prop :=
| deep_bullet : forall n body,
    (cur < n)%nat -> deep cur (spaces n ++ u "- " ++ body)
| deep_quote : forall n text,
    (cur < n)%nat -> one_line text = true -> deep cur (spaces n ++ u "> " ++ text).

(** A bullet line. *)
Definition is_bullet (l : str) : Prop := exists n body, l = spaces n ++ u "- " ++ body.

(** Where the scan for an item at indent [cur] stops: at the end, or at a
    bullet indented by [cur] or less. *)
Definition stop_at (cur : nat) (rest : list str) : Prop :=
  rest = [] \/
  exists n body more, rest = (spaces n ++ u "- " ++ body) :: more /\ (n <= cur)%nat.

(** Notes: newline is their only line boundary and they do not end in
    white space. *)
Definition notes_ok (notes : str) : bool := plain_breaks notes && ends_clean notes.

(** A topic below the root: the title is one non-empty line without white
    space at its ends and without an opening brace; the labels and markers
    are non-empty, without white space at their ends and without commas,
    braces or newlines; so is the link, when there is one (it may hold
    commas); and the same holds of the children. *)
Fixpoint bullet_ok (t : Topic) : bool :=
  match t with
  | mkTopic _ title children notes labels link markers =>
      truthy title && text_ok title && lacks 123 title
      && forallb tag_item_ok labels && tag_text_ok link && forallb tag_item_ok markers
      && notes_ok notes && forallb bullet_ok children
  end.

(** A topic without its identifiers. *)
Fixpoint erase_ids (t : Topic) : Topic :=
  match t with
  | mkTopic _ title children notes labels link markers =>
      mkTopic [] title (map erase_ids children) notes labels link markers
  end.

(** The note texts of a topic and its quoted lines. *)
Definition note_texts (notes : str) : list str :=
  if truthy notes then splitlines notes else [].

(** A note line of the root: no white space at its ends and none of the
    three keys at its start. *)
Definition root_note_ok (l : str) : bool :=
  trimmed l
  && negb (startswith l (u "Labels:"))
  && negb (startswith l (u "Link:"))
  && negb (startswith l (u "Markers:")).

(** The root topic of a sheet: a non-empty one-line title, labels and
    markers the comma-separated form keeps, a one-line link, notes whose
    lines are as above, and children the bullet list keeps. *)
Definition root_ok (t : Topic) : bool :=
  match t with
  | mkTopic _ title children notes labels link markers =>
      truthy title && text_ok title
      && forallb item_ok labels && text_ok link && forallb item_ok markers
      && notes_ok notes && forallb root_note_ok (note_texts notes)
      && forallb bullet_ok children
  end.

(** A sheet the outline keeps: a one-line title and such a root. *)
Definition sheet_ok (s : Sheet) : bool :=
  text_ok (sheet_title s)
  && match root_topic s with Some r => root_ok r | None => false end.

(** A sheet without its identifiers. *)
Definition erase_sheet (s : Sheet) : Sheet :=
  mkSheet [] (sheet_title s) (option_map erase_ids (root_topic s)).

(** The lines of [_format_meta_block]. *)
Definition meta_lines (labels : list str) (link : str) (markers : list str)
    (notes : str) : list str :=
  (if truthy labels then [u "> Labels: " ++ join (u ", ") labels] else [])
  ++ (if truthy link then [u "> Link: " ++ link] else [])
  ++ (if truthy markers then [u "> Markers: " ++ join (u ", ") markers] else [])
  ++ map (fun nl => u "> " ++ nl) (note_texts notes).

Definition sheet_core (T R : str) (M C : list str) : list str :=
  [u "# Sheet: " ++ T; []; []; u "## " ++ R]
  ++ (if truthy M || truthy C
      then [] :: M ++ (if truthy C then [] :: C else [])
      else []).

(** One line that does not start with two dashes. *)
Definition calm (l : str) : bool := one_line l && negb (startswith l (u "--")).

(** The separator of [markdown_to_sheets]. *)
Definition block_sep : str := [NL] ++ u "---" ++ [NL].

(** A line that is not empty and does not end in white space. *)
Definition good_end (l : str) : bool := truthy l && ends_clean l.

(** The lines of a sheet as [sheets_to_markdown] emits them. *)
Definition sheet_lines (T R : str) (M C : list str) : list str :=
  [u "# Sheet: " ++ T; []; []; u "## " ++ R; []] ++ M ++ [] :: C.

(** The lines of one sheet, of the rule between two sheets and of a
    document. *)
Definition sheet_all_lines (s : Sheet) : list str :=
  match root_topic s with
  | Some (mkTopic _ R ch no la li ma) =>
      sheet_lines (sheet_title s) R (meta_lines la li ma no) (flat_map (topic_lines 0) ch)
  | None => [u "# Sheet: " ++ sheet_title s; []]
  end.

Definition rule_lines : list str := [[]; u "---"; []].

Fixpoint doc_lines (i : nat) (doc : list Sheet) : list str :=
  match doc with
  | [] => []
  | s :: rest =>
      (match i with O => [] | S _ => rule_lines end)
      ++ sheet_all_lines s ++ doc_lines (S i) rest
  end.

(** ** Documents the packages keep *)

Definition past_init (p : Phase) : Prop := p <> PInit.





(** The entries of the dict [_topic_to_zen_dict] builds, by key. *)
Definition zen_fields (t : Topic) : list (str * json) :=
  match _topic_to_zen_dict t with JObj kv => kv | _ => [] end.

(** ** Documents the outline decoder builds *)

(** The identifiers of a topic and its descendants, of a sheet and of a
    document, in the order of the outline. *)
Fixpoint topic_ids (t : Topic) : list str :=
  match t with
  | mkTopic id _ children _ _ _ _ => id :: flat_map topic_ids children
  end.

Definition sheet_ids (s : Sheet) : list str :=
  sheet_id s :: match root_topic s with Some r => topic_ids r | None => [] end.

Definition doc_ids (doc : Document) : list str := flat_map sheet_ids doc.

(** Text as the decoder stores it: no white space at the ends of the
    title, of the link or of a label or marker. *)
Definition tidy (title : str) (labels : list str) (link : str) (markers : list str)
  : bool :=
  trimmed title && forallb trimmed labels && trimmed link && forallb trimmed markers.

Fixpoint topic_tidy (t : Topic) : bool :=
  match t with
  | mkTopic _ title children _ labels link markers =>
      tidy title labels link markers && forallb topic_tidy children
  end.

Definition sheet_tidy (s : Sheet) : bool :=
  trimmed (sheet_title s)
  && match root_topic s with Some r => topic_tidy r | None => true end.

(** The shape of a topic list built with the identifiers [uuid n], ...,
    [uuid (n' - 1)]: a topic takes the next identifier, then come its
    children, then the topics after it; no label and no marker is empty,
    and the text is tidy. *)
Inductive built (uuid : IdGen) : nat -> list Topic -> nat -> Prop :=
| built_nil : forall n, built uuid n [] n
| built_cons : forall n title notes labels link markers kids n1 rest n2,
    forallb (@truthy char) labels = true ->
    forallb (@truthy char) markers = true ->
    tidy title labels link markers = true ->
    built uuid (S n) kids n1 ->
    built uuid n1 rest n2 ->
    built uuid n (mkTopic (uuid n) title kids notes labels link markers :: rest) n2.

(** A sheet takes an identifier, then its root and the topics below. *)
Inductive built_doc (uuid : IdGen) : nat -> Document -> nat -> Prop :=
| built_doc_nil : forall n, built_doc uuid n [] n
| built_doc_cons : forall n title root n1 rest n2,
    trimmed title = true ->
    built uuid (S n) [root] n1 ->
    built_doc uuid n1 rest n2 ->
    built_doc uuid n (mkSheet (uuid n) title (Some root) :: rest) n2.

(** ** The commands *)

(** A text without carriage return. *)
Definition no_cr (s : str) : bool := forallb (fun c => negb (c =? CR)) s.

(** The package reader [cmd_parse] chooses for the format detected. *)
Definition read_package (uuid : IdGen) (fmt : str) (w : World) (p : str)
  : result Document * World :=
  if str_eqb fmt (u "zen") then parse_zen uuid w p else parse_legacy uuid w p.

(** The last line [cmd_parse] prints. *)
Definition memory_comment (mem : str) : str :=
  [NL] ++ u "<!-- memory_file: " ++ mem ++ u " -->".

(** The state after the encoder [cmd_create] chooses for [fmt]. *)
Definition write_package (clock : Clock) (fmt : str) (sheets : Document)
    (output_path : str) (w : World) : World :=
  if str_eqb fmt (u "legacy") then create_legacy clock sheets output_path w
  else create_zen sheets output_path w.


(** ** The zen decoder, part by part *)

(** The keys [_parse_zen_topic] reads of a topic. *)
Definition topic_keys : list str :=
  [u "title"; u "id"; u "notes"; u "labels"; u "href"; u "markers"; u "children"].

(** What [_parse_zen_topic] does before it reads the children: the topic
    with its own fields. *)
Definition zen_own_fields (uuid : IdGen) (data : json) (n : nat)
  : result (Topic * nat) :=
  title <- py_get data (u "title") (JStr []) ;;
  tid <- py_get data (u "id") JNull ;;
  title <- as_text title ;;
  tid <- id_arg tid ;;
  let (topic, n) := new_topic uuid title tid n in
  notes_data <- py_get data (u "notes") (JObj []) ;;
  notes <- parse_zen_notes notes_data (topic_notes topic) ;;
  let topic := set_notes topic notes in
  labels <- py_get data (u "labels") (JArr []) ;;
  labels <- py_iter labels ;;
  labels <- all_text labels ;;
  let topic := set_labels topic labels in
  href <- py_get data (u "href") (JStr []) ;;
  href <- as_text href ;;
  let topic := set_link topic href in
  ms <- py_get data (u "markers") (JArr []) ;;
  ms <- py_iter ms ;;
  markers <- parse_zen_markers ms ;;
  Ok (set_markers topic markers, n).

(** The values its loop over the children runs through. *)
Definition zen_attached (data : json) : result (list json) :=
  children_data <- py_get data (u "children") (JObj []) ;;
  attached <- py_get children_data (u "attached") (JArr []) ;;
  py_iter attached.

(** The loop, for a decoder [f] of one child. *)
Fixpoint zen_each (f : json -> nat -> result (Topic * nat)) (l : list json) (n : nat)
  : result (list Topic * nat) :=
  match l with
  | [] => Ok ([], n)
  | child :: r =>
      '(t, n) <- f child n ;;
      '(ts, n) <- zen_each f r n ;;
      Ok (t :: ts, n)
  end.

(* ================================================================== *)
(** * Properties *)
(* ================================================================== *)

(** ** Strings and files *)

Lemma str_eqb_spec : forall a b, reflect (a = b) (str_eqb a b).
Proof.
  induction a as [|c a IH]; destruct b as [|d b]; simpl; try (constructor; congruence).
  destruct (N.eqb_spec c d); simpl.
  - destruct (IH b); constructor; congruence.
  - constructor; congruence.
Qed.

Lemma str_eqb_refl : forall a, str_eqb a a = true.
Proof. intros a. destruct (str_eqb_spec a a); congruence. Qed.

Lemma str_in_spec : forall x l, str_in x l = true <-> In x l.
Proof.
  intros x l. unfold str_in. rewrite existsb_exists. split.
  - intros [y [Hy He]]. destruct (str_eqb_spec x y); [subst; auto | discriminate].
  - intros H. exists x. split; auto. apply str_eqb_refl.
Qed.

Lemma str_in_false : forall x l, str_in x l = false <-> ~ In x l.
Proof.
  intros x l. rewrite <- str_in_spec. destruct (str_in x l); split; congruence.
Qed.

Lemma fs_get_put_same : forall fs p f, fs_get (fs_put fs p f) p = Some f.
Proof.
  induction fs as [|[q g] fs IH]; intros p f; simpl.
  - now rewrite str_eqb_refl.
  - destruct (str_eqb p q) eqn:E; simpl; rewrite E; auto.
Qed.

(** C5.  The format detector reads the entry names of the archive only: it
    answers zen when an entry is named content.json, whatever else is
    there; otherwise legacy when an entry is named content.xml; otherwise it
    raises the [ValueError] whose message shows the list of the names found.
    Two archives with the same entry names get the same answer, whatever
    their entries hold. *)
Theorem detect_format_by_entry_names :
  forall (w : World) (path : str) (a : Archive),
    fs_get (files w) path = Some (FZip a) ->
    (In (u "content.json") (namelist a) -> detect_format w path = Ok (u "zen"))
    /\ (~ In (u "content.json") (namelist a) -> In (u "content.xml") (namelist a) ->
        detect_format w path = Ok (u "legacy"))
    /\ (~ In (u "content.json") (namelist a) -> ~ In (u "content.xml") (namelist a) ->
        detect_format w path = Raise (ValueError unrecognized_text (namelist a)))
    /\ (forall (w' : World) (path' : str) (a' : Archive),
          fs_get (files w') path' = Some (FZip a') ->
          namelist a' = namelist a ->
          detect_format w' path' = detect_format w path).
Proof.
  intros w path a Hf.
  assert (D : forall w0 p0 a0, fs_get (files w0) p0 = Some (FZip a0) ->
            detect_format w0 p0 =
            if str_in (u "content.json") (namelist a0) then Ok (u "zen")
            else if str_in (u "content.xml") (namelist a0) then Ok (u "legacy")
            else Raise (ValueError unrecognized_text (namelist a0))).
  { intros w0 p0 a0 H0. unfold detect_format, zip_open. rewrite H0. reflexivity. }
  rewrite (D _ _ _ Hf). repeat split.
  - intros Hj. apply str_in_spec in Hj. now rewrite Hj.
  - intros Hj Hx. apply str_in_false in Hj. apply str_in_spec in Hx. now rewrite Hj, Hx.
  - intros Hj Hx. apply str_in_false in Hj. apply str_in_false in Hx. now rewrite Hj, Hx.
  - intros w' path' a' Hf' Hn. rewrite (D _ _ _ Hf'), Hn. reflexivity.
Qed.

Lemma detect_format_by_entry_names_witness :
  detect_format zen_world (u "map.xmind") = Ok (u "zen").
Proof.
  apply (proj1 (detect_format_by_entry_names zen_world (u "map.xmind")
                  [(u "content.json", PJson (zen_content one_sheet))] eq_refl)).
  vm_compute. auto.
Defined.

(** ** The update path *)

Section UpdateProps.
Variable uuid : IdGen.
Variable clock : Clock.




End UpdateProps.



(** ** The commands and an outline with no sheet *)

(** C4 (the update command does not do what the claim says).  The empty
    outline text decodes to no sheet, without error; [cmd_update] run on a
    zen package and that text ends with status 0, prints nothing on the
    error stream, and has replaced the package by one with an empty sheet
    list. *)
Theorem cmd_update_accepts_empty_outline :
  fst (markdown_to_sheets demo_uuid [] 0) = []
  /\ fst (cmd_update demo_uuid demo_clock (u "s") [u "map.xmind"; u "edit.md"] zen_world)
     = Ok 0%Z
  /\ fs_get (files (snd (cmd_update demo_uuid demo_clock (u "s")
                           [u "map.xmind"; u "edit.md"] zen_world))) (u "map.xmind")
     = Some (FZip [(u "content.json", PJson (JArr []));
                   (u "metadata.json", PJson zen_metadata)])
  /\ stderr (snd (cmd_update demo_uuid demo_clock (u "s")
                    [u "map.xmind"; u "edit.md"] zen_world)) = [].
Proof. vm_compute. repeat split. Qed.

(** [cmd_create] on a text that decodes to no sheet: status 1, the message
    on the error stream, no file written. *)
Lemma cmd_create_no_sheets :
  forall uuid clock session output_path md_path more w md_text n,
    read_text w md_path = Ok md_text ->
    markdown_to_sheets uuid md_text (ids w) = ([], n) ->
    cmd_create uuid clock session (output_path :: md_path :: more) w
    = (Ok 1%Z, print_err (with_ids w n) no_sheets_message).
Proof.
  intros uuid clock session op mp more w txt n R M.
  unfold cmd_create, path_exists.
  unfold read_text in R. destruct (fs_get (files w) mp) as [f|] eqn:F; [|discriminate].
  simpl negb. cbv iota. unfold read_text. rewrite F, R. rewrite M. reflexivity.
Qed.

(** ** Notes of a zen topic *)

(** C7 (the code does not do what the claim says for every other shape).  A
    zen topic whose notes are a dict with a [plain] entry that is no dict
    makes [_parse_zen_topic] raise [AttributeError]. *)
Theorem zen_plain_notes_not_a_dict_raises :
  forall (uuid : IdGen) (n : nat),
    _parse_zen_topic uuid
      (JObj [(u "id", JStr (u "t1")); (u "title", JStr (u "T"));
             (u "notes", JObj [(u "plain", JStr (u "text"))])]) n
    = Raise AttributeError.
Proof. intros uuid n. vm_compute. reflexivity. Qed.

(** The scenario of the rich-text notes. *)
Lemma zen_notes_ops_example :
  parse_zen_notes
    (JObj [(u "ops", JArr [JObj [(u "insert", JStr (u "hello "))];
                           JObj [(u "insert", JStr (u "world"))]])]) []
  = Ok (u "hello world").
Proof. vm_compute. reflexivity. Qed.

(** ** The sample outline *)

(** Encoding the decoded sample does not give the sample text back. *)
Lemma outline_S_reencoded_differs :
  sheets_to_markdown (fst (markdown_to_sheets demo_uuid outline_S 0)) <> outline_S.
Proof. vm_compute. discriminate. Qed.

(** C8, amended.  The sample text decodes to one sheet titled S whose root
    Root has the children Child A (labels x and y, notes [a note]) and
    Child B (nothing else set).  Encoding that document gives the text with
    two blank lines after each heading and no final newline, and this text
    decodes to the same document. *)
Theorem outline_S_decodes :
  forall (uuid : IdGen) (n : nat),
    markdown_to_sheets uuid outline_S n = (document_S uuid n, (4 + n)%nat)
    /\ sheets_to_markdown (document_S uuid n) = outline_S_encoded
    /\ markdown_to_sheets uuid outline_S_encoded n = (document_S uuid n, (4 + n)%nat).
Proof. intros uuid n. vm_compute. repeat split. Qed.

(** ** The sheet heading *)

Lemma sheet_heading_shape : forall s,
  startswith s (u "# Sheet:") = true ->
  truthy s = true /\ startswith s (u "## ") = false /\ startswith s (u ">") = false.
Proof.
  intros s H. destruct s as [|c s]; [discriminate|].
  change (u "# Sheet:") with (35 :: 32 :: u "Sheet:") in H. cbn [startswith] in H.
  apply andb_prop in H. destruct H as [Hc H].
  apply N.eqb_eq in Hc. subst c.
  destruct s as [|d s]; [discriminate|]. cbn [startswith] in H.
  apply andb_prop in H. destruct H as [Hd _]. apply N.eqb_eq in Hd. subst d.
  repeat split.
Qed.

Lemma block_step_blank_init : forall st l,
  truthy (strip l) = false -> scan_phase st = PInit -> block_step st l = st.
Proof.
  intros [a b c d p] l Hb Hp. simpl in Hp. subst p. unfold block_step. rewrite Hb. reflexivity.
Qed.

Lemma block_step_past_init : forall st l,
  past_init (scan_phase st) ->
  scan_sheet_title (block_step st l) = scan_sheet_title st
  /\ past_init (scan_phase (block_step st l)).
Proof.
  intros [a b c d p] l Hp. unfold past_init in *. simpl in Hp. unfold block_step.
  destruct (truthy (strip l)); simpl.
  - destruct p; try congruence.
    + destruct (startswith (strip l) (u "## ")); simpl; split; congruence.
    + destruct (startswith (strip l) (u ">")); simpl; split; congruence.
    + simpl; split; congruence.
  - destruct p; simpl; split; congruence.
Qed.

Lemma scan_past_init : forall ls st,
  past_init (scan_phase st) ->
  scan_sheet_title (fold_left block_step ls st) = scan_sheet_title st
  /\ past_init (scan_phase (fold_left block_step ls st)).
Proof.
  induction ls as [|l ls IH]; intros st Hp; simpl; [auto|].
  destruct (block_step_past_init st l Hp) as [Ht Hp'].
  destruct (IH _ Hp') as [Ht' Hp'']. split; congruence.
Qed.

Lemma block_step_leaves_init : forall st l,
  truthy (strip l) = true -> past_init (scan_phase (block_step st l)).
Proof.
  intros [a b c d p] l Hb. unfold block_step, past_init. rewrite Hb. simpl.
  destruct p; simpl.
  - destruct (startswith (strip l) (u "# Sheet:")); simpl; [congruence|].
    destruct (startswith (strip l) (u "## ")); simpl; congruence.
  - destruct (startswith (strip l) (u "## ")); simpl; congruence.
  - destruct (startswith (strip l) (u ">")); simpl; congruence.
  - congruence.
Qed.

Lemma block_step_body_grows : forall st l x,
  In x (scan_body_lines st) -> In x (scan_body_lines (block_step st l)).
Proof.
  intros [a b c d p] l x Hx. simpl in Hx. unfold block_step.
  destruct (truthy (strip l)); simpl.
  - destruct p; simpl;
      repeat match goal with |- context [if ?b then _ else _] => destruct b; simpl end;
      auto using in_or_app.
  - destruct p; simpl; auto using in_or_app.
Qed.

Lemma scan_body_grows : forall ls st x,
  In x (scan_body_lines st) -> In x (scan_body_lines (fold_left block_step ls st)).
Proof.
  induction ls as [|l ls IH]; intros st x Hx; simpl; auto using block_step_body_grows.
Qed.

Lemma block_step_late_heading : forall st l,
  past_init (scan_phase st) -> startswith (strip l) (u "# Sheet:") = true ->
  In l (scan_body_lines (block_step st l)).
Proof.
  intros [a b c d p] l Hp Hh. unfold past_init in Hp. simpl in Hp.
  destruct (sheet_heading_shape _ Hh) as [Ht [H2 H3]].
  unfold block_step. rewrite Ht, H2, H3. simpl.
  destruct p; simpl; try congruence; apply in_or_app; right; left; reflexivity.
Qed.

Lemma block_step_no_heading : forall st l,
  startswith (strip l) (u "# Sheet:") = false ->
  scan_sheet_title (block_step st l) = scan_sheet_title st.
Proof.
  intros [a b c d p] l Hh. unfold block_step. rewrite Hh.
  destruct (truthy (strip l)); simpl; destruct p; simpl;
    repeat match goal with |- context [if ?b then _ else _] => destruct b; simpl end;
    reflexivity.
Qed.

Lemma scan_no_heading : forall ls st,
  (forall l, In l ls -> startswith (strip l) (u "# Sheet:") = false) ->
  scan_sheet_title (fold_left block_step ls st) = scan_sheet_title st.
Proof.
  induction ls as [|l ls IH]; intros st H; simpl; [reflexivity|].
  rewrite IH by (intros; apply H; right; assumption).
  apply block_step_no_heading. apply H. left; reflexivity.
Qed.

Lemma scan_blank_prefix : forall blanks st,
  Forall (fun x => truthy (strip x) = false) blanks -> scan_phase st = PInit ->
  fold_left block_step blanks st = st.
Proof.
  induction blanks as [|b bs IH]; intros st Hb Hp; simpl; [reflexivity|].
  inversion Hb; subst. rewrite block_step_blank_init by assumption. auto.
Qed.

Lemma scan_reaches_past_init : forall pre st,
  Exists (fun x => truthy (strip x) = true) pre ->
  past_init (scan_phase (fold_left block_step pre st)).
Proof.
  induction pre as [|l pre IH]; intros st H; simpl.
  - inversion H.
  - inversion H; subst.
    + apply scan_past_init. apply block_step_leaves_init. assumption.
    + apply IH. assumption.
Qed.

Lemma parse_sheet_block_title : forall uuid block n sheet n',
  _parse_sheet_block uuid block n = (Some sheet, n') ->
  sheet_title sheet = scan_sheet_title (scan_block (split_char NL block)).
Proof.
  intros uuid block n sheet n'. unfold _parse_sheet_block.
  set (st := scan_block (split_char NL block)).
  destruct (negb (truthy (scan_root_title st)) && negb (truthy (scan_body_lines st))).
  - discriminate.
  - unfold new_sheet, new_topic.
    destruct (truthy (scan_body_lines st)).
    + destruct (_parse_md_items uuid (scan_body_lines st) (S (S n))) as [kids m].
      intros H; inversion H; reflexivity.
    + intros H; inversion H; reflexivity.
Qed.

(** C10.  A sheet block that gives a sheet and has no line starting (once
    stripped) with the sheet heading gets the title [Sheet 1].  The heading
    is read from the first non-blank line only: the title is what follows
    the heading on that line, or [Sheet 1] when that line is no heading.  A
    heading line that comes after a non-blank line is kept as a body line
    and leaves the title as it was. *)
Theorem sheet_heading_first_line_only :
  forall uuid : IdGen,
    (forall block n sheet n',
        _parse_sheet_block uuid block n = (Some sheet, n') ->
        (forall l, In l (split_char NL block) ->
                   startswith (strip l) (u "# Sheet:") = false) ->
        sheet_title sheet = u "Sheet 1")
    /\ (forall blanks l rest,
           Forall (fun x => truthy (strip x) = false) blanks ->
           truthy (strip l) = true ->
           scan_sheet_title (scan_block (blanks ++ l :: rest))
           = if startswith (strip l) (u "# Sheet:")
             then strip (skipn 8 (strip l)) else u "Sheet 1")
    /\ (forall pre l rest,
           Exists (fun x => truthy (strip x) = true) pre ->
           startswith (strip l) (u "# Sheet:") = true ->
           In l (scan_body_lines (scan_block (pre ++ l :: rest)))
           /\ scan_sheet_title (scan_block (pre ++ l :: rest))
              = scan_sheet_title (scan_block pre)).
Proof.
  intros uuid. split; [|split].
  - intros block n sheet n' HP Hno.
    rewrite (parse_sheet_block_title _ _ _ _ _ HP).
    unfold scan_block. rewrite scan_no_heading by assumption. reflexivity.
  - intros blanks l rest Hb Hl. unfold scan_block.
    rewrite fold_left_app. rewrite (scan_blank_prefix blanks) by (assumption || reflexivity).
    cbn [fold_left].
    set (st0 := mkScan (u "Sheet 1") [] [] [] PInit).
    destruct (scan_past_init rest (block_step st0 l)) as [Ht _].
    { apply block_step_leaves_init. assumption. }
    rewrite Ht. unfold block_step, st0. rewrite Hl. simpl.
    destruct (startswith (strip l) (u "# Sheet:")); simpl; [reflexivity|].
    destruct (startswith (strip l) (u "## ")); reflexivity.
  - intros pre l rest Hpre Hl. unfold scan_block.
    rewrite fold_left_app. cbn [fold_left].
    set (st := fold_left block_step pre _).
    assert (Hp : past_init (scan_phase st)) by (apply scan_reaches_past_init; assumption).
    split.
    + apply scan_body_grows. apply block_step_late_heading; assumption.
    + destruct (block_step_past_init st l Hp) as [Ht Hp'].
      destruct (scan_past_init rest _ Hp') as [Ht' _]. congruence.
Qed.

Lemma sheet_heading_first_line_only_witness :
  In (u "# Sheet: B")
     (scan_body_lines (scan_block [u "# Sheet: A"; u "# Sheet: B"; u "## R"]))
  /\ scan_sheet_title (scan_block [u "# Sheet: A"; u "# Sheet: B"; u "## R"])
     = scan_sheet_title (scan_block [u "# Sheet: A"]).
Proof.
  apply (proj2 (proj2 (sheet_heading_first_line_only demo_uuid))
           [u "# Sheet: A"] (u "# Sheet: B") [u "## R"]).
  - apply Exists_cons_hd. vm_compute. reflexivity.
  - vm_compute. reflexivity.
Defined.

(** ** The bullet list *)

Lemma drop_while_all : forall p s, drop_while p s = [] <-> forallb p s = true.
Proof.
  intros p. induction s as [|c s IH]; simpl.
  - split; reflexivity.
  - destruct (p c); simpl; [exact IH|]. split; discriminate.
Qed.

Lemma forallb_rev : forall (p : char -> bool) s, forallb p (rev s) = forallb p s.
Proof.
  intros p s. destruct (forallb p s) eqn:E.
  - rewrite forallb_forall in *. intros x Hx. apply E. now apply in_rev.
  - destruct (forallb p (rev s)) eqn:E'; [|reflexivity].
    rewrite forallb_forall in E'.
    assert (forallb p s = true); [|congruence].
    rewrite forallb_forall. intros x Hx. apply E'. now apply in_rev in Hx.
Qed.

Lemma drop_while_suffix : forall p s, exists pre, s = pre ++ drop_while p s /\ forallb p pre = true.
Proof.
  intros p. induction s as [|c s [pre [E F]]]; simpl.
  - exists []. auto.
  - destruct (p c) eqn:Pc.
    + exists (c :: pre). simpl. rewrite Pc, F. split; [congruence|reflexivity].
    + exists []. auto.
Qed.

(** A line is blank (its strip is empty) exactly when all its characters
    are white space. *)
Lemma strip_blank : forall s, truthy (strip s) = false <-> forallb is_space s = true.
Proof.
  intros s. unfold strip, rstrip, lstrip.
  destruct (drop_while_suffix is_space s) as [pre [E F]].
  set (t := drop_while is_space s) in *.
  split.
  - intros H.
    assert (R : rev (drop_while is_space (rev t)) = []) by
      (destruct (rev (drop_while is_space (rev t))); [reflexivity|discriminate]).
    apply (f_equal (@rev _)) in R. rewrite rev_involutive in R. simpl in R.
    apply drop_while_all in R. rewrite forallb_rev in R.
    rewrite E, forallb_app, F, R. reflexivity.
  - intros H. rewrite E, forallb_app in H. apply andb_prop in H. destruct H as [_ H].
    rewrite <- forallb_rev in H. apply drop_while_all in H. rewrite H. reflexivity.
Qed.

Lemma strip_not_blank : forall s c,
  In c s -> is_space c = false -> truthy (strip s) = true.
Proof.
  intros s c Hin Hc. destruct (truthy (strip s)) eqn:E; [reflexivity|].
  apply strip_blank in E. rewrite forallb_forall in E. rewrite (E c Hin) in Hc. discriminate.
Qed.

Lemma drop_while_in : forall p s c, In c (drop_while p s) -> In c s.
Proof.
  intros p. induction s as [|d s IH]; simpl; intros c H; [assumption|].
  destruct (p d); [right; auto | assumption].
Qed.

Lemma re_quote_not_bullet : forall nxt ws text,
  re_quote nxt = Some (ws, text) ->
  re_bullet nxt = None /\ truthy (strip nxt) = true.
Proof.
  intros nxt ws text H. unfold re_quote in H. unfold re_bullet.
  destruct (drop_while is_space nxt) as [|c r] eqn:E; [discriminate|].
  assert (Hc : c = 62).
  { destruct c as [|p]; [discriminate|].
    repeat (destruct p as [p|p|]; try (simpl in H; discriminate)). reflexivity. }
  subst c. split; [reflexivity|].
  apply (strip_not_blank nxt 62); [|reflexivity].
  apply (drop_while_in is_space). rewrite E. left; reflexivity.
Qed.

Lemma collect_item_length : forall lines cur cl nl cl' nl' rest,
  collect_item cur cl nl lines = (cl', nl', rest) ->
  (length cl' + length rest <= length cl + length lines)%nat.
Proof.
  induction lines as [|nxt lines IH]; intros cur cl nl cl' nl' rest; simpl.
  - intros H; inversion H; subst; simpl; lia.
  - assert (G : forall c n, collect_item cur (c ++ [nxt]) n lines = (cl', nl', rest) ->
                (length cl' + length rest <= length c + S (length lines))%nat).
    { intros c n H. apply IH in H. rewrite length_app in H. simpl in H. lia. }
    assert (K : forall c n, collect_item cur c n lines = (cl', nl', rest) ->
                (length cl' + length rest <= length c + S (length lines))%nat).
    { intros c n H. apply IH in H. lia. }
    assert (B : (cl, nl, nxt :: lines) = (cl', nl', rest) ->
                (length cl' + length rest <= length cl + S (length lines))%nat).
    { intros H; inversion H; subst; simpl; lia. }
    destruct (negb (truthy (strip nxt))); [apply K|].
    destruct (re_bullet nxt) as [ws|].
    + destruct (cur <? length ws)%nat; [apply G | apply B].
    + destruct (re_quote nxt) as [[ws text]|].
      * destruct (negb (truthy cl) && (length ws =? cur + 2)%nat); [apply K|].
        destruct (cur <? length ws)%nat; [apply G | apply B].
      * destruct (startswith nxt (spaces (cur + 2))); [apply G | apply B].
Qed.

Section BulletProps.
Variable uuid : IdGen.

Lemma parse_items_S : forall fuel line rest n,
  parse_items uuid (S fuel) (line :: rest) n =
  match re_item line with
  | None => parse_items uuid fuel rest n
  | Some (ws, text) =>
      let (topic, n1) := _parse_title_meta uuid text n in
      let '(child_lines, note_lines, rest') := collect_item (length ws) [] [] rest in
      let topic :=
        if truthy note_lines then set_notes topic (join [NL] note_lines) else topic in
      let (topic, n2) :=
        if truthy child_lines
        then let (kids, n2) := parse_items uuid fuel child_lines n1 in
             (set_children topic kids, n2)
        else (topic, n1) in
      let (items, n3) := parse_items uuid fuel rest' n2 in
      (topic :: items, n3)
  end.
Proof. reflexivity. Qed.

(** A bound above the number of lines is enough: the result does not depend
    on it. *)
Lemma parse_items_fuel : forall fuel1 fuel2 lines n,
  (length lines < fuel1)%nat -> (length lines < fuel2)%nat ->
  parse_items uuid fuel1 lines n = parse_items uuid fuel2 lines n.
Proof.
  induction fuel1 as [|f1 IH]; intros fuel2 lines n H1 H2; [lia|].
  destruct fuel2 as [|f2]; [lia|].
  destruct lines as [|line rest]; [reflexivity|].
  simpl in H1, H2. rewrite !parse_items_S.
  destruct (re_item line) as [[ws text]|].
  - destruct (_parse_title_meta uuid text n) as [topic n1].
    destruct (collect_item (length ws) [] [] rest) as [[cl nl] rest'] eqn:C.
    apply collect_item_length in C. simpl in C.
    destruct (truthy cl).
    + rewrite (IH f2 cl n1) by lia.
      destruct (parse_items uuid f2 cl n1) as [kids n2].
      rewrite (IH f2 rest' n2) by lia. reflexivity.
    + rewrite (IH f2 rest' n1) by lia. reflexivity.
  - apply IH; lia.
Qed.

(** The loop of [_parse_md_items], one round unfolded: no bound is left. *)
Lemma parse_items_unfold : forall line rest n,
  _parse_md_items uuid (line :: rest) n =
  match re_item line with
  | None => _parse_md_items uuid rest n
  | Some (ws, text) =>
      let (topic, n1) := _parse_title_meta uuid text n in
      let '(child_lines, note_lines, rest') := collect_item (length ws) [] [] rest in
      let topic :=
        if truthy note_lines then set_notes topic (join [NL] note_lines) else topic in
      let (topic, n2) :=
        if truthy child_lines
        then let (kids, n2) := _parse_md_items uuid child_lines n1 in
             (set_children topic kids, n2)
        else (topic, n1) in
      let (items, n3) := _parse_md_items uuid rest' n2 in
      (topic :: items, n3)
  end.
Proof.
  intros line rest n. unfold _parse_md_items.
  change (length (line :: rest)) with (S (length rest)). rewrite parse_items_S.
  destruct (re_item line) as [[ws text]|]; [|reflexivity].
  destruct (_parse_title_meta uuid text n) as [topic n1].
  destruct (collect_item (length ws) [] [] rest) as [[cl nl] rest'] eqn:C.
  apply collect_item_length in C. simpl in C.
  destruct (truthy cl).
  - rewrite (parse_items_fuel (S (length rest)) (S (length cl)) cl n1) by lia.
    destruct (parse_items uuid (S (length cl)) cl n1) as [kids n2].
    rewrite (parse_items_fuel (S (length rest)) (S (length rest')) rest' n2) by lia.
    reflexivity.
  - rewrite (parse_items_fuel (S (length rest)) (S (length rest')) rest' n1) by lia.
    reflexivity.
Qed.

Lemma parse_items_nil : forall n, _parse_md_items uuid [] n = ([], n).
Proof. reflexivity. Qed.

(** C6.  In the scan of the lines after a bullet item at indent [cur], a
    quoted line (white space, [>], a space, the rest) is a note line of the
    item exactly when no child line was collected yet and its indent is
    [cur + 2]; otherwise it is a child line when its indent is greater than
    [cur]; otherwise the scan stops at it and the item ends there.  The note
    lines, joined, are the notes of the item, the child lines are decoded
    by the same function into its children, and the lines from the stop on
    give the items that follow. *)
Theorem quoted_line_attribution :
  (forall cur child_lines note_lines nxt rest ws text,
      re_quote nxt = Some (ws, text) ->
      collect_item cur child_lines note_lines (nxt :: rest) =
      if negb (truthy child_lines) && (length ws =? cur + 2)%nat
      then collect_item cur child_lines (note_lines ++ [text]) rest
      else if (cur <? length ws)%nat
           then collect_item cur (child_lines ++ [nxt]) note_lines rest
           else (child_lines, note_lines, nxt :: rest))
  /\ (forall line rest n ws text,
         re_item line = Some (ws, text) ->
         _parse_md_items uuid (line :: rest) n =
         let (topic, n1) := _parse_title_meta uuid text n in
         let '(child_lines, note_lines, rest') := collect_item (length ws) [] [] rest in
         let topic :=
           if truthy note_lines then set_notes topic (join [NL] note_lines) else topic in
         let (topic, n2) :=
           if truthy child_lines
           then let (kids, n2) := _parse_md_items uuid child_lines n1 in
                (set_children topic kids, n2)
           else (topic, n1) in
         let (items, n3) := _parse_md_items uuid rest' n2 in
         (topic :: items, n3)).
Proof.
  split.
  - intros cur cl nl nxt rest ws text Hq.
    destruct (re_quote_not_bullet _ _ _ Hq) as [Hb Hs].
    cbn [collect_item]. rewrite Hs, Hb, Hq. reflexivity.
  - intros line rest n ws text Hi. rewrite parse_items_unfold, Hi. reflexivity.
Qed.

End BulletProps.

Lemma quoted_line_attribution_witness :
  collect_item 0 [] [] [u "  > note"; u "- next"]
  = collect_item 0 [] ([] ++ [u "note"]) [u "- next"].
Proof.
  apply (proj1 (quoted_line_attribution demo_uuid) 0%nat [] [] (u "  > note")
           [u "- next"] (u "  ") (u "note")).
  vm_compute. reflexivity.
Defined.

(** ** Package round trips *)

(** Induction on a topic with the hypothesis for all its children. *)
Fixpoint Topic_forest_ind (P : Topic -> Prop)
    (step : forall id title children notes labels link markers,
        Forall P children -> P (mkTopic id title children notes labels link markers))
    (t : Topic) : P t :=
  match t with
  | mkTopic id title children notes labels link markers =>
      step id title children notes labels link markers
        ((fix all (l : list Topic) : Forall P l :=
            match l with
            | [] => Forall_nil P
            | c :: r => Forall_cons c (Topic_forest_ind P step c) (all r)
            end) children)
  end.

Lemma json_depth_field : forall kv k v,
  In (k, v) kv -> (json_depth v < json_depth (JObj kv))%nat.
Proof.
  intros kv k v H. cbn [json_depth]. apply Nat.lt_succ_r.
  induction kv as [|[k' v'] kv IH]; [contradiction|].
  cbn [fold_right snd]. destruct H as [H|H].
  - inversion H; subst. apply Nat.le_max_l.
  - etransitivity; [apply IH; assumption | apply Nat.le_max_r].
Qed.

Lemma json_depth_item : forall l v,
  In v l -> (json_depth v < json_depth (JArr l))%nat.
Proof.
  intros l v H. cbn [json_depth]. apply Nat.lt_succ_r.
  induction l as [|v' l IH]; [contradiction|].
  cbn [fold_right]. destruct H as [H|H].
  - subst. apply Nat.le_max_l.
  - etransitivity; [apply IH; assumption | apply Nat.le_max_r].
Qed.





Lemma zen_get_title : forall i ti ch no la li ma,
  dict_get (zen_fields (mkTopic i ti ch no la li ma)) (u "title") = Some (JStr ti).
Proof. intros. reflexivity. Qed.

Lemma zen_get_id : forall i ti ch no la li ma,
  dict_get (zen_fields (mkTopic i ti ch no la li ma)) (u "id") = Some (JStr i).
Proof. intros. reflexivity. Qed.






Lemma dict_get_in : forall kv k v, dict_get kv k = Some v -> In (k, v) kv.
Proof.
  induction kv as [|[k' v'] kv IH]; intros k v; cbn [dict_get]; [discriminate|].
  destruct (str_eqb_spec k k').
  - intros H; inversion H; subst. left; reflexivity.
  - intros H. right. auto.
Qed.



Section ZenRoundTrip.
Variable uuid : IdGen.

Lemma parse_zen_topic_S : forall fuel data n,
  parse_zen_topic uuid (S fuel) data n =
  (title <- py_get data (u "title") (JStr []) ;;
   tid <- py_get data (u "id") JNull ;;
   title <- as_text title ;;
   tid <- id_arg tid ;;
   let (topic, n) := new_topic uuid title tid n in
   notes_data <- py_get data (u "notes") (JObj []) ;;
   notes <- parse_zen_notes notes_data (topic_notes topic) ;;
   let topic := set_notes topic notes in
   labels <- py_get data (u "labels") (JArr []) ;;
   labels <- py_iter labels ;;
   labels <- all_text labels ;;
   let topic := set_labels topic labels in
   href <- py_get data (u "href") (JStr []) ;;
   href <- as_text href ;;
   let topic := set_link topic href in
   ms <- py_get data (u "markers") (JArr []) ;;
   ms <- py_iter ms ;;
   markers <- parse_zen_markers ms ;;
   let topic := set_markers topic markers in
   children_data <- py_get data (u "children") (JObj []) ;;
   attached <- py_get children_data (u "attached") (JArr []) ;;
   attached <- py_iter attached ;;
   '(kids, n) <-
     (fix each (l : list json) (n : nat) : result (list Topic * nat) :=
        match l with
        | [] => Ok ([], n)
        | child :: r =>
            '(t, n) <- parse_zen_topic uuid fuel child n ;;
            '(ts, n) <- each r n ;;
            Ok (t :: ts, n)
        end) attached n ;;
   Ok (set_children topic (topic_children topic ++ kids), n)).
Proof. reflexivity. Qed.


End ZenRoundTrip.

Section ZenDocument.
Variable uuid : IdGen.




End ZenDocument.

(** *** Legacy *)





Section LegacyRoundTrip.
Variable uuid : IdGen.
Variable clock : Clock.









(** The part of [_parse_legacy_topic] between the creation of the topic
    and its children: notes, labels, link and markers. *)
Definition legacy_fields (elem : Element) (topic : Topic) : Topic :=
  let topic :=
    match find elem (u "notes") with
    | Some notes_elem =>
        match find notes_elem (u "plain") with
        | Some (Elem _ _ (Some (c :: t)) _) => set_notes topic (c :: t)
        | _ => topic
        end
    | None => topic
    end in
  let topic :=
    match find elem (u "labels") with
    | Some labels_elem =>
        set_labels topic
          (topic_labels topic
           ++ flat_map (fun lbl => match elem_text lbl with
                                   | Some (c :: t) => [c :: t]
                                   | _ => []
                                   end)
                       (findall labels_elem (u "label")))
    | None => topic
    end in
  let href := match attr_get (elem_attrib elem) _XLINK with
              | Some h => h | None => [] end in
  let topic := if truthy href then set_link topic href else topic in
  match find elem (u "marker-refs") with
  | Some mrefs =>
      set_markers topic
        (topic_markers topic
         ++ flat_map (fun mref =>
                        match attr_get (elem_attrib mref) (u "marker-id") with
                        | Some (c :: t) => [c :: t]
                        | _ => []
                        end)
                     (findall mrefs (u "marker-ref")))
  | None => topic
  end.

(** The elements [_parse_legacy_topic] takes the children from. *)
Definition attached_topics (children_elem : Element) : list Element :=
  flat_map (fun topics_elem =>
              match attr_get (elem_attrib topics_elem) (u "type") with
              | Some ty => if str_eqb ty (u "attached")
                           then findall topics_elem (u "topic") else []
              | None => []
              end)
           (findall children_elem (u "topics")).

Lemma parse_legacy_topic_S : forall fuel elem n,
  parse_legacy_topic uuid (S fuel) elem n =
  (let (topic, n) :=
     new_topic uuid (text_or (find elem (u "title")) [])
               (attr_get (elem_attrib elem) (u "id")) n in
   let topic := legacy_fields elem topic in
   match find elem (u "children") with
   | Some children_elem =>
       '(kids, n) <-
         (fix each (l : list Element) (n : nat) : result (list Topic * nat) :=
            match l with
            | [] => Ok ([], n)
            | child_elem :: r =>
                '(t, n) <- parse_legacy_topic uuid fuel child_elem n ;;
                '(ts, n) <- each r n ;;
                Ok (t :: ts, n)
            end) (attached_topics children_elem) n ;;
       Ok (set_children topic (topic_children topic ++ kids), n)
   | None => Ok (topic, n)
   end).
Proof. reflexivity. Qed.











End LegacyRoundTrip.

Section LegacyDocument.
Variable uuid : IdGen.
Variable clock : Clock.





End LegacyDocument.




(* ------------------------------------------------------------------ *)
(** ** C1: the outline round trip *)

(** ** Strings: joining and splitting *)

Lemma join_cons : forall sep x y r,
  join sep (x :: y :: r) = x ++ sep ++ join sep (y :: r).
Proof. reflexivity. Qed.

Lemma join_app : forall sep a b,
  a <> [] -> b <> [] -> join sep (a ++ b) = join sep a ++ sep ++ join sep b.
Proof.
  intros sep a b Ha Hb. induction a as [|x a IH]; [congruence|].
  destruct a as [|y a].
  - destruct b as [|z b]; [congruence|]. reflexivity.
  - change ((x :: y :: a) ++ b) with (x :: (y :: a) ++ b).
    change ((y :: a) ++ b) with (y :: a ++ b) at 1.
    rewrite join_cons. change (y :: a ++ b) with ((y :: a) ++ b).
    rewrite IH by discriminate. rewrite join_cons. now rewrite <- !app_assoc.
Qed.

Lemma join_concat : forall sep lls,
  Forall (fun ls => ls <> []) lls ->
  join sep (map (join sep) lls) = join sep (List.concat lls).
Proof.
  intros sep. induction lls as [|ls lls IH]; intros H; [reflexivity|].
  inversion H as [|? ? Hls Hrest]; subst.
  destruct lls as [|ls2 lls].
  - cbn [map List.concat join]. now rewrite app_nil_r.
  - change (map (join sep) (ls :: ls2 :: lls))
      with (join sep ls :: join sep ls2 :: map (join sep) lls).
    rewrite join_cons.
    change (join sep ls2 :: map (join sep) lls) with (map (join sep) (ls2 :: lls)).
    rewrite IH by assumption.
    change (List.concat (ls :: ls2 :: lls)) with (ls ++ List.concat (ls2 :: lls)).
    rewrite join_app; [reflexivity | assumption |].
    inversion Hrest; subst. cbn [List.concat]. destruct ls2; [congruence | discriminate].
Qed.

Lemma split_char_nonempty : forall sep s, split_char sep s <> [].
Proof.
  intros sep s. destruct s as [|c r]; cbn [split_char]; [discriminate|].
  destruct (c =? sep); [discriminate|].
  destruct (split_char sep r); discriminate.
Qed.

Lemma split_char_line : forall l z,
  one_line l = true -> split_char NL (l ++ z) = prepend l (split_char NL z).
Proof.
  induction l as [|c l IH]; intros z H.
  - cbn [app]. destruct (split_char NL z) eqn:E; [|reflexivity].
    now apply split_char_nonempty in E.
  - cbn [one_line forallb] in H. apply andb_prop in H. destruct H as [Hc H].
    unfold not_newline in Hc. apply negb_true_iff in Hc.
    cbn [app split_char]. rewrite Hc. rewrite (IH z H).
    destruct (split_char NL z); reflexivity.
Qed.

Lemma split_char_join : forall ls,
  ls <> [] -> Forall (fun l => one_line l = true) ls ->
  split_char NL (join [NL] ls) = ls.
Proof.
  induction ls as [|l ls IH]; intros Hne H; [congruence|].
  inversion H as [|? ? Hl Hrest]; subst.
  destruct ls as [|l2 ls].
  - cbn [join]. rewrite <- (app_nil_r l) at 1. rewrite split_char_line by assumption.
    cbn [split_char prepend]. now rewrite app_nil_r.
  - rewrite join_cons. rewrite split_char_line by assumption.
    cbn [app split_char]. rewrite N.eqb_refl. rewrite IH by (assumption || discriminate).
    cbn [prepend]. now rewrite app_nil_r.
Qed.

Lemma split_char_lines : forall s, Forall (fun l => one_line l = true) (split_char NL s).
Proof.
  induction s as [|c s IH]; cbn [split_char].
  - repeat constructor.
  - destruct (c =? NL) eqn:E.
    + constructor; [reflexivity | assumption].
    + destruct (split_char NL s) as [|h t]; cbn [cons_head].
      * repeat constructor. cbn. unfold not_newline. now rewrite E.
      * inversion IH; subst. constructor; [|assumption].
        cbn [one_line forallb]. unfold not_newline at 1. rewrite E. assumption.
Qed.

Lemma join_split_char : forall s, join [NL] (split_char NL s) = s.
Proof.
  induction s as [|c s IH]; [reflexivity|]. cbn [split_char].
  destruct (N.eqb_spec c NL) as [->|Hc].
  - pose proof (split_char_nonempty NL s) as Hn.
    destruct (split_char NL s) as [|h t]; [congruence|].
    rewrite join_cons. now rewrite IH.
  - pose proof (split_char_nonempty NL s) as Hn.
    destruct (split_char NL s) as [|h t]; [congruence|].
    cbn [cons_head]. rewrite <- IH. destruct t; reflexivity.
Qed.

(** ** Strings: white space *)

Lemma drop_while_app_all : forall p a b,
  forallb p a = true -> drop_while p (a ++ b) = drop_while p b.
Proof.
  intros p. induction a as [|c a IH]; intros b H; [reflexivity|].
  cbn [forallb] in H. apply andb_prop in H. destruct H as [Hc H].
  cbn [app drop_while]. rewrite Hc. auto.
Qed.

Lemma take_while_app_all : forall p a b,
  forallb p a = true -> take_while p (a ++ b) = a ++ take_while p b.
Proof.
  intros p. induction a as [|c a IH]; intros b H; [reflexivity|].
  cbn [forallb] in H. apply andb_prop in H. destruct H as [Hc H].
  cbn [app take_while]. rewrite Hc. now rewrite IH.
Qed.

Lemma take_while_all : forall p a, forallb p a = true -> take_while p a = a.
Proof.
  intros p a H. rewrite <- (app_nil_r a) at 1. rewrite take_while_app_all by assumption.
  now rewrite app_nil_r.
Qed.

Lemma drop_while_clean : forall s, starts_clean s = true -> drop_while is_space s = s.
Proof.
  intros [|c s] H; [reflexivity|]. cbn [starts_clean] in H. apply negb_true_iff in H.
  cbn [drop_while]. now rewrite H.
Qed.

Lemma take_while_clean : forall s, starts_clean s = true -> take_while is_space s = [].
Proof.
  intros [|c s] H; [reflexivity|]. cbn [starts_clean] in H. apply negb_true_iff in H.
  cbn [take_while]. now rewrite H.
Qed.

Lemma lstrip_pad : forall w s,
  forallb is_space w = true -> starts_clean s = true -> lstrip (w ++ s) = s.
Proof.
  intros w s Hw Hs. unfold lstrip. rewrite drop_while_app_all by assumption.
  now apply drop_while_clean.
Qed.

Lemma rstrip_pad : forall s w,
  forallb is_space w = true -> ends_clean s = true -> rstrip (s ++ w) = s.
Proof.
  intros s w Hw Hs. unfold rstrip. rewrite rev_app_distr.
  rewrite drop_while_app_all by (now rewrite forallb_rev).
  rewrite drop_while_clean by assumption. apply rev_involutive.
Qed.

Lemma strip_pad : forall w1 s w2,
  forallb is_space w1 = true -> forallb is_space w2 = true -> trimmed s = true ->
  strip (w1 ++ s ++ w2) = s.
Proof.
  intros w1 s w2 H1 H2 Hs. unfold trimmed in Hs. apply andb_prop in Hs.
  destruct Hs as [Ha Hb]. unfold strip.
  destruct s as [|c s].
  - cbn [app]. unfold lstrip. rewrite <- (app_nil_r (w1 ++ w2)).
    rewrite drop_while_app_all by (rewrite forallb_app, H1, H2; reflexivity).
    reflexivity.
  - unfold lstrip. rewrite drop_while_app_all by assumption.
    cbn [starts_clean] in Ha. apply negb_true_iff in Ha.
    cbn [app drop_while]. rewrite Ha.
    change (c :: s ++ w2) with ((c :: s) ++ w2). now apply rstrip_pad.
Qed.

Lemma strip_trimmed : forall s, trimmed s = true -> strip s = s.
Proof.
  intros s H. rewrite <- (strip_pad [] s []) at 2 by (assumption || reflexivity).
  now rewrite app_nil_r.
Qed.

Lemma ends_clean_app : forall a b, b <> [] -> ends_clean (a ++ b) = ends_clean b.
Proof.
  intros a b Hb. unfold ends_clean. rewrite rev_app_distr.
  destruct (rev b) eqn:E; [|reflexivity].
  apply (f_equal (@rev _)) in E. rewrite rev_involutive in E. now subst.
Qed.

Lemma starts_clean_app : forall a b, a <> [] -> starts_clean (a ++ b) = starts_clean a.
Proof. intros [|c a] b H; [congruence | reflexivity]. Qed.

Lemma trimmed_app : forall a b,
  a <> [] -> b <> [] -> starts_clean a = true -> ends_clean b = true ->
  trimmed (a ++ b) = true.
Proof.
  intros a b Ha Hb Sa Eb. unfold trimmed.
  rewrite starts_clean_app, ends_clean_app by assumption. now rewrite Sa, Eb.
Qed.

Lemma spaces_are_space : forall n, forallb is_space (spaces n) = true.
Proof. induction n as [|n IH]; [reflexivity|]. cbn [spaces repeat forallb]. exact IH. Qed.

Lemma spaces_length : forall n, length (spaces n) = n.
Proof. intros n. apply repeat_length. Qed.

(** The leading white space of an indented line. *)
Lemma indent_split : forall n s,
  starts_clean s = true -> s <> [] ->
  take_while is_space (spaces n ++ s) = spaces n
  /\ drop_while is_space (spaces n ++ s) = s.
Proof.
  intros n s Hs Hne. split.
  - rewrite take_while_app_all by apply spaces_are_space.
    rewrite take_while_clean by assumption. apply app_nil_r.
  - rewrite drop_while_app_all by apply spaces_are_space.
    now apply drop_while_clean.
Qed.

(** ** Strings: characters that do not occur *)

Lemma lacks_app : forall c a b, lacks c (a ++ b) = lacks c a && lacks c b.
Proof. intros. apply forallb_app. Qed.

Lemma one_line_lacks : forall s, one_line s = lacks NL s.
Proof. reflexivity. Qed.

Lemma space_lacks : forall c w,
  is_space c = false -> forallb is_space w = true -> lacks c w = true.
Proof.
  intros c w Hc. induction w as [|d w IH]; intros H; [reflexivity|].
  cbn [forallb] in H. apply andb_prop in H. destruct H as [Hd H].
  cbn [lacks forallb]. fold (lacks c w). rewrite (IH H), andb_true_r.
  apply negb_true_iff. apply N.eqb_neq. intros ->. congruence.
Qed.

Lemma split_char_piece : forall sep l z,
  lacks sep l = true -> split_char sep (l ++ z) = prepend l (split_char sep z).
Proof.
  intros sep. induction l as [|c l IH]; intros z H.
  - cbn [app]. destruct (split_char sep z) eqn:E; [|reflexivity].
    now apply split_char_nonempty in E.
  - cbn [lacks forallb] in H. apply andb_prop in H. destruct H as [Hc H].
    apply negb_true_iff in Hc.
    cbn [app split_char]. rewrite Hc. rewrite (IH z H).
    destruct (split_char sep z); reflexivity.
Qed.

Lemma split_char_whole : forall sep l, lacks sep l = true -> split_char sep l = [l].
Proof.
  intros sep l H. rewrite <- (app_nil_r l) at 1. rewrite split_char_piece by assumption.
  cbn [split_char prepend]. now rewrite app_nil_r.
Qed.

Lemma split_char_cut : forall sep l z,
  lacks sep l = true -> split_char sep (l ++ sep :: z) = l :: split_char sep z.
Proof.
  intros sep l z H. rewrite split_char_piece by assumption.
  cbn [split_char]. rewrite N.eqb_refl. cbn [prepend]. now rewrite app_nil_r.
Qed.

(** ** Lists of labels and markers *)

Lemma item_ok_parts : forall s,
  item_ok s = true -> s <> [] /\ trimmed s = true /\ lacks 44 s = true.
Proof.
  intros s H. unfold item_ok in H. apply andb_prop in H. destruct H as [H H3].
  apply andb_prop in H. destruct H as [H H4].
  apply andb_prop in H. destruct H as [H1 H2]. repeat split; try assumption.
  intros ->. discriminate.
Qed.

Lemma item_ok_one_line : forall s, item_ok s = true -> one_line s = true.
Proof.
  intros s H. unfold item_ok in H. apply andb_prop in H. destruct H as [H _].
  apply andb_prop in H. tauto.
Qed.

Lemma truthy_nonempty : forall (A : Type) (l : list A), l <> [] -> truthy l = true.
Proof. intros A [|x l] H; [congruence | reflexivity]. Qed.

Lemma comma_list_join : forall items w,
  items <> [] -> forallb item_ok items = true -> forallb is_space w = true ->
  comma_list (w ++ join (u ", ") items) = items.
Proof.
  induction items as [|i items IH]; intros w Hne H Hw; [congruence|].
  cbn [forallb] in H. apply andb_prop in H. destruct H as [Hi H].
  destruct (item_ok_parts i Hi) as [Hi1 [Hi2 Hi3]].
  assert (Hs : strip (w ++ i) = i).
  { rewrite <- (app_nil_r i) at 1. apply strip_pad; auto. }
  assert (Hl : lacks 44 (w ++ i) = true).
  { rewrite lacks_app, Hi3, andb_true_r. apply space_lacks; [reflexivity | assumption]. }
  destruct items as [|i2 items].
  - cbn [join]. unfold comma_list. rewrite split_char_whole by assumption.
    cbn [filter]. rewrite Hs. rewrite truthy_nonempty by assumption.
    cbn [map]. now rewrite Hs.
  - rewrite join_cons. change (u ", ") with ([44] ++ [32]).
    rewrite <- (app_assoc [44]). rewrite app_assoc. cbn [app].
    unfold comma_list. rewrite split_char_cut by assumption.
    cbn [filter]. rewrite Hs. rewrite truthy_nonempty by assumption.
    cbn [map]. rewrite Hs. f_equal.
    apply (IH [32]); [discriminate | assumption | reflexivity].
Qed.

(** [join] of such entries has no white space at its ends. *)
Lemma join_items_trimmed : forall items,
  items <> [] -> forallb item_ok items = true ->
  trimmed (join (u ", ") items) = true /\ join (u ", ") items <> [].
Proof.
  induction items as [|i items IH]; intros Hne H; [congruence|].
  cbn [forallb] in H. apply andb_prop in H. destruct H as [Hi H].
  destruct (item_ok_parts i Hi) as [Hi1 [Hi2 Hi3]].
  unfold trimmed in Hi2. apply andb_prop in Hi2. destruct Hi2 as [Hs He].
  destruct items as [|i2 items].
  - cbn [join]. split; [|assumption]. unfold trimmed. now rewrite Hs, He.
  - rewrite join_cons. destruct (IH ltac:(discriminate) H) as [T N].
    unfold trimmed in T. apply andb_prop in T. destruct T as [_ T].
    split.
    + apply trimmed_app; try assumption.
      * intros E. apply app_eq_nil in E. destruct E as [E _]. discriminate.
      * rewrite ends_clean_app; assumption.
    + destruct i; [congruence | discriminate].
Qed.

Lemma join_lacks : forall c sep items,
  lacks c sep = true -> forallb (lacks c) items = true -> lacks c (join sep items) = true.
Proof.
  intros c sep. induction items as [|i items IH]; intros Hs H; [reflexivity|].
  cbn [forallb] in H. apply andb_prop in H. destruct H as [Hi H].
  destruct items as [|i2 items]; [exact Hi|].
  rewrite join_cons, !lacks_app, Hi, Hs, IH by assumption. reflexivity.
Qed.

(** ** Notes and their lines *)

Lemma ends_clean_cons : forall c s, s <> [] -> ends_clean (c :: s) = ends_clean s.
Proof. intros c s H. change (c :: s) with ([c] ++ s). now apply ends_clean_app. Qed.

Lemma splitlines_plain : forall s,
  plain_breaks s = true -> s <> [] -> ends_clean s = true ->
  splitlines s = split_char NL s.
Proof.
  induction s as [|c s IH]; intros Hp Hne He; [congruence|].
  cbn [plain_breaks forallb] in Hp. apply andb_prop in Hp. destruct Hp as [Hc Hp].
  fold (plain_breaks s) in Hp.
  destruct s as [|d s].
  - unfold ends_clean in He. cbn [rev app starts_clean] in He.
    apply negb_true_iff in He.
    assert (Hl : is_linebreak c = false).
    { destruct (is_linebreak c) eqn:E; [|reflexivity]. cbn [negb orb] in Hc.
      apply N.eqb_eq in Hc. subst c. discriminate. }
    assert (Hn : (c =? NL) = false).
    { destruct (c =? NL) eqn:E; [|reflexivity]. apply N.eqb_eq in E. subst c. discriminate. }
    cbn [splitlines split_char]. rewrite Hl, Hn. reflexivity.
  - rewrite ends_clean_cons in He by discriminate.
    specialize (IH Hp ltac:(discriminate) He).
    destruct (c =? NL) eqn:Hn.
    + apply N.eqb_eq in Hn. subst c.
      change (splitlines (NL :: d :: s)) with ([] :: splitlines (d :: s)).
      cbn [split_char]. rewrite N.eqb_refl. now rewrite IH.
    + rewrite orb_false_r in Hc. apply negb_true_iff in Hc.
      change (splitlines (c :: d :: s))
        with (if is_linebreak c
              then if (c =? CR) && (d =? NL) then [] :: splitlines s
                   else [] :: splitlines (d :: s)
              else cons_head c (splitlines (d :: s))).
      rewrite Hc. cbn [split_char]. rewrite Hn. now rewrite IH.
Qed.

Lemma firstn_exact : forall (A : Type) (a b : list A), firstn (length a) (a ++ b) = a.
Proof. intros A a b. induction a as [|x a IH]; [reflexivity|]. cbn. now rewrite IH. Qed.

Lemma skipn_exact : forall (A : Type) (a b : list A), skipn (length a) (a ++ b) = b.
Proof. intros A a b. induction a as [|x a IH]; [reflexivity|]. exact IH. Qed.

Lemma startswith_nil : forall s, startswith s [] = true.
Proof. intros [|c s]; reflexivity. Qed.

Lemma startswith_app : forall p r, startswith (p ++ r) p = true.
Proof.
  induction p as [|c p IH]; intros r; [destruct r; reflexivity|].
  cbn [app startswith]. now rewrite N.eqb_refl, IH.
Qed.

(** ** The inline tags of a bullet *)

Lemma inline_suffix : forall labels link markers,
  (if truthy (inline_tags labels link markers)
   then u "  " ++ join (u "  ") (inline_tags labels link markers) else [])
  = opt_frag (u "labels") (join (u ", ") labels) (truthy labels)
    ++ opt_frag (u "link") link (truthy link)
    ++ opt_frag (u "markers") (join (u ", ") markers) (truthy markers).
Proof.
  intros labels link markers. unfold inline_tags, opt_frag, tag.
  destruct labels as [|l ls], link as [|c k], markers as [|m ms];
    cbn [truthy app join]; rewrite <- ?app_assoc; cbn [app];
    rewrite <- ?app_assoc; cbn [app]; rewrite ?app_nil_r; reflexivity.
Qed.

Lemma tag_here_nil : forall key, tag_here key [] = None.
Proof. reflexivity. Qed.

Lemma tag_here_other : forall key c s, c <> 123 -> tag_here key (c :: s) = None.
Proof.
  intros key c s H. unfold tag_here.
  change (u "{" ++ key ++ u ":") with (123 :: key ++ u ":").
  cbn [startswith]. apply N.eqb_neq in H. rewrite N.eqb_sym in H. rewrite N.eqb_sym.
  rewrite N.eqb_sym. rewrite H. reflexivity.
Qed.

Lemma search_tag_skip : forall key pre pos s,
  lacks 123 pre = true ->
  search_tag key pos (pre ++ s) = search_tag key (pos + length pre) s.
Proof.
  intros key. induction pre as [|c pre IH]; intros pos s H.
  - cbn [app length]. now rewrite Nat.add_0_r.
  - cbn [lacks forallb] in H. apply andb_prop in H. destruct H as [Hc H].
    apply negb_true_iff in Hc. apply N.eqb_neq in Hc.
    cbn [app search_tag]. rewrite tag_here_other by assumption.
    rewrite (IH (S pos) s H). cbn [length]. f_equal. lia.
Qed.

Lemma search_tag_none : forall key s pos, lacks 123 s = true -> search_tag key pos s = None.
Proof.
  intros key s pos H. rewrite <- (app_nil_r s). rewrite search_tag_skip by assumption.
  reflexivity.
Qed.

Lemma take_while_stop : forall p a c b,
  forallb p a = true -> p c = false ->
  take_while p (a ++ c :: b) = a /\ drop_while p (a ++ c :: b) = c :: b.
Proof.
  intros p a c b Ha Hc. split.
  - rewrite take_while_app_all by assumption. cbn [take_while]. rewrite Hc. apply app_nil_r.
  - rewrite drop_while_app_all by assumption. cbn [drop_while]. now rewrite Hc.
Qed.

Lemma tag_here_hit : forall key v rest,
  v <> [] -> starts_clean v = true -> lacks 125 v = true ->
  tag_here key (tag key v ++ rest) = Some (v, (length key + length v + 4)%nat).
Proof.
  intros key v rest Hne Hs Hb. unfold tag_here, tag.
  set (opening := u "{" ++ key ++ u ":").
  assert (E : (u "{" ++ key ++ u ": " ++ v ++ u "}") ++ rest
              = opening ++ 32 :: v ++ 125 :: rest).
  { unfold opening. change (u ": ") with (u ":" ++ [32]). change (u "}") with [125].
    rewrite <- !app_assoc. reflexivity. }
  rewrite E. rewrite startswith_app. rewrite skipn_exact.
  assert (P : forallb not_rbrace (32 :: v) = true).
  { cbn [forallb]. exact Hb. }
  change (32 :: v ++ 125 :: rest) with ((32 :: v) ++ 125 :: rest).
  destruct (take_while_stop not_rbrace (32 :: v) 125 rest P eq_refl) as [T D].
  rewrite T, D.
  assert (K : Nat.min (length (take_while is_space (32 :: v))) (length (32 :: v) - 1) = 1%nat).
  { cbn [take_while]. change (is_space 32) with true. cbv iota.
    rewrite take_while_clean by assumption.
    destruct v; [congruence|]. cbn [length]. lia. }
  rewrite K. cbn [skipn]. f_equal. f_equal.
  unfold opening. rewrite !length_app. cbn [length]. change (length (u "{")) with 1%nat.
  change (length (u ":")) with 1%nat. lia.
Qed.

Lemma tag_length : forall key v, length (tag key v) = (length key + length v + 4)%nat.
Proof.
  intros. unfold tag. rewrite !length_app.
  change (length (u "{")) with 1%nat. change (length (u ": ")) with 2%nat.
  change (length (u "}")) with 1%nat. lia.
Qed.

Lemma search_tag_hit : forall key pre v rest pos,
  lacks 123 pre = true -> v <> [] -> starts_clean v = true -> lacks 125 v = true ->
  search_tag key pos (pre ++ tag key v ++ rest)
  = Some ((pos + length pre)%nat, (pos + length pre + length (tag key v))%nat, v).
Proof.
  intros key pre v rest pos Hp Hne Hs Hb.
  rewrite search_tag_skip by assumption.
  destruct (tag key v ++ rest) as [|c r] eqn:E.
  - unfold tag in E. discriminate.
  - cbn [search_tag]. rewrite <- E. rewrite tag_here_hit by assumption.
    now rewrite tag_length.
Qed.

Lemma cut_out : forall (pre t rest : str),
  firstn (length pre) (pre ++ t ++ rest)
  ++ skipn (length pre + length t) (pre ++ t ++ rest)
  = pre ++ rest.
Proof.
  intros pre t rest. rewrite firstn_exact. f_equal.
  rewrite app_assoc. rewrite <- length_app. apply skipn_exact.
Qed.

(** One round of [_parse_title_meta] on a text whose tag for [key], if any,
    is the fragment after [pre]. *)
Lemma take_list_tag_step : forall key set topic pre items rest,
  lacks 123 pre = true ->
  forallb tag_item_ok items = true ->
  (forall pos, search_tag key pos rest = None) ->
  take_list_tag key set
    (topic, pre ++ opt_frag key (join (u ", ") items) (truthy items) ++ rest)
  = (if truthy items then set topic items else topic,
     pre ++ (if truthy items then u "  " else []) ++ rest).
Proof.
  intros key set topic pre items rest Hp Hi Hr. unfold take_list_tag, opt_frag.
  destruct items as [|i items]; cbn [truthy app].
  - rewrite search_tag_skip by assumption. now rewrite Hr.
  - assert (Hok : forallb item_ok (i :: items) = true).
    { rewrite forallb_forall in *. intros x Hx. specialize (Hi x Hx).
      unfold tag_item_ok in Hi. apply andb_prop in Hi. tauto. }
    assert (Hbr : forallb (lacks 125) (i :: items) = true).
    { rewrite forallb_forall in *. intros x Hx. specialize (Hi x Hx).
      unfold tag_item_ok, brace_free in Hi. apply andb_prop in Hi. destruct Hi as [_ Hi].
      apply andb_prop in Hi. tauto. }
    destruct (join_items_trimmed (i :: items) ltac:(discriminate) Hok) as [T N].
    set (v := join (u ", ") (i :: items)) in *.
    assert (Sv : starts_clean v = true).
    { unfold trimmed in T. apply andb_prop in T. tauto. }
    assert (Bv : lacks 125 v = true) by (apply join_lacks; [reflexivity | assumption]).
    replace (pre ++ (u "  " ++ tag key v) ++ rest)
      with ((pre ++ u "  ") ++ tag key v ++ rest) by (now rewrite <- !app_assoc).
    rewrite search_tag_hit; try assumption.
    2:{ rewrite lacks_app, Hp. reflexivity. }
    cbn [Nat.add]. rewrite cut_out. rewrite (strip_trimmed v T).
    unfold v. rewrite <- (app_nil_l (join _ _)).
    rewrite comma_list_join by (assumption || discriminate || reflexivity).
    now rewrite <- !app_assoc.
Qed.

Lemma take_text_tag_step : forall key set topic pre v rest,
  lacks 123 pre = true ->
  tag_text_ok v = true ->
  (forall pos, search_tag key pos rest = None) ->
  take_text_tag key set (topic, pre ++ opt_frag key v (truthy v) ++ rest)
  = (if truthy v then set topic v else topic,
     pre ++ (if truthy v then u "  " else []) ++ rest).
Proof.
  intros key set topic pre v rest Hp Hv Hr. unfold take_text_tag, opt_frag.
  destruct v as [|c v]; cbn [truthy app].
  - rewrite search_tag_skip by assumption. now rewrite Hr.
  - unfold tag_text_ok, text_ok, brace_free in Hv.
    apply andb_prop in Hv. destruct Hv as [T B].
    apply andb_prop in T. destruct T as [T _].
    apply andb_prop in B. destruct B as [_ B].
    assert (Sv : starts_clean (c :: v) = true).
    { unfold trimmed in T. apply andb_prop in T. tauto. }
    replace (pre ++ (u "  " ++ tag key (c :: v)) ++ rest)
      with ((pre ++ u "  ") ++ tag key (c :: v) ++ rest) by (now rewrite <- !app_assoc).
    rewrite search_tag_hit; try assumption; try discriminate.
    2:{ rewrite lacks_app, Hp. reflexivity. }
    cbn [Nat.add]. rewrite cut_out. rewrite (strip_trimmed _ T).
    now rewrite <- !app_assoc.
Qed.

(** A fragment for another key is passed over. *)
Lemma search_tag_pass : forall key pre mid rest pos,
  lacks 123 pre = true -> lacks 123 mid = true ->
  tag_here key (123 :: mid ++ rest) = None ->
  exists pos', search_tag key pos (pre ++ 123 :: mid ++ rest) = search_tag key pos' rest.
Proof.
  intros key pre mid rest pos Hp Hm Hn.
  rewrite search_tag_skip by assumption. cbn [search_tag]. rewrite Hn.
  rewrite search_tag_skip by assumption. eexists. reflexivity.
Qed.

Lemma no_tag_in_frag : forall key k v b rest,
  (forall r, tag_here key (123 :: (k ++ u ": " ++ v ++ u "}") ++ r) = None) ->
  lacks 123 k = true -> lacks 123 v = true ->
  (forall pos, search_tag key pos rest = None) ->
  forall pos, search_tag key pos (opt_frag k v b ++ rest) = None.
Proof.
  intros key k v b rest Hn Hk Hv Hr pos. unfold opt_frag. destruct b; [|apply Hr].
  unfold tag. change (u "{") with [123].
  replace ((u "  " ++ [123] ++ k ++ u ": " ++ v ++ u "}") ++ rest)
    with (u "  " ++ 123 :: (k ++ u ": " ++ v ++ u "}") ++ rest)
    by (rewrite <- !app_assoc; reflexivity).
  destruct (search_tag_pass key (u "  ") (k ++ u ": " ++ v ++ u "}") rest pos) as [pos' E].
  - reflexivity.
  - rewrite !lacks_app, Hk, Hv. reflexivity.
  - apply Hn.
  - rewrite E. apply Hr.
Qed.

(** ** The bullet line *)

Lemma tag_item_parts : forall items,
  forallb tag_item_ok items = true ->
  forallb item_ok items = true /\ forallb (lacks 123) items = true
  /\ forallb (lacks 125) items = true /\ forallb one_line items = true.
Proof.
  intros items H. repeat split; rewrite forallb_forall in *; intros x Hx;
    specialize (H x Hx); unfold tag_item_ok, brace_free in H;
    apply andb_prop in H; destruct H as [H1 H2]; apply andb_prop in H2;
    try tauto.
  now apply item_ok_one_line.
Qed.

Lemma tag_text_parts : forall s,
  tag_text_ok s = true ->
  trimmed s = true /\ one_line s = true /\ lacks 123 s = true /\ lacks 125 s = true.
Proof.
  intros s H. unfold tag_text_ok, text_ok, brace_free in H.
  apply andb_prop in H. destruct H as [H1 H2].
  apply andb_prop in H1. apply andb_prop in H2. tauto.
Qed.

Lemma search_tag_empty : forall key pos, search_tag key pos [] = None.
Proof. reflexivity. Qed.

Section TitleMeta.
Variable uuid : IdGen.

(** [_parse_title_meta] reads back the title and the tags the encoder put
    on a bullet line. *)
Lemma parse_title_meta_encoded : forall n title labels link markers,
  title <> [] -> trimmed title = true -> lacks 123 title = true ->
  forallb tag_item_ok labels = true -> tag_text_ok link = true ->
  forallb tag_item_ok markers = true ->
  _parse_title_meta uuid
    (title ++ opt_frag (u "labels") (join (u ", ") labels) (truthy labels)
           ++ opt_frag (u "link") link (truthy link)
           ++ opt_frag (u "markers") (join (u ", ") markers) (truthy markers)) n
  = (mkTopic (uuid n) title [] [] labels link markers, S n).
Proof.
  intros n title labels link markers Hne Ht Hb Hl Hk Hm.
  destruct (tag_item_parts labels Hl) as [_ [Ll _]].
  destruct (tag_item_parts markers Hm) as [_ [Lm _]].
  destruct (tag_text_parts link Hk) as [_ [_ [Lk _]]].
  set (t0 := mkTopic (uuid n) [] [] [] [] [] []).
  set (L := opt_frag (u "labels") (join (u ", ") labels) (truthy labels)).
  set (K := opt_frag (u "link") link (truthy link)).
  set (M := opt_frag (u "markers") (join (u ", ") markers) (truthy markers)).
  set (P1 := if truthy labels then u "  " else []).
  set (P2 := if truthy link then u "  " else []).
  set (P3 := if truthy markers then u "  " else []).
  assert (NM : forall key, (forall r, tag_here key (123 :: (u "markers" ++ u ": "
                               ++ join (u ", ") markers ++ u "}") ++ r) = None) ->
                forall pos, search_tag key pos (M ++ []) = None).
  { intros key Hn. apply no_tag_in_frag; try assumption; try reflexivity.
    apply join_lacks; [reflexivity | assumption]. }
  assert (E1 : take_list_tag (u "labels") set_labels (t0, title ++ L ++ K ++ M)
               = (if truthy labels then set_labels t0 labels else t0,
                  title ++ P1 ++ K ++ M)).
  { apply take_list_tag_step; try assumption.
    intros pos. rewrite <- (app_nil_r M). apply no_tag_in_frag; try assumption.
    - intros r. reflexivity.
    - reflexivity.
    - apply NM. intros r. reflexivity. }
  set (t1 := if truthy labels then set_labels t0 labels else t0) in *.
  assert (E2 : take_text_tag (u "link") set_link (t1, title ++ P1 ++ K ++ M)
               = (if truthy link then set_link t1 link else t1,
                  title ++ P1 ++ P2 ++ M)).
  { rewrite (app_assoc title P1 (K ++ M)). rewrite (app_assoc title P1 (P2 ++ M)).
    apply take_text_tag_step; try assumption.
    - rewrite lacks_app, Hb. unfold P1. destruct (truthy labels); reflexivity.
    - intros pos. rewrite <- (app_nil_r M). apply NM. intros r. reflexivity. }
  set (t2 := if truthy link then set_link t1 link else t1) in *.
  assert (E3 : take_list_tag (u "markers") set_markers (t2, title ++ P1 ++ P2 ++ M)
               = (if truthy markers then set_markers t2 markers else t2,
                  title ++ P1 ++ P2 ++ P3)).
  { replace (title ++ P1 ++ P2 ++ M) with ((title ++ P1 ++ P2) ++ M ++ [])
      by (rewrite app_nil_r, <- !app_assoc; reflexivity).
    replace (title ++ P1 ++ P2 ++ P3) with ((title ++ P1 ++ P2) ++ P3 ++ [])
      by (rewrite app_nil_r, <- !app_assoc; reflexivity).
    apply take_list_tag_step; try assumption.
    - rewrite !lacks_app, Hb. unfold P1, P2.
      destruct (truthy labels), (truthy link); reflexivity.
    - intros pos. reflexivity. }
  unfold _parse_title_meta. cbn [new_topic]. fold t0. cbv zeta.
  rewrite E1, E2, E3.
  assert (S : strip (title ++ P1 ++ P2 ++ P3) = title).
  { rewrite <- (app_nil_l (title ++ _)). apply strip_pad; try assumption; try reflexivity.
    unfold P1, P2, P3.
    destruct (truthy labels), (truthy link), (truthy markers); reflexivity. }
  rewrite S. unfold t2, t1, t0.
  destruct labels, link, markers; reflexivity.
Qed.

End TitleMeta.

Lemma one_line_app : forall a b, one_line (a ++ b) = one_line a && one_line b.
Proof. intros. apply forallb_app. Qed.

Lemma drop_while_none : forall p a, forallb p a = true -> drop_while p a = [].
Proof. intros p a H. now apply drop_while_all. Qed.

Lemma re_item_line : forall n body,
  body <> [] -> one_line body = true ->
  re_item (spaces n ++ u "- " ++ body) = Some (spaces n, body).
Proof.
  intros n body Hne Hl. unfold re_item.
  destruct (indent_split n (u "- " ++ body) eq_refl ltac:(discriminate)) as [T D].
  rewrite D, T. change (u "- " ++ body) with (45 :: 32 :: body). cbv iota.
  rewrite take_while_all by assumption. rewrite drop_while_none by assumption.
  rewrite truthy_nonempty by assumption. reflexivity.
Qed.

Lemma re_bullet_line : forall n body,
  re_bullet (spaces n ++ u "- " ++ body) = Some (spaces n).
Proof.
  intros n body. unfold re_bullet.
  destruct (indent_split n (u "- " ++ body) eq_refl ltac:(discriminate)) as [T D].
  rewrite D, T. reflexivity.
Qed.

Lemma re_quote_line : forall n text,
  one_line text = true ->
  re_quote (spaces n ++ u "> " ++ text) = Some (spaces n, text).
Proof.
  intros n text Hl. unfold re_quote.
  destruct (indent_split n (u "> " ++ text) eq_refl ltac:(discriminate)) as [T D].
  rewrite D, T. change (u "> " ++ text) with (62 :: 32 :: text). cbv iota.
  rewrite take_while_all by assumption. rewrite drop_while_none by assumption.
  reflexivity.
Qed.

Lemma bullet_line_not_blank : forall n body,
  truthy (strip (spaces n ++ u "- " ++ body)) = true.
Proof.
  intros n body. apply (strip_not_blank _ 45); [|reflexivity].
  apply in_or_app. right. left. reflexivity.
Qed.

(** ** The lines of an encoded topic *)

Lemma topic_lines_nonempty : forall d t, topic_lines d t <> [].
Proof. intros d [i ti ch no la li ma]. discriminate. Qed.

Lemma join_singletons : forall sep (A : list str) (lls : list (list str)),
  Forall (fun ls => ls <> []) lls ->
  join sep (A ++ map (join sep) lls) = join sep (A ++ List.concat lls).
Proof.
  intros sep A lls H.
  assert (EA : forall B : list str, map (join sep) (map (fun l => [l]) B) = B).
  { induction B as [|a B IH]; [reflexivity|]. cbn [map join]. now rewrite IH. }
  assert (EB : forall B : list str, List.concat (map (fun l => [l]) B) = B).
  { induction B as [|a B IH]; [reflexivity|]. cbn [map List.concat app]. now rewrite IH. }
  assert (E : A ++ map (join sep) lls = map (join sep) (map (fun l => [l]) A ++ lls)).
  { rewrite map_app, EA. reflexivity. }
  rewrite E, join_concat.
  - rewrite concat_app, EB. reflexivity.
  - apply Forall_app. split; [|assumption].
    apply Forall_forall. intros x Hx. apply in_map_iff in Hx.
    destruct Hx as [y [<- _]]. discriminate.
Qed.

Lemma topic_to_md_lines : forall t d,
  _topic_to_md t d = join [NL] (topic_lines d t).
Proof.
  induction t as [i ti ch no la li ma IH] using Topic_forest_ind. intros d.
  cbn [_topic_to_md topic_lines].
  assert (E : map (fun child => _topic_to_md child (S d)) ch
              = map (join [NL]) (map (topic_lines (S d)) ch)).
  { rewrite map_map. apply map_ext_in. intros c Hc.
    rewrite Forall_forall in IH. apply IH. assumption. }
  rewrite E.
  assert (T : (if truthy (inline_tags la li ma)
               then (spaces (2 * d) ++ u "- " ++ ti) ++ u "  "
                    ++ join (u "  ") (inline_tags la li ma)
               else spaces (2 * d) ++ u "- " ++ ti)
              = bullet_line (2 * d) ti la li ma).
  { unfold bullet_line. rewrite <- inline_suffix.
    destruct (truthy (inline_tags la li ma)).
    - now rewrite <- !app_assoc.
    - now rewrite app_nil_r. }
  rewrite T.
  assert (Q : (if truthy no
               then [bullet_line (2 * d) ti la li ma]
                    ++ map (fun nl => spaces (2 * d) ++ u "  > " ++ nl) (splitlines no)
               else [bullet_line (2 * d) ti la li ma])
              = bullet_line (2 * d) ti la li ma :: quoted_lines (2 * d) no).
  { unfold quoted_lines. destruct (truthy no); reflexivity. }
  rewrite Q. rewrite join_singletons.
  - rewrite flat_map_concat_map. reflexivity.
  - apply Forall_forall. intros x Hx. apply in_map_iff in Hx.
    destruct Hx as [c [<- _]]. apply topic_lines_nonempty.
Qed.

(** ** Scanning the lines under an item *)

Lemma quote_line_facts : forall n text,
  one_line text = true ->
  re_quote (spaces n ++ u "> " ++ text) = Some (spaces n, text)
  /\ re_bullet (spaces n ++ u "> " ++ text) = None
  /\ truthy (strip (spaces n ++ u "> " ++ text)) = true.
Proof.
  intros n text H. pose proof (re_quote_line n text H) as Q.
  destruct (re_quote_not_bullet _ _ _ Q). auto.
Qed.

Lemma collect_deep : forall ls cur cl nl rest,
  Forall (deep cur) ls ->
  (cl <> [] \/ ls = [] \/ exists l ls', ls = l :: ls' /\ is_bullet l) ->
  collect_item cur cl nl (ls ++ rest) = collect_item cur (cl ++ ls) nl rest.
Proof.
  induction ls as [|l ls IH]; intros cur cl nl rest Hd Hc.
  - now rewrite app_nil_r.
  - inversion Hd as [|? ? Hl Hls]; subst.
    assert (Step : collect_item cur cl nl ((l :: ls) ++ rest)
                   = collect_item cur (cl ++ [l]) nl (ls ++ rest)).
    { cbn [app collect_item]. destruct Hl as [n body Hn | n text Hn Ht].
      - rewrite bullet_line_not_blank. cbn [negb]. rewrite re_bullet_line.
        rewrite spaces_length. apply Nat.ltb_lt in Hn. now rewrite Hn.
      - destruct (quote_line_facts n text Ht) as [Q [B S]].
        rewrite S, B, Q. cbn [negb]. rewrite spaces_length.
        assert (Hcl : truthy cl = true).
        { unfold is_bullet in Hc.
          destruct Hc as [Hc | [Hc | [l0 [ls0 [E [n0 [b0 Hb]]]]]]].
          - now apply truthy_nonempty.
          - discriminate.
          - exfalso. rewrite Hb in E. injection E as E1 E2.
            assert (re_bullet (spaces n ++ u "> " ++ text) = Some (spaces n0)).
            { change (spaces n ++ u "> " ++ text) with (spaces n ++ 62 :: 32 :: text).
              rewrite E1. apply (re_bullet_line n0 b0). }
            congruence. }
        rewrite Hcl. cbn [negb andb]. apply Nat.ltb_lt in Hn. now rewrite Hn. }
    rewrite Step. rewrite IH; try assumption.
    + now rewrite <- app_assoc.
    + left. intros E. apply app_eq_nil in E. destruct E; discriminate.
Qed.

Lemma collect_notes : forall texts cur nl rest,
  Forall (fun t => one_line t = true) texts ->
  collect_item cur [] nl (map (fun t => spaces (cur + 2) ++ u "> " ++ t) texts ++ rest)
  = collect_item cur [] (nl ++ texts) rest.
Proof.
  induction texts as [|t texts IH]; intros cur nl rest H.
  - now rewrite app_nil_r.
  - inversion H as [|? ? Ht Hts]; subst.
    cbn [map app collect_item].
    destruct (quote_line_facts (cur + 2) t Ht) as [Q [B S]].
    rewrite S, B, Q. cbn [negb truthy andb]. rewrite spaces_length, Nat.eqb_refl.
    rewrite IH by assumption. now rewrite <- app_assoc.
Qed.

Lemma collect_stop : forall cur cl nl rest,
  stop_at cur rest -> collect_item cur cl nl rest = (cl, nl, rest).
Proof.
  intros cur cl nl rest [-> | [n [body [more [-> Hn]]]]]; [reflexivity|].
  cbn [collect_item]. rewrite bullet_line_not_blank. cbn [negb].
  rewrite re_bullet_line, spaces_length.
  assert (E : (cur <? n)%nat = false) by (apply Nat.ltb_ge; assumption).
  now rewrite E.
Qed.

(** ** Documents the outline keeps *)

Lemma bullet_ok_parts : forall i ti ch no la li ma,
  bullet_ok (mkTopic i ti ch no la li ma) = true ->
  ti <> [] /\ trimmed ti = true /\ one_line ti = true /\ lacks 123 ti = true
  /\ forallb tag_item_ok la = true /\ tag_text_ok li = true
  /\ forallb tag_item_ok ma = true /\ notes_ok no = true
  /\ forallb bullet_ok ch = true.
Proof.
  intros i ti ch no la li ma H. cbn [bullet_ok] in H.
  repeat (apply andb_prop in H; destruct H as [H ?]).
  unfold text_ok in *.
  match goal with X : trimmed ti && one_line ti = true |- _ =>
    apply andb_prop in X; destruct X end.
  repeat split; try assumption. intros ->. discriminate.
Qed.

Lemma spaces_shift : forall n t, spaces n ++ u "  > " ++ t = spaces (n + 2) ++ u "> " ++ t.
Proof.
  intros n t. unfold spaces. rewrite repeat_app. rewrite <- app_assoc. reflexivity.
Qed.

Lemma note_texts_facts : forall notes n,
  notes_ok notes = true ->
  Forall (fun t => one_line t = true) (note_texts notes)
  /\ (if truthy (note_texts notes) then join [NL] (note_texts notes) else []) = notes
  /\ quoted_lines n notes
     = map (fun t => spaces (n + 2) ++ u "> " ++ t) (note_texts notes).
Proof.
  intros notes n H. unfold notes_ok in H. apply andb_prop in H. destruct H as [Hp He].
  unfold note_texts, quoted_lines. destruct notes as [|c notes].
  - cbn [truthy map]. repeat split. constructor.
  - cbn [truthy]. rewrite splitlines_plain by (assumption || discriminate).
    repeat split.
    + apply split_char_lines.
    + rewrite truthy_nonempty by apply split_char_nonempty. apply join_split_char.
    + apply map_ext. intros t. apply spaces_shift.
Qed.

Lemma opt_frag_one_line : forall key v b,
  one_line key = true -> one_line v = true -> one_line (opt_frag key v b) = true.
Proof.
  intros key v b Hk Hv. unfold opt_frag, tag. destruct b; [|reflexivity].
  rewrite !one_line_app, Hk, Hv. reflexivity.
Qed.

Lemma join_one_line : forall items,
  forallb one_line items = true -> one_line (join (u ", ") items) = true.
Proof. intros items H. apply (join_lacks NL); [reflexivity | exact H]. Qed.

Lemma bullet_body_facts : forall ti la li ma,
  ti <> [] -> one_line ti = true ->
  forallb tag_item_ok la = true -> tag_text_ok li = true ->
  forallb tag_item_ok ma = true ->
  let body := ti ++ opt_frag (u "labels") (join (u ", ") la) (truthy la)
                 ++ opt_frag (u "link") li (truthy li)
                 ++ opt_frag (u "markers") (join (u ", ") ma) (truthy ma) in
  body <> [] /\ one_line body = true.
Proof.
  intros ti la li ma Hne Hl Hla Hli Hma body. split.
  - unfold body. destruct ti; [congruence | discriminate].
  - unfold body. rewrite !one_line_app, Hl.
    destruct (tag_item_parts la Hla) as [_ [_ [_ Ola]]].
    destruct (tag_item_parts ma Hma) as [_ [_ [_ Oma]]].
    destruct (tag_text_parts li Hli) as [_ [Oli _]].
    rewrite !opt_frag_one_line; try reflexivity; try assumption;
      now apply join_one_line.
Qed.

Lemma topic_lines_deep : forall t d cur,
  bullet_ok t = true -> (cur < 2 * d)%nat -> Forall (deep cur) (topic_lines d t).
Proof.
  induction t as [i ti ch no la li ma IH] using Topic_forest_ind.
  intros d cur Hok Hc.
  destruct (bullet_ok_parts _ _ _ _ _ _ _ Hok) as [_ [_ [_ [_ [_ [_ [_ [Hno Hch]]]]]]]].
  cbn [topic_lines]. constructor.
  - unfold bullet_line. now constructor.
  - apply Forall_app. split.
    + destruct (note_texts_facts no (2 * d) Hno) as [F [_ Q]]. rewrite Q.
      apply Forall_forall. intros x Hx. apply in_map_iff in Hx.
      destruct Hx as [t [<- Ht]]. rewrite Forall_forall in F.
      constructor; [lia | now apply F].
    + apply Forall_forall. intros x Hx. apply in_flat_map in Hx.
      destruct Hx as [c [Hc1 Hc2]]. rewrite Forall_forall in IH.
      rewrite forallb_forall in Hch.
      specialize (IH c Hc1 (S d) cur (Hch c Hc1) ltac:(lia)).
      rewrite Forall_forall in IH. now apply IH.
Qed.

Lemma forest_lines_start : forall d ts,
  flat_map (topic_lines d) ts = []
  \/ exists l ls', flat_map (topic_lines d) ts = l :: ls' /\ is_bullet l.
Proof.
  intros d [|[i ti ch no la li ma] ts]; [left; reflexivity|]. right.
  cbn [flat_map topic_lines app]. eexists. eexists. split; [reflexivity|].
  unfold is_bullet, bullet_line. eexists. eexists. reflexivity.
Qed.

Lemma forest_lines_stop : forall d ts rest,
  stop_at (2 * d) rest -> stop_at (2 * d) (flat_map (topic_lines d) ts ++ rest).
Proof.
  intros d [|[i ti ch no la li ma] ts] rest H; [exact H|]. right.
  cbn [flat_map topic_lines app]. unfold bullet_line.
  eexists. eexists. eexists. split; [reflexivity | lia].
Qed.

Lemma forest_lines_nil : forall d ts, flat_map (topic_lines d) ts = [] -> ts = [].
Proof.
  intros d [|[i ti ch no la li ma] ts] H; [reflexivity | discriminate].
Qed.

Section BulletRoundTrip.
Variable uuid : IdGen.

(** What decoding the lines of a topic, followed by [rest], gives. *)
Definition reads_back (t : Topic) : Prop :=
  bullet_ok t = true ->
  forall d rest n, stop_at (2 * d) rest ->
  exists t' n',
    erase_ids t' = erase_ids t
    /\ _parse_md_items uuid (topic_lines d t ++ rest) n
       = (t' :: fst (_parse_md_items uuid rest n'), snd (_parse_md_items uuid rest n')).

Definition forest_reads_back (ts : list Topic) : Prop :=
  forallb bullet_ok ts = true ->
  forall d rest n, stop_at (2 * d) rest ->
  exists ts' n',
    map erase_ids ts' = map erase_ids ts
    /\ _parse_md_items uuid (flat_map (topic_lines d) ts ++ rest) n
       = (ts' ++ fst (_parse_md_items uuid rest n'), snd (_parse_md_items uuid rest n')).

Lemma forest_from_topics : forall ts, Forall reads_back ts -> forest_reads_back ts.
Proof.
  induction ts as [|t ts IH]; intros HP Hok d rest n Hs.
  - exists [], n. split; [reflexivity|]. cbn [flat_map app]. apply surjective_pairing.
  - inversion HP as [|? ? Ht Hts]; subst.
    cbn [forallb] in Hok. apply andb_prop in Hok. destruct Hok as [Hok1 Hok2].
    cbn [flat_map]. rewrite <- app_assoc.
    destruct (Ht Hok1 d (flat_map (topic_lines d) ts ++ rest) n
                 (forest_lines_stop d ts rest Hs)) as [t' [n1 [E1 R1]]].
    destruct (IH Hts Hok2 d rest n1 Hs) as [ts' [n2 [E2 R2]]].
    exists (t' :: ts'), n2. split.
    + cbn [map]. now rewrite E1, E2.
    + rewrite R1, R2. reflexivity.
Qed.

Lemma topic_reads_back : forall t, reads_back t.
Proof.
  induction t as [i ti ch no la li ma IH] using Topic_forest_ind.
  intros Hok d rest n Hs.
  destruct (bullet_ok_parts _ _ _ _ _ _ _ Hok)
    as [Hne [Htr [Hol [Hbr [Hla [Hli [Hma [Hno Hch]]]]]]]].
  destruct (bullet_body_facts ti la li ma Hne Hol Hla Hli Hma) as [Bne Bol].
  destruct (note_texts_facts no (2 * d) Hno) as [TF [TJ TQ]].
  pose proof (forest_from_topics ch IH Hch (S d) [] (S n) (or_introl eq_refl)) as Kids.
  destruct Kids as [ks [nk [EK RK]]].
  rewrite app_nil_r in RK. change (_parse_md_items uuid [] nk) with (@nil Topic, nk) in RK.
  cbn [fst snd] in RK. rewrite app_nil_r in RK.
  set (kl := flat_map (topic_lines (S d)) ch) in *.
  assert (C : collect_item (2 * d) [] [] (quoted_lines (2 * d) no ++ kl ++ rest)
              = (kl, note_texts no, rest)).
  { rewrite TQ. rewrite collect_notes by assumption. cbn [app].
    rewrite collect_deep.
    - cbn [app]. now apply collect_stop.
    - apply Forall_forall. intros x Hx. apply in_flat_map in Hx.
      destruct Hx as [c [Hc1 Hc2]]. rewrite forallb_forall in Hch.
      pose proof (topic_lines_deep c (S d) (2 * d) (Hch c Hc1) ltac:(lia)) as D.
      rewrite Forall_forall in D. now apply D.
    - right. apply forest_lines_start. }
  cbn [topic_lines]. cbn [app]. rewrite parse_items_unfold.
  unfold bullet_line at 1. rewrite re_item_line by assumption.
  rewrite parse_title_meta_encoded by assumption.
  rewrite spaces_length. fold kl.
  rewrite <- (app_assoc (quoted_lines (2 * d) no) kl rest). rewrite C.
  destruct (truthy kl) eqn:Tk.
  - rewrite RK.
    exists (mkTopic (uuid n) ti ks no la li ma), nk. split.
    + cbn [erase_ids]. now rewrite EK.
    + destruct (_parse_md_items uuid rest nk) as [items n3]. cbn [fst snd].
      destruct (truthy (note_texts no));
        [rewrite TJ | rewrite <- TJ]; reflexivity.
  - assert (kl = []) by (destruct kl; [reflexivity | discriminate]).
    assert (ch = []) by (now apply (forest_lines_nil (S d))). subst ch.
    exists (mkTopic (uuid n) ti [] no la li ma), (S n). split; [reflexivity|].
    destruct (_parse_md_items uuid rest (S n)) as [items n3]. cbn [fst snd].
    destruct (truthy (note_texts no));
      [rewrite TJ | rewrite <- TJ]; reflexivity.
Qed.

Lemma forest_parse : forall ts, forest_reads_back ts.
Proof.
  intros ts. apply forest_from_topics. apply Forall_forall. intros t _.
  apply topic_reads_back.
Qed.

End BulletRoundTrip.

(** ** The root of a sheet *)

Lemma format_meta_block_lines : forall i ti ch no la li ma,
  _format_meta_block (mkTopic i ti ch no la li ma) = join [NL] (meta_lines la li ma no).
Proof.
  intros. unfold _format_meta_block, meta_lines, note_texts.
  cbn [topic_labels topic_link topic_markers topic_notes].
  destruct (truthy la), (truthy li), (truthy ma), (truthy no);
    cbn [app map]; rewrite ?app_nil_r; reflexivity.
Qed.

Lemma meta_lines_quoted : forall la li ma no l,
  In l (meta_lines la li ma no) -> exists r, l = 62 :: r.
Proof.
  intros la li ma no l H. unfold meta_lines in H.
  repeat (apply in_app_or in H; destruct H as [H|H]).
  - destruct (truthy la); [|contradiction]. destruct H as [<-|[]]. eexists. reflexivity.
  - destruct (truthy li); [|contradiction]. destruct H as [<-|[]]. eexists. reflexivity.
  - destruct (truthy ma); [|contradiction]. destruct H as [<-|[]]. eexists. reflexivity.
  - apply in_map_iff in H. destruct H as [t [<- _]]. eexists. reflexivity.
Qed.

Lemma drop_while_app_stop : forall p a c,
  p c = false -> drop_while p (a ++ [c]) = drop_while p a ++ [c].
Proof.
  intros p a c H. induction a as [|x a IH]; cbn [app drop_while].
  - now rewrite H.
  - destruct (p x); [exact IH | reflexivity].
Qed.

Lemma rstrip_cons : forall c r, is_space c = false -> rstrip (c :: r) = c :: rstrip r.
Proof.
  intros c r H. unfold rstrip. cbn [rev]. rewrite drop_while_app_stop by assumption.
  rewrite rev_app_distr. reflexivity.
Qed.

Lemma strip_cons : forall c r, is_space c = false -> strip (c :: r) = c :: rstrip r.
Proof.
  intros c r H. unfold strip, lstrip. cbn [drop_while]. rewrite H. now apply rstrip_cons.
Qed.

(** ** Scanning the lines of a sheet block *)

Lemma scan_blank : forall st,
  is_body (scan_phase st) = false -> block_step st [] = st.
Proof. intros [a b c d p] H. destruct p; try reflexivity. discriminate. Qed.

Lemma scan_meta : forall M a b meta,
  (forall l, In l M -> exists r, l = 62 :: r) ->
  fold_left block_step M (mkScan a b meta [] PRootMeta)
  = mkScan a b (meta ++ map strip M) [] PRootMeta.
Proof.
  induction M as [|m M IH]; intros a b meta H.
  - cbn [fold_left map]. now rewrite app_nil_r.
  - destruct (H m (or_introl eq_refl)) as [r ->].
    cbn [fold_left]. unfold block_step at 2.
    rewrite strip_cons by reflexivity. change (u ">") with [62].
    cbn [truthy negb startswith].
    change (62 =? 62) with true. rewrite startswith_nil. cbn [andb].
    rewrite IH by (intros; apply H; right; assumption).
    cbn [map]. rewrite strip_cons by reflexivity. now rewrite <- app_assoc.
Qed.

Lemma scan_body : forall ls a b meta body,
  fold_left block_step ls (mkScan a b meta body PBody)
  = mkScan a b meta (body ++ ls) PBody.
Proof.
  induction ls as [|l ls IH]; intros a b meta body.
  - cbn [fold_left]. now rewrite app_nil_r.
  - cbn [fold_left].
    assert (E : block_step (mkScan a b meta body PBody) l
                = mkScan a b meta (body ++ [l]) PBody).
    { unfold block_step. destruct (truthy (strip l)); reflexivity. }
    rewrite E, IH. now rewrite <- app_assoc.
Qed.

(** The bullet lines after the root meta open the body. *)
Lemma scan_bullets : forall C a b meta,
  (C = [] \/ exists body more, C = (u "- " ++ body) :: more) ->
  fold_left block_step C (mkScan a b meta [] PRootMeta)
  = mkScan a b meta C (if truthy C then PBody else PRootMeta).
Proof.
  intros C a b meta [-> | [body [more ->]]]; [reflexivity|].
  cbn [fold_left truthy]. unfold block_step at 2.
  change (u "- " ++ body) with (45 :: 32 :: body).
  rewrite strip_cons by reflexivity. change (u ">") with [62].
  cbn [truthy negb startswith].
  change (62 =? 45) with false. cbn [andb app].
  apply scan_body.
Qed.

Lemma sheet_heading_read : forall T,
  text_ok T = true ->
  truthy (strip (u "# Sheet: " ++ T)) = true
  /\ startswith (strip (u "# Sheet: " ++ T)) (u "# Sheet:") = true
  /\ strip (skipn 8 (strip (u "# Sheet: " ++ T))) = T.
Proof.
  intros T H. unfold text_ok in H. apply andb_prop in H. destruct H as [Ht _].
  destruct T as [|c T].
  - repeat split.
  - assert (E : strip (u "# Sheet: " ++ c :: T) = u "# Sheet: " ++ c :: T).
    { apply strip_trimmed. unfold trimmed in *. apply andb_prop in Ht.
      destruct Ht as [_ He]. apply trimmed_app; try discriminate; try reflexivity.
      exact He. }
    rewrite E. split; [reflexivity | split].
    + change (u "# Sheet: " ++ c :: T) with (u "# Sheet:" ++ 32 :: c :: T).
      apply startswith_app.
    + change (skipn 8 (u "# Sheet: " ++ c :: T)) with ([32] ++ (c :: T)).
      pose proof (strip_pad [32] (c :: T) [] eq_refl eq_refl Ht) as P.
      rewrite app_nil_r in P. exact P.
Qed.

Lemma root_heading_read : forall R,
  R <> [] -> text_ok R = true ->
  truthy (strip (u "## " ++ R)) = true
  /\ startswith (strip (u "## " ++ R)) (u "## ") = true
  /\ strip (skipn 3 (strip (u "## " ++ R))) = R.
Proof.
  intros R Hne H. unfold text_ok in H. apply andb_prop in H. destruct H as [Ht _].
  assert (E : strip (u "## " ++ R) = u "## " ++ R).
  { apply strip_trimmed. unfold trimmed in *. apply andb_prop in Ht.
    destruct Ht as [_ He]. apply trimmed_app; try discriminate; try reflexivity;
      assumption. }
  rewrite E. split; [reflexivity | split].
  - apply startswith_app.
  - change (skipn 3 (u "## " ++ R)) with R. now apply strip_trimmed.
Qed.

(** The heading lines of a sheet block. *)
Lemma scan_headings : forall T R,
  text_ok T = true -> R <> [] -> text_ok R = true ->
  fold_left block_step [u "# Sheet: " ++ T; []; []; u "## " ++ R]
            (mkScan (u "Sheet 1") [] [] [] PInit)
  = mkScan T R [] [] PRootMeta.
Proof.
  intros T R HT HR HR'.
  destruct (sheet_heading_read T HT) as [A1 [A2 A3]].
  destruct (root_heading_read R HR HR') as [B1 [B2 B3]].
  cbn [fold_left].
  assert (E1 : block_step (mkScan (u "Sheet 1") [] [] [] PInit) (u "# Sheet: " ++ T)
               = mkScan T [] [] [] PAfterSheet).
  { unfold block_step. rewrite A1, A2, A3. reflexivity. }
  rewrite E1. rewrite !scan_blank by reflexivity.
  unfold block_step. rewrite B1, B2, B3. reflexivity.
Qed.

(** ** Reading the root meta lines back *)

Lemma text_ok_parts : forall s, text_ok s = true -> trimmed s = true /\ one_line s = true.
Proof. intros s H. unfold text_ok in H. apply andb_prop in H. exact H. Qed.

Lemma trimmed_parts : forall s,
  trimmed s = true -> starts_clean s = true /\ ends_clean s = true.
Proof. intros s H. unfold trimmed in H. apply andb_prop in H. exact H. Qed.

Lemma meta_step_labels : forall t np la,
  la <> [] -> forallb item_ok la = true ->
  meta_step (t, np) (strip (u "> Labels: " ++ join (u ", ") la)) = (set_labels t la, np).
Proof.
  intros t np la Hne H.
  destruct (join_items_trimmed la Hne H) as [T N].
  destruct (trimmed_parts _ T) as [_ E].
  rewrite strip_trimmed by (apply trimmed_app; try discriminate; try reflexivity; assumption).
  unfold meta_step.
  change (re_sub_quote (u "> Labels: " ++ join (u ", ") la))
    with (u "Labels:" ++ [32] ++ join (u ", ") la).
  rewrite startswith_app.
  change (skipn 7 (u "Labels:" ++ [32] ++ join (u ", ") la))
    with ([32] ++ join (u ", ") la).
  rewrite comma_list_join by (assumption || reflexivity). reflexivity.
Qed.

Lemma meta_step_markers : forall t np ma,
  ma <> [] -> forallb item_ok ma = true ->
  meta_step (t, np) (strip (u "> Markers: " ++ join (u ", ") ma)) = (set_markers t ma, np).
Proof.
  intros t np ma Hne H.
  destruct (join_items_trimmed ma Hne H) as [T N].
  destruct (trimmed_parts _ T) as [_ E].
  rewrite strip_trimmed by (apply trimmed_app; try discriminate; try reflexivity; assumption).
  unfold meta_step.
  change (re_sub_quote (u "> Markers: " ++ join (u ", ") ma))
    with (u "Markers:" ++ [32] ++ join (u ", ") ma).
  change (startswith (u "Markers:" ++ [32] ++ join (u ", ") ma) (u "Labels:")) with false.
  change (startswith (u "Markers:" ++ [32] ++ join (u ", ") ma) (u "Link:")) with false.
  rewrite startswith_app. cbv iota.
  change (skipn 8 (u "Markers:" ++ [32] ++ join (u ", ") ma))
    with ([32] ++ join (u ", ") ma).
  rewrite comma_list_join by (assumption || reflexivity). reflexivity.
Qed.

Lemma meta_step_link : forall t np li,
  li <> [] -> text_ok li = true ->
  meta_step (t, np) (strip (u "> Link: " ++ li)) = (set_link t li, np).
Proof.
  intros t np li Hne H.
  destruct (text_ok_parts _ H) as [T _]. destruct (trimmed_parts _ T) as [_ E].
  rewrite strip_trimmed by (apply trimmed_app; try discriminate; try reflexivity; assumption).
  unfold meta_step.
  change (re_sub_quote (u "> Link: " ++ li)) with (u "Link:" ++ [32] ++ li).
  change (startswith (u "Link:" ++ [32] ++ li) (u "Labels:")) with false.
  rewrite startswith_app. cbv iota.
  change (skipn 5 (u "Link:" ++ [32] ++ li)) with ([32] ++ li).
  pose proof (strip_pad [32] li [] eq_refl eq_refl T) as P.
  rewrite app_nil_r in P. now rewrite P.
Qed.

Lemma quoted_note_read : forall t,
  trimmed t = true -> re_sub_quote (strip (u "> " ++ t)) = t.
Proof.
  intros [|c t] H; [reflexivity|].
  destruct (trimmed_parts _ H) as [S E].
  rewrite strip_trimmed by (apply trimmed_app; try discriminate; try reflexivity; assumption).
  change (re_sub_quote (u "> " ++ c :: t)) with (drop_while is_space (32 :: c :: t)).
  cbn [drop_while]. change (is_space 32) with true. cbv iota.
  cbn [starts_clean] in S. apply negb_true_iff in S. now rewrite S.
Qed.

Lemma meta_step_note : forall tp np t,
  root_note_ok t = true ->
  meta_step (tp, np) (strip (u "> " ++ t)) = (tp, np ++ [t]).
Proof.
  intros tp np t H. unfold root_note_ok in H.
  apply andb_prop in H. destruct H as [H H3].
  apply andb_prop in H. destruct H as [H H2].
  apply andb_prop in H. destruct H as [H0 H1].
  apply negb_true_iff in H1, H2, H3.
  unfold meta_step. rewrite (quoted_note_read t H0). rewrite H1, H2, H3.
  reflexivity.
Qed.

Lemma meta_notes_fold : forall texts tp np,
  forallb root_note_ok texts = true ->
  fold_left meta_step (map strip (map (fun nl => u "> " ++ nl) texts)) (tp, np)
  = (tp, np ++ texts).
Proof.
  induction texts as [|t texts IH]; intros tp np H.
  - cbn [map fold_left]. now rewrite app_nil_r.
  - cbn [forallb] in H. apply andb_prop in H. destruct H as [Ht H].
    cbn [map fold_left]. rewrite meta_step_note by assumption.
    rewrite IH by assumption. now rewrite <- app_assoc.
Qed.

Lemma apply_block_meta_encoded : forall i R la li ma no,
  forallb item_ok la = true -> text_ok li = true -> forallb item_ok ma = true ->
  notes_ok no = true -> forallb root_note_ok (note_texts no) = true ->
  _apply_block_meta (mkTopic i R [] [] [] [] [])
                    (map strip (meta_lines la li ma no))
  = mkTopic i R [] no la li ma.
Proof.
  intros i R la li ma no Hla Hli Hma Hno Hr.
  destruct (note_texts_facts no 0 Hno) as [_ [TJ _]].
  unfold _apply_block_meta, meta_lines.
  rewrite !map_app, !fold_left_app.
  set (t0 := mkTopic i R [] [] [] [] []).
  assert (E1 : fold_left meta_step
                 (map strip (if truthy la then [u "> Labels: " ++ join (u ", ") la] else []))
                 (t0, [])
               = (mkTopic i R [] [] la [] [], [])).
  { destruct la as [|l la]; [reflexivity|]. cbn [truthy map fold_left].
    rewrite meta_step_labels by (assumption || discriminate). reflexivity. }
  rewrite E1.
  assert (E2 : fold_left meta_step
                 (map strip (if truthy li then [u "> Link: " ++ li] else []))
                 (mkTopic i R [] [] la [] [], [])
               = (mkTopic i R [] [] la li [], [])).
  { destruct li as [|c li]; [reflexivity|]. cbn [truthy map fold_left].
    rewrite meta_step_link by (assumption || discriminate). reflexivity. }
  rewrite E2.
  assert (E3 : fold_left meta_step
                 (map strip (if truthy ma then [u "> Markers: " ++ join (u ", ") ma] else []))
                 (mkTopic i R [] [] la li [], [])
               = (mkTopic i R [] [] la li ma, [])).
  { destruct ma as [|m ma]; [reflexivity|]. cbn [truthy map fold_left].
    rewrite meta_step_markers by (assumption || discriminate). reflexivity. }
  rewrite E3. rewrite meta_notes_fold by assumption. cbn [app].
  destruct (truthy (note_texts no)); [rewrite TJ | rewrite <- TJ]; reflexivity.
Qed.

(** ** The lines of a sheet block, without the blank lines at its end *)

Lemma fold_left_cons : forall (A B : Type) (f : A -> B -> A) x l a,
  fold_left f (x :: l) a = fold_left f l (f a x).
Proof. reflexivity. Qed.

Lemma scan_core : forall T R M C,
  text_ok T = true -> R <> [] -> text_ok R = true ->
  (forall l, In l M -> exists r, l = 62 :: r) ->
  (C = [] \/ exists body more, C = (u "- " ++ body) :: more) ->
  scan_root_title (scan_block (sheet_core T R M C)) = R
  /\ scan_sheet_title (scan_block (sheet_core T R M C)) = T
  /\ scan_root_meta (scan_block (sheet_core T R M C)) = map strip M
  /\ scan_body_lines (scan_block (sheet_core T R M C)) = C.
Proof.
  intros T R M C HT HR HR' HM HC. unfold scan_block, sheet_core.
  rewrite fold_left_app. rewrite scan_headings by assumption.
  destruct (truthy M || truthy C) eqn:E.
  - rewrite (fold_left_cons _ _ block_step). rewrite scan_blank by reflexivity.
    rewrite fold_left_app. rewrite scan_meta by assumption. cbn [app].
    destruct (truthy C) eqn:TC.
    + rewrite (fold_left_cons _ _ block_step). rewrite scan_blank by reflexivity.
      rewrite scan_bullets by assumption. repeat split.
    + destruct C; [|discriminate]. repeat split.
  - apply orb_false_iff in E. destruct E as [EM EC].
    destruct M; [|discriminate]. destruct C; [|discriminate]. repeat split.
Qed.

(** ** Lines that cannot be taken for the sheet separator *)

Lemma calm_one_line : forall ls,
  Forall (fun l => calm l = true) ls -> Forall (fun l => one_line l = true) ls.
Proof.
  intros ls H. apply Forall_forall. intros l Hl. rewrite Forall_forall in H.
  specialize (H l Hl). unfold calm in H. apply andb_prop in H. tauto.
Qed.

Lemma spaces_one_line : forall n, one_line (spaces n) = true.
Proof. induction n as [|n IH]; [reflexivity | exact IH]. Qed.

Lemma indented_calm : forall n c rest,
  c <> 45 -> one_line (c :: rest) = true -> calm (spaces n ++ 45 :: c :: rest) = true
  /\ calm (spaces (S n) ++ c :: rest) = true.
Proof.
  intros n c rest Hc Hl.
  assert (E : (45 =? c) = false) by (apply N.eqb_neq; congruence).
  split; unfold calm; rewrite one_line_app, spaces_one_line.
  - change (one_line (45 :: c :: rest)) with (one_line (c :: rest)). rewrite Hl.
    destruct n as [|n]; [cbn [spaces repeat app startswith]; change (u "--") with [45; 45];
                         cbn [startswith]; rewrite E; now rewrite andb_false_r|].
    reflexivity.
  - rewrite Hl. reflexivity.
Qed.

Lemma bullet_line_calm : forall n ti la li ma,
  ti <> [] -> one_line ti = true ->
  forallb tag_item_ok la = true -> tag_text_ok li = true ->
  forallb tag_item_ok ma = true ->
  calm (bullet_line n ti la li ma) = true.
Proof.
  intros n ti la li ma Hne Hl Hla Hli Hma.
  destruct (bullet_body_facts ti la li ma Hne Hl Hla Hli Hma) as [_ B].
  unfold bullet_line. change (u "- " ++ ?x) with (45 :: 32 :: x).
  apply indented_calm; [discriminate | exact B].
Qed.

Lemma quoted_line_calm : forall n t,
  one_line t = true -> calm (spaces (n + 2) ++ u "> " ++ t) = true.
Proof.
  intros n t H. rewrite Nat.add_comm. change (u "> " ++ t) with (62 :: 32 :: t).
  apply (indented_calm (S n) 62 (32 :: t)); [discriminate | exact H].
Qed.

Lemma topic_lines_calm : forall t d,
  bullet_ok t = true -> Forall (fun l => calm l = true) (topic_lines d t).
Proof.
  induction t as [i ti ch no la li ma IH] using Topic_forest_ind. intros d Hok.
  destruct (bullet_ok_parts _ _ _ _ _ _ _ Hok)
    as [Hne [Htr [Hol [Hbr [Hla [Hli [Hma [Hno Hch]]]]]]]].
  cbn [topic_lines]. constructor; [now apply bullet_line_calm|].
  apply Forall_app. split.
  - destruct (note_texts_facts no (2 * d) Hno) as [F [_ Q]]. rewrite Q.
    apply Forall_forall. intros x Hx. apply in_map_iff in Hx.
    destruct Hx as [t [<- Ht]]. rewrite Forall_forall in F.
    apply quoted_line_calm. now apply F.
  - apply Forall_forall. intros x Hx. apply in_flat_map in Hx.
    destruct Hx as [c [Hc1 Hc2]]. rewrite Forall_forall in IH.
    rewrite forallb_forall in Hch.
    specialize (IH c Hc1 (S d) (Hch c Hc1)).
    rewrite Forall_forall in IH. now apply IH.
Qed.

Lemma forest_lines_calm : forall ts d,
  forallb bullet_ok ts = true ->
  Forall (fun l => calm l = true) (flat_map (topic_lines d) ts).
Proof.
  intros ts d H. apply Forall_forall. intros x Hx. apply in_flat_map in Hx.
  destruct Hx as [c [Hc1 Hc2]]. rewrite forallb_forall in H.
  pose proof (topic_lines_calm c d (H c Hc1)) as F.
  rewrite Forall_forall in F. now apply F.
Qed.

Lemma root_ok_parts : forall i ti ch no la li ma,
  root_ok (mkTopic i ti ch no la li ma) = true ->
  ti <> [] /\ text_ok ti = true
  /\ forallb item_ok la = true /\ text_ok li = true
  /\ forallb item_ok ma = true /\ notes_ok no = true
  /\ forallb root_note_ok (note_texts no) = true
  /\ forallb bullet_ok ch = true.
Proof.
  intros i ti ch no la li ma H. cbn [root_ok] in H.
  repeat (apply andb_prop in H; destruct H as [H ?]).
  repeat split; try assumption. intros ->. discriminate.
Qed.

Lemma items_one_line : forall items,
  forallb item_ok items = true -> one_line (join (u ", ") items) = true.
Proof.
  intros items H. apply join_one_line. rewrite forallb_forall in *.
  intros x Hx. apply item_ok_one_line. now apply H.
Qed.

Lemma meta_lines_calm : forall la li ma no,
  forallb item_ok la = true -> text_ok li = true -> forallb item_ok ma = true ->
  notes_ok no = true ->
  Forall (fun l => calm l = true) (meta_lines la li ma no).
Proof.
  intros la li ma no Hla Hli Hma Hno.
  destruct (text_ok_parts _ Hli) as [_ Oli].
  destruct (note_texts_facts no 0 Hno) as [F _].
  assert (Q : forall rest, one_line rest = true -> calm (62 :: rest) = true).
  { intros rest Hr. unfold calm. change (one_line (62 :: rest)) with (one_line rest).
    now rewrite Hr. }
  unfold meta_lines.
  apply Forall_app; split; [|apply Forall_app; split; [|apply Forall_app; split]].
  - destruct (truthy la); constructor; [|constructor].
    change (u "> Labels: " ++ join (u ", ") la)
      with (62 :: (u " Labels: " ++ join (u ", ") la)).
    apply Q. rewrite one_line_app. now rewrite items_one_line.
  - destruct (truthy li); constructor; [|constructor].
    change (u "> Link: " ++ li) with (62 :: (u " Link: " ++ li)).
    apply Q. rewrite one_line_app. now rewrite Oli.
  - destruct (truthy ma); constructor; [|constructor].
    change (u "> Markers: " ++ join (u ", ") ma)
      with (62 :: (u " Markers: " ++ join (u ", ") ma)).
    apply Q. rewrite one_line_app. now rewrite items_one_line.
  - apply Forall_forall. intros x Hx. apply in_map_iff in Hx.
    destruct Hx as [t [<- Ht]]. rewrite Forall_forall in F.
    change (u "> " ++ t) with (62 :: 32 :: t). apply Q. exact (F t Ht).
Qed.

Lemma sheet_core_calm : forall T R M C,
  one_line T = true -> one_line R = true ->
  Forall (fun l => calm l = true) M -> Forall (fun l => calm l = true) C ->
  Forall (fun l => calm l = true) (sheet_core T R M C).
Proof.
  intros T R M C HT HR HM HC. unfold sheet_core.
  assert (H1 : calm (u "# Sheet: " ++ T) = true).
  { unfold calm. rewrite one_line_app, HT. reflexivity. }
  assert (H2 : calm (u "## " ++ R) = true).
  { unfold calm. rewrite one_line_app, HR. reflexivity. }
  repeat constructor; try assumption.
  destruct (truthy M || truthy C); [|constructor].
  constructor; [reflexivity|]. apply Forall_app. split; [assumption|].
  destruct (truthy C); [|constructor]. constructor; [reflexivity | assumption].
Qed.

Lemma bullets_start : forall ts,
  flat_map (topic_lines 0) ts = []
  \/ exists body more, flat_map (topic_lines 0) ts = (u "- " ++ body) :: more.
Proof.
  intros [|[i ti ch no la li ma] ts]; [left; reflexivity|]. right.
  cbn [flat_map topic_lines app]. eexists. eexists. reflexivity.
Qed.

Section SheetBlock.
Variable uuid : IdGen.

(** Decoding the core lines of an encoded sheet. *)
Lemma parse_sheet_block_core : forall sid T i R ch no la li ma n,
  text_ok T = true -> root_ok (mkTopic i R ch no la li ma) = true ->
  exists s' n',
    _parse_sheet_block uuid
      (join [NL] (sheet_core T R (meta_lines la li ma no) (flat_map (topic_lines 0) ch))) n
    = (Some s', n')
    /\ erase_sheet s' = erase_sheet (mkSheet sid T (Some (mkTopic i R ch no la li ma))).
Proof.
  intros sid T i R ch no la li ma n HT Hroot.
  destruct (root_ok_parts _ _ _ _ _ _ _ Hroot)
    as [HR [HR' [Hla [Hli [Hma [Hno [Hrn Hch]]]]]]].
  destruct (text_ok_parts _ HT) as [_ OT]. destruct (text_ok_parts _ HR') as [_ OR].
  set (M := meta_lines la li ma no). set (C := flat_map (topic_lines 0) ch).
  assert (CM : Forall (fun l => calm l = true) M) by (now apply meta_lines_calm).
  assert (CC : Forall (fun l => calm l = true) C) by (now apply forest_lines_calm).
  pose proof (sheet_core_calm T R M C OT OR CM CC) as Calm.
  destruct (scan_core T R M C HT HR HR'
              (meta_lines_quoted la li ma no) (bullets_start ch)) as [S1 [S2 [S3 S4]]].
  unfold _parse_sheet_block.
  rewrite split_char_join;
    [| unfold sheet_core; discriminate | apply calm_one_line; exact Calm].
  rewrite S1, S2, S3, S4.
  rewrite (truthy_nonempty _ R HR). cbn [negb andb new_sheet new_topic].
  unfold M. rewrite apply_block_meta_encoded by assumption.
  destruct (forest_parse uuid ch Hch 0%nat [] (S (S n)) (or_introl eq_refl))
    as [ks [nk [EK RK]]].
  rewrite app_nil_r in RK. fold C in RK.
  change (_parse_md_items uuid [] nk) with (@nil Topic, nk) in RK.
  cbn [fst snd] in RK. rewrite app_nil_r in RK.
  destruct (truthy C) eqn:TC.
  - rewrite RK. eexists. eexists. split; [reflexivity|].
    unfold erase_sheet. cbn [sheet_title root_topic option_map sheet_id set_children erase_ids].
    now rewrite EK.
  - assert (C = []) by (destruct C; [reflexivity | discriminate]).
    assert (ch = []) by (now apply (forest_lines_nil 0)). subst ch.
    eexists. eexists. split; reflexivity.
Qed.

End SheetBlock.

(** ** Splitting the text into sheet blocks *)

Lemma split_lit_nonempty : forall sep s k, split_lit sep k s <> [].
Proof.
  intros sep. induction s as [|c s IH]; intros k; cbn [split_lit]; [discriminate|].
  destruct k as [|k]; [|apply IH].
  destruct (startswith (c :: s) sep); [discriminate|].
  specialize (IH 0%nat). destruct (split_lit sep 0 s); [congruence | discriminate].
Qed.

Lemma split_lit_skip : forall sep pre y,
  split_lit sep (length pre) (pre ++ y) = split_lit sep 0 y.
Proof.
  intros sep. induction pre as [|c pre IH]; intros y; [reflexivity|].
  cbn [length app split_lit]. apply IH.
Qed.

Lemma prepend_prepend : forall a b X,
  X <> [] -> prepend a (prepend b X) = prepend (a ++ b) X.
Proof. intros a b [|h t] H; [congruence|]. cbn [prepend]. now rewrite app_assoc. Qed.

Lemma cons_head_prepend : forall c X, X <> [] -> cons_head c X = prepend [c] X.
Proof. intros c [|h t] H; [congruence | reflexivity]. Qed.

Lemma prepend_nonempty : forall a X, prepend a X <> [].
Proof. intros a [|h t]; discriminate. Qed.

Lemma split_lit_line : forall l z,
  one_line l = true ->
  split_lit block_sep 0 (l ++ z) = prepend l (split_lit block_sep 0 z).
Proof.
  induction l as [|c l IH]; intros z H.
  - cbn [app]. pose proof (split_lit_nonempty block_sep z 0%nat) as N.
    destruct (split_lit block_sep 0 z); [congruence | reflexivity].
  - cbn [one_line forallb] in H. apply andb_prop in H. destruct H as [Hc H].
    unfold not_newline in Hc. apply negb_true_iff in Hc.
    cbn [app split_lit].
    assert (E : startswith (c :: l ++ z) block_sep = false).
    { change block_sep with (NL :: u "---" ++ [NL]). cbn [startswith].
      rewrite N.eqb_sym, Hc. reflexivity. }
    rewrite E. rewrite (IH z H).
    pose proof (split_lit_nonempty block_sep z 0%nat) as N.
    destruct (split_lit block_sep 0 z); [congruence | reflexivity].
Qed.

(** After a newline, a calm line is not the rule of the separator. *)
Lemma no_rule : forall l t,
  calm l = true -> (t = [] \/ exists t', t = NL :: t') ->
  startswith (l ++ t) (u "---" ++ [NL]) = false.
Proof.
  intros l t H Ht. unfold calm in H. apply andb_prop in H. destruct H as [_ H].
  apply negb_true_iff in H. change (u "---" ++ [NL]) with [45; 45; 45; NL].
  change (u "--") with [45; 45] in H.
  destruct l as [|c1 l].
  - destruct Ht as [-> | [t' ->]]; reflexivity.
  - cbn [app startswith]. destruct (45 =? c1) eqn:E1; [|reflexivity]. cbn [andb].
    destruct l as [|c2 l].
    + destruct Ht as [-> | [t' ->]]; reflexivity.
    + cbn [app startswith]. cbn [startswith] in H. rewrite E1 in H. cbn [andb] in H.
      destruct (45 =? c2) eqn:E2; [|reflexivity].
      cbn [andb] in H. rewrite startswith_nil in H. discriminate.
Qed.

Lemma join_head : forall l L tail,
  (tail = [] \/ exists t', tail = NL :: t') ->
  exists t, join [NL] (l :: L) ++ tail = l ++ t /\ (t = [] \/ exists t', t = NL :: t').
Proof.
  intros l [|l2 L] tail H.
  - exists tail. split; [reflexivity | assumption].
  - rewrite join_cons. exists ([NL] ++ join [NL] (l2 :: L) ++ tail). split.
    + now rewrite <- !app_assoc.
    + right. eexists. reflexivity.
Qed.

Lemma split_lit_calm : forall L tail,
  L <> [] -> Forall (fun l => calm l = true) L ->
  (tail = [] \/ exists t', tail = NL :: t') ->
  split_lit block_sep 0 (join [NL] L ++ tail)
  = prepend (join [NL] L) (split_lit block_sep 0 tail).
Proof.
  induction L as [|l L IH]; intros tail Hne HL Ht; [congruence|].
  inversion HL as [|? ? Hl HL']; subst.
  assert (Ol : one_line l = true) by (unfold calm in Hl; apply andb_prop in Hl; tauto).
  destruct L as [|l2 L].
  - cbn [join]. now apply split_lit_line.
  - rewrite join_cons. rewrite <- !app_assoc. rewrite split_lit_line by assumption.
    cbn [app split_lit].
    destruct (join_head l2 L tail Ht) as [t [E Et]].
    inversion HL' as [|? ? Hl2 _]; subst.
    assert (F : startswith (NL :: join [NL] (l2 :: L) ++ tail) block_sep = false).
    { change block_sep with (NL :: u "---" ++ [NL]). cbn [startswith].
      rewrite N.eqb_refl. cbn [andb]. rewrite E. now apply no_rule. }
    rewrite F. rewrite IH by (assumption || discriminate).
    rewrite cons_head_prepend by apply prepend_nonempty.
    rewrite !prepend_prepend by (apply split_lit_nonempty || apply prepend_nonempty).
    rewrite <- !app_assoc. reflexivity.
Qed.

Lemma split_lit_at_sep : forall y,
  split_lit block_sep 0 (block_sep ++ y) = [] :: split_lit block_sep 0 y.
Proof.
  intros y. change (block_sep ++ y) with (NL :: (u "---" ++ [NL]) ++ y).
  cbn [split_lit].
  change (NL :: (u "---" ++ [NL]) ++ y) with (block_sep ++ y).
  rewrite startswith_app. reflexivity.
Qed.

(** ** Blank lines around a block *)

Lemma join_pad : forall a b L,
  L <> [] ->
  join [NL] (repeat [] a ++ L ++ repeat [] b) = repeat NL a ++ join [NL] L ++ repeat NL b.
Proof.
  intros a b L HL.
  assert (B : join [NL] (L ++ repeat [] b) = join [NL] L ++ repeat NL b).
  { induction b as [|b IH]; cbn [repeat].
    - now rewrite !app_nil_r.
    - change ([] :: repeat [] b) with (@nil N :: repeat [] b).
      replace (L ++ [] :: repeat [] b) with ((L ++ repeat [] b) ++ [[]]).
      + rewrite join_app; [| destruct L; [congruence | discriminate] | discriminate].
        rewrite IH. cbn [join]. rewrite app_nil_r, <- app_assoc. f_equal.
        clear. induction b as [|b IH]; [reflexivity|]. cbn [repeat app]. now rewrite IH.
      + rewrite <- app_assoc. f_equal.
        clear. induction b as [|b IH]; [reflexivity|]. cbn [repeat app]. now rewrite IH. }
  induction a as [|a IH]; cbn [repeat app]; [exact B|].
  destruct (repeat [] a ++ L ++ repeat [] b) as [|x r] eqn:E.
  - apply app_eq_nil in E. destruct E as [_ E]. apply app_eq_nil in E.
    destruct E; congruence.
  - rewrite join_cons. rewrite IH. reflexivity.
Qed.

Lemma newlines_are_space : forall k, forallb is_space (repeat NL k) = true.
Proof. induction k as [|k IH]; [reflexivity | exact IH]. Qed.

Lemma good_end_parts : forall l, good_end l = true -> l <> [] /\ ends_clean l = true.
Proof.
  intros l H. unfold good_end in H. apply andb_prop in H. destruct H as [H1 H2].
  split; [intros ->; discriminate | assumption].
Qed.

Lemma ends_clean_join : forall L l,
  good_end l = true -> ends_clean (join [NL] (L ++ [l])) = true.
Proof.
  intros L l H. destruct (good_end_parts l H) as [Hne He].
  destruct L as [|x L]; [exact He|].
  rewrite join_app by discriminate. cbn [join]. rewrite app_assoc.
  now rewrite ends_clean_app.
Qed.

Lemma good_end_app : forall a b, good_end b = true -> good_end (a ++ b) = true.
Proof.
  intros a b H. destruct (good_end_parts b H) as [Hne He]. unfold good_end.
  rewrite ends_clean_app, He by assumption.
  destruct a; [cbn [app]; now rewrite (truthy_nonempty _ b Hne) | reflexivity].
Qed.

Lemma last_good : forall X : list str,
  X <> [] -> Forall (fun l => good_end l = true) X ->
  exists init l, X = init ++ [l] /\ good_end l = true.
Proof.
  intros X Hne H. destruct (exists_last Hne) as [init [l ->]].
  exists init, l. split; [reflexivity|].
  apply Forall_app in H. destruct H as [_ H]. now inversion H.
Qed.

(** The last note text of non-empty notes. *)
Lemma last_text_good : forall notes,
  notes_ok notes = true -> notes <> [] ->
  exists init t, note_texts notes = init ++ [t] /\ good_end t = true.
Proof.
  intros notes Hok Hne. pose proof Hok as Hok'.
  unfold notes_ok in Hok. apply andb_prop in Hok. destruct Hok as [Hp He].
  destruct (note_texts_facts notes 0 Hok') as [_ [TJ _]].
  assert (Tn : note_texts notes <> []).
  { unfold note_texts. rewrite (truthy_nonempty _ notes Hne).
    rewrite splitlines_plain by assumption. apply split_char_nonempty. }
  rewrite (truthy_nonempty _ _ Tn) in TJ.
  destruct (exists_last Tn) as [init [t E]]. exists init, t. split; [exact E|].
  rewrite E in TJ. unfold good_end.
  destruct t as [|c t].
  - exfalso. destruct init as [|x init].
    + cbn [app join] in TJ. congruence.
    + rewrite join_app in TJ by discriminate. cbn [join] in TJ.
      rewrite app_nil_r in TJ. rewrite <- TJ in He.
      rewrite ends_clean_app in He by discriminate. discriminate.
  - cbn [truthy andb]. destruct init as [|x init].
    + cbn [app join] in TJ. now rewrite TJ.
    + rewrite join_app in TJ by discriminate. cbn [join] in TJ.
      rewrite app_assoc in TJ. rewrite <- TJ in He.
      now rewrite ends_clean_app in He by discriminate.
Qed.

(** ** The last line of an encoded sheet *)

Lemma trimmed_good : forall s, s <> [] -> trimmed s = true -> good_end s = true.
Proof.
  intros s Hne H. destruct (trimmed_parts s H) as [_ E]. unfold good_end.
  now rewrite (truthy_nonempty _ s Hne), E.
Qed.

Lemma opt_frag_good : forall k v, good_end (opt_frag k v true) = true.
Proof.
  intros k v. unfold opt_frag, tag. do 5 apply good_end_app. reflexivity.
Qed.

Lemma bullet_line_good : forall n ti la li ma,
  ti <> [] -> trimmed ti = true -> good_end (bullet_line n ti la li ma) = true.
Proof.
  intros n ti la li ma Hne Ht. unfold bullet_line.
  do 2 apply good_end_app.
  destruct (truthy ma).
  - do 3 apply good_end_app. apply opt_frag_good.
  - cbn [opt_frag]. rewrite app_nil_r. destruct (truthy li).
    + do 2 apply good_end_app. apply opt_frag_good.
    + cbn [opt_frag]. rewrite app_nil_r. destruct (truthy la).
      * apply good_end_app. apply opt_frag_good.
      * cbn [opt_frag]. rewrite app_nil_r. now apply trimmed_good.
Qed.

Lemma topic_lines_last : forall t d,
  bullet_ok t = true ->
  exists init l, topic_lines d t = init ++ [l] /\ good_end l = true.
Proof.
  induction t as [i ti ch no la li ma IH] using Topic_forest_ind. intros d Hok.
  destruct (bullet_ok_parts _ _ _ _ _ _ _ Hok)
    as [Hne [Htr [Hol [Hbr [Hla [Hli [Hma [Hno Hch]]]]]]]].
  cbn [topic_lines].
  destruct ch as [|c0 ch0].
  - cbn [flat_map]. rewrite app_nil_r.
    destruct no as [|c no].
    + exists [], (bullet_line (2 * d) ti la li ma). split; [reflexivity|].
      now apply bullet_line_good.
    + destruct (last_text_good (c :: no) Hno ltac:(discriminate)) as [ti0 [t [E G]]].
      destruct (note_texts_facts (c :: no) (2 * d) Hno) as [_ [_ Q]].
      rewrite Q, E, map_app. cbn [map].
      exists (bullet_line (2 * d) ti la li ma
              :: map (fun t0 => spaces (2 * d + 2) ++ u "> " ++ t0) ti0).
      eexists. split; [reflexivity|]. now do 2 apply good_end_app.
  - destruct (exists_last (l := c0 :: ch0) ltac:(discriminate)) as [chi [cl E]].
    rewrite E in *. rewrite flat_map_app. cbn [flat_map]. rewrite app_nil_r.
    rewrite Forall_forall in IH. rewrite forallb_forall in Hch.
    assert (Hin : In cl (chi ++ [cl])) by (apply in_or_app; right; left; reflexivity).
    destruct (IH cl Hin (S d) (Hch cl Hin)) as [init [l [El G]]].
    rewrite El.
    exists (bullet_line (2 * d) ti la li ma
            :: quoted_lines (2 * d) no ++ flat_map (topic_lines (S d)) chi ++ init), l.
    split; [|assumption]. cbn [app]. f_equal. now rewrite <- !app_assoc.
Qed.

Lemma forest_last : forall ts d,
  ts <> [] -> forallb bullet_ok ts = true ->
  exists init l, flat_map (topic_lines d) ts = init ++ [l] /\ good_end l = true.
Proof.
  intros ts d Hne H. destruct (exists_last Hne) as [ti [t ->]].
  rewrite forallb_forall in H.
  destruct (topic_lines_last t d (H t ltac:(apply in_or_app; right; left; reflexivity)))
    as [init [l [E G]]].
  rewrite flat_map_app. cbn [flat_map]. rewrite app_nil_r, E.
  exists (flat_map (topic_lines d) ti ++ init), l. split; [|assumption].
  now rewrite <- app_assoc.
Qed.

Lemma meta_last : forall la li ma no,
  forallb item_ok la = true -> text_ok li = true -> forallb item_ok ma = true ->
  notes_ok no = true -> meta_lines la li ma no <> [] ->
  exists init l, meta_lines la li ma no = init ++ [l] /\ good_end l = true.
Proof.
  intros la li ma no Hla Hli Hma Hno Hne. unfold meta_lines in *.
  destruct no as [|c no].
  - change (note_texts []) with (@nil str) in *. cbn [map] in *.
    set (A := if truthy la then [u "> Labels: " ++ join (u ", ") la] else []) in *.
    set (B := if truthy li then [u "> Link: " ++ li] else []) in *.
    set (Cc := if truthy ma then [u "> Markers: " ++ join (u ", ") ma] else []) in *.
    assert (E : A ++ B ++ Cc ++ [] = A ++ B ++ Cc) by (now rewrite app_nil_r).
    rewrite E in *. apply last_good; [assumption|].
    destruct (text_ok_parts _ Hli) as [Tli _]. unfold A, B, Cc.
    apply Forall_app; split; [|apply Forall_app; split].
    + destruct la as [|l la]; constructor; [|constructor].
      apply good_end_app. apply trimmed_good;
        now destruct (join_items_trimmed (l :: la) ltac:(discriminate) Hla).
    + destruct li as [|l li]; constructor; [|constructor].
      apply good_end_app. apply trimmed_good; [discriminate | assumption].
    + destruct ma as [|m ma]; constructor; [|constructor].
      apply good_end_app. apply trimmed_good;
        now destruct (join_items_trimmed (m :: ma) ltac:(discriminate) Hma).
  - destruct (last_text_good (c :: no) Hno ltac:(discriminate)) as [ti0 [t [E G]]].
    rewrite E, map_app. cbn [map]. rewrite !app_assoc.
    eexists. eexists. split; [reflexivity|]. now apply good_end_app.
Qed.

Lemma core_trimmed : forall T i R ch no la li ma,
  root_ok (mkTopic i R ch no la li ma) = true ->
  trimmed (join [NL] (sheet_core T R (meta_lines la li ma no)
                                 (flat_map (topic_lines 0) ch))) = true.
Proof.
  intros T i R ch no la li ma Hroot.
  destruct (root_ok_parts _ _ _ _ _ _ _ Hroot)
    as [HR [HR' [Hla [Hli [Hma [Hno [Hrn Hch]]]]]]].
  destruct (text_ok_parts _ HR') as [TR _].
  set (M := meta_lines la li ma no). set (C := flat_map (topic_lines 0) ch).
  unfold trimmed. apply andb_true_intro. split.
  - unfold sheet_core. cbn [app].
    destruct (if truthy M || truthy C then _ else _);
      [reflexivity | rewrite join_cons; reflexivity].
  - assert (L : exists init l, sheet_core T R M C = init ++ [l] /\ good_end l = true).
    { unfold sheet_core. destruct (truthy C) eqn:TC.
      - rewrite orb_true_r.
        assert (Hc : ch <> []).
        { intros ->. discriminate. }
        destruct (forest_last ch 0 Hc Hch) as [init [l [E G]]]. fold C in E.
        rewrite E. eexists. exists l. split; [|assumption].
        rewrite app_comm_cons. rewrite !app_assoc.
        change ([] :: init ++ [l]) with (([] :: init) ++ [l]).
        rewrite !app_assoc. reflexivity.
      - rewrite orb_false_r. destruct (truthy M) eqn:TM.
        + assert (Hm : M <> []) by (intros E; rewrite E in TM; discriminate).
          destruct (meta_last la li ma no Hla Hli Hma Hno Hm) as [init [l [E G]]].
          fold M in E. rewrite E. eexists. exists l. split; [|assumption].
          rewrite app_nil_r. rewrite app_comm_cons. rewrite !app_assoc. reflexivity.
        + exists [u "# Sheet: " ++ T; []; []], (u "## " ++ R). split; [reflexivity|].
          apply good_end_app. now apply trimmed_good. }
    destruct L as [init [l [E G]]]. rewrite E. now apply ends_clean_join.
Qed.

(** ** The lines of the encoded document *)

Lemma sheet_lines_core : forall T R M C,
  exists k, sheet_lines T R M C = sheet_core T R M C ++ repeat [] k.
Proof.
  intros T R M C. unfold sheet_lines, sheet_core.
  destruct C as [|c C].
  - destruct M as [|m M].
    + exists 2%nat. reflexivity.
    + exists 1%nat. cbn [truthy orb app repeat]. rewrite app_nil_r. reflexivity.
  - exists 0%nat. rewrite orb_true_r. cbn [truthy repeat]. rewrite app_nil_r. reflexivity.
Qed.

Lemma truthy_join_quoted : forall M,
  (forall l, In l M -> exists r, l = 62 :: r) -> truthy (join [NL] M) = truthy M.
Proof.
  intros [|m M] H; [reflexivity|].
  destruct (H m (or_introl eq_refl)) as [r ->].
  destruct M; reflexivity.
Qed.

Lemma sheet_parts_lines : forall i s,
  exists lls,
    sheet_parts i s = map (join [NL]) lls
    /\ Forall (fun ls => ls <> []) lls
    /\ List.concat lls
       = (match i with O => [] | S _ => rule_lines end) ++ sheet_all_lines s.
Proof.
  intros i [sid T root]. unfold sheet_parts, sheet_all_lines.
  cbn [sheet_title root_topic].
  assert (H1 : u "# Sheet: " ++ T ++ [NL] = join [NL] [u "# Sheet: " ++ T; []]).
  { cbn [join]. now rewrite app_nil_r, <- app_assoc. }
  destruct root as [[tid R ch no la li ma]|].
  - rewrite format_meta_block_lines. cbn [topic_title topic_children].
    set (M := meta_lines la li ma no).
    rewrite (truthy_join_quoted M (meta_lines_quoted la li ma no)).
    assert (H2 : [NL] ++ u "## " ++ R ++ [NL] = join [NL] [[]; u "## " ++ R; []]).
    { cbn [join]. now rewrite app_nil_r, <- !app_assoc. }
    assert (H3 : map (fun child => _topic_to_md child 0) ch
                 = map (join [NL]) (map (topic_lines 0) ch)).
    { rewrite map_map. apply map_ext. intros c. apply topic_to_md_lines. }
    rewrite H1, H2, H3.
    exists ((match i with O => [] | S _ => [rule_lines] end)
            ++ [[u "# Sheet: " ++ T; []]; [[]; u "## " ++ R; []]]
            ++ (if truthy M then [M] else []) ++ [[[]]] ++ map (topic_lines 0) ch).
    split; [|split].
    + rewrite !map_app. destruct i, (truthy M); reflexivity.
    + apply Forall_app. split; [destruct i; repeat constructor; discriminate|].
      repeat (constructor; [discriminate|]).
      apply Forall_app. split.
      * destruct (truthy M) eqn:E; constructor; [|constructor].
        intros ->. discriminate.
      * constructor; [discriminate|]. apply Forall_forall. intros x Hx.
        apply in_map_iff in Hx. destruct Hx as [c [<- _]]. apply topic_lines_nonempty.
    + rewrite !concat_app. rewrite <- flat_map_concat_map. unfold sheet_lines.
      destruct i; cbn [List.concat app]; rewrite ?app_nil_r;
        destruct (truthy M) eqn:E; cbn [List.concat app]; rewrite ?app_nil_r;
        try reflexivity;
        (destruct M; [reflexivity | discriminate]).
  - rewrite H1. exists ((match i with O => [] | S _ => [rule_lines] end)
                        ++ [[u "# Sheet: " ++ T; []]]).
    split; [|split].
    + rewrite app_nil_r. destruct i; reflexivity.
    + destruct i; repeat constructor; discriminate.
    + destruct i; reflexivity.
Qed.

Lemma all_parts_lines : forall doc i,
  exists lls,
    all_parts i doc = map (join [NL]) lls
    /\ Forall (fun ls => ls <> []) lls
    /\ List.concat lls = doc_lines i doc.
Proof.
  induction doc as [|s doc IH]; intros i.
  - exists []. repeat split. constructor.
  - destruct (sheet_parts_lines i s) as [l1 [A1 [B1 C1]]].
    destruct (IH (S i)) as [l2 [A2 [B2 C2]]].
    exists (l1 ++ l2). split; [|split].
    + cbn [all_parts]. now rewrite A1, A2, map_app.
    + now apply Forall_app.
    + rewrite concat_app, C1, C2. cbn [doc_lines]. now rewrite <- app_assoc.
Qed.

Lemma sheets_to_markdown_lines : forall doc,
  sheets_to_markdown doc = join [NL] (doc_lines 0 doc).
Proof.
  intros doc. unfold sheets_to_markdown.
  destruct (all_parts_lines doc 0) as [lls [A [B C]]].
  rewrite A, join_concat by assumption. now rewrite C.
Qed.

(** ** The round trip *)

Lemma sheet_ok_root : forall s,
  sheet_ok s = true ->
  exists sid T i R ch no la li ma,
    s = mkSheet sid T (Some (mkTopic i R ch no la li ma))
    /\ text_ok T = true /\ root_ok (mkTopic i R ch no la li ma) = true.
Proof.
  intros [sid T [[i R ch no la li ma]|]] H; unfold sheet_ok in H;
    cbn [sheet_title root_topic] in H; apply andb_prop in H; destruct H as [H1 H2];
    [|discriminate].
  exists sid, T, i, R, ch, no, la, li, ma. auto.
Qed.

Lemma sheet_all_lines_calm : forall s,
  sheet_ok s = true -> Forall (fun l => calm l = true) (sheet_all_lines s).
Proof.
  intros s H. destruct (sheet_ok_root s H) as [sid [T [i [R [ch [no [la [li [ma [-> [HT Hr]]]]]]]]]]].
  destruct (root_ok_parts _ _ _ _ _ _ _ Hr)
    as [HR [HR' [Hla [Hli [Hma [Hno [Hrn Hch]]]]]]].
  destruct (text_ok_parts _ HT) as [_ OT]. destruct (text_ok_parts _ HR') as [_ OR].
  unfold sheet_all_lines. cbn [root_topic sheet_title].
  destruct (sheet_lines_core T R (meta_lines la li ma no) (flat_map (topic_lines 0) ch))
    as [k ->].
  apply Forall_app. split.
  - apply sheet_core_calm; try assumption.
    + now apply meta_lines_calm.
    + now apply forest_lines_calm.
  - apply Forall_forall. intros x Hx. apply repeat_spec in Hx. subst x. reflexivity.
Qed.

Lemma blank_lines_calm : forall k, Forall (fun l => calm l = true) (repeat [] k).
Proof.
  intros k. apply Forall_forall. intros x Hx. apply repeat_spec in Hx. now subst x.
Qed.

Lemma sheet_all_lines_nonempty : forall s, sheet_all_lines s <> [].
Proof.
  intros [sid T [[i R ch no la li ma]|]]; unfold sheet_all_lines; discriminate.
Qed.

Section RoundTrip.
Variable uuid : IdGen.

(** A block of an encoded document, with blank lines around the lines of
    its sheet, decodes to that sheet. *)
Lemma block_roundtrip : forall s a b n,
  sheet_ok s = true ->
  exists s' n',
    _parse_sheet_block uuid
      (strip (join [NL] (repeat [] a ++ sheet_all_lines s ++ repeat [] b))) n
    = (Some s', n')
    /\ erase_sheet s' = erase_sheet s.
Proof.
  intros s a b n H.
  destruct (sheet_ok_root s H) as [sid [T [i [R [ch [no [la [li [ma [-> [HT Hr]]]]]]]]]]].
  unfold sheet_all_lines. cbn [root_topic sheet_title].
  set (M := meta_lines la li ma no). set (C := flat_map (topic_lines 0) ch).
  destruct (sheet_lines_core T R M C) as [k ->].
  rewrite <- app_assoc. rewrite <- repeat_app.
  rewrite join_pad by (unfold sheet_core; discriminate).
  rewrite strip_pad
    by (apply newlines_are_space || exact (core_trimmed T i R ch no la li ma Hr)).
  now apply parse_sheet_block_core.
Qed.

Lemma blocks_roundtrip : forall rest s a i n,
  sheet_ok s = true -> forallb sheet_ok rest = true ->
  exists doc' n',
    parse_blocks uuid
      (split_lit block_sep 0
         (join [NL] (repeat [] a ++ sheet_all_lines s ++ doc_lines (S i) rest))) n
    = (doc', n')
    /\ map erase_sheet doc' = map erase_sheet (s :: rest).
Proof.
  induction rest as [|s2 rest IH]; intros s a i n Hs Hrest.
  - cbn [doc_lines]. change (@nil str) with (repeat (@nil N) 0) at 1.
    destruct (block_roundtrip s a 0 n Hs) as [s' [n' [P E]]].
    rewrite <- (app_nil_r (join [NL] _)).
    rewrite split_lit_calm.
    + cbn [split_lit prepend]. rewrite app_nil_r. cbn [parse_blocks].
      rewrite P. exists [s'], n'. split; [reflexivity|]. cbn [map]. now rewrite E.
    + intros X. apply app_eq_nil in X. destruct X as [_ X].
      apply app_eq_nil in X. destruct X as [X _].
      now apply sheet_all_lines_nonempty in X.
    + apply Forall_app. split; [apply blank_lines_calm|].
      apply Forall_app. split; [now apply sheet_all_lines_calm | apply blank_lines_calm].
    + left; reflexivity.
  - cbn [forallb] in Hrest. apply andb_prop in Hrest. destruct Hrest as [Hs2 Hrest].
    cbn [doc_lines]. unfold rule_lines.
    set (Ls := sheet_all_lines s). set (Ls2 := sheet_all_lines s2).
    set (tl := doc_lines (S (S i)) rest).
    assert (E : repeat [] a ++ Ls ++ [[]; u "---"; []] ++ Ls2 ++ tl
                = (repeat [] a ++ Ls ++ repeat [] 1) ++ [u "---"]
                  ++ (repeat [] 1 ++ Ls2 ++ tl)).
    { cbn [repeat app]. rewrite <- !app_assoc. reflexivity. }
    rewrite E.
    assert (NX : repeat (@nil N) a ++ Ls ++ repeat [] 1 <> []).
    { intros X. apply app_eq_nil in X. destruct X as [_ X].
      apply app_eq_nil in X. destruct X as [X _].
      now apply sheet_all_lines_nonempty in X. }
    rewrite join_app; [|assumption|intros X; discriminate X].
    rewrite (join_app [NL] [u "---"]); [|intros X; discriminate X|].
    2: { intros X. apply app_eq_nil in X. destruct X as [X _]. discriminate X. }
    change (join [NL] [u "---"]) with (u "---").
    replace ([NL] ++ u "---" ++ [NL] ++ join [NL] (repeat [] 1 ++ Ls2 ++ tl))
      with (block_sep ++ join [NL] (repeat [] 1 ++ Ls2 ++ tl))
      by (unfold block_sep; now rewrite <- !app_assoc).
    rewrite split_lit_calm.
    + rewrite split_lit_at_sep. cbn [prepend]. rewrite app_nil_r.
      cbn [parse_blocks].
      destruct (block_roundtrip s a 1 n Hs) as [s' [n1 [P Es]]].
      fold Ls in P. rewrite P.
      destruct (IH s2 1%nat (S i) n1 Hs2 Hrest) as [doc2 [n2 [P2 E2]]].
      fold Ls2 in P2. fold tl in P2. rewrite P2.
      exists (s' :: doc2), n2. split; [reflexivity|]. cbn [map]. now rewrite Es, E2.
    + assumption.
    + apply Forall_app. split; [apply blank_lines_calm|].
      apply Forall_app. split; [now apply sheet_all_lines_calm | apply blank_lines_calm].
    + right. eexists. reflexivity.
Qed.

End RoundTrip.




(* ================================================================== *)
(** * Further properties of the outline codec *)
(* ================================================================== *)

(** ** The encoder and the identifiers *)

Lemma topic_to_md_erase : forall t d,
  _topic_to_md (erase_ids t) d = _topic_to_md t d.
Proof.
  intros t. induction t as [i ti ch no la li ma IH] using Topic_forest_ind.
  intros d. cbn [erase_ids _topic_to_md]. rewrite map_map.
  replace (map (fun x => _topic_to_md (erase_ids x) (S d)) ch)
    with (map (fun child => _topic_to_md child (S d)) ch); [reflexivity|].
  apply map_ext_in. intros c Hc. rewrite Forall_forall in IH. symmetry. now apply IH.
Qed.

Lemma sheet_parts_erase : forall i s,
  sheet_parts i (erase_sheet s) = sheet_parts i s.
Proof.
  intros i [sid T [[ri R ch no la li ma]|]]; [|reflexivity].
  unfold sheet_parts, erase_sheet.
  cbn [sheet_title root_topic option_map erase_ids topic_title topic_children].
  rewrite map_map.
  replace (map (fun x => _topic_to_md (erase_ids x) 0) ch)
    with (map (fun child => _topic_to_md child 0) ch); [reflexivity|].
  apply map_ext. intros c. symmetry. apply topic_to_md_erase.
Qed.

(** X1.  The outline text carries no identifier: two documents that differ
    in the identifiers of their sheets and topics only are encoded to the
    same text. *)
Theorem outline_has_no_identifiers :
  forall doc doc' : Document,
    map erase_sheet doc = map erase_sheet doc' ->
    sheets_to_markdown doc = sheets_to_markdown doc'.
Proof.
  assert (E : forall doc i, all_parts i (map erase_sheet doc) = all_parts i doc).
  { induction doc as [|s doc IH]; intros i; [reflexivity|].
    cbn [map all_parts]. now rewrite sheet_parts_erase, IH. }
  intros doc doc' H. unfold sheets_to_markdown.
  rewrite <- (E doc 0%nat), <- (E doc' 0%nat), H. reflexivity.
Qed.

Lemma outline_has_no_identifiers_witness :
  sheets_to_markdown (document_S demo_uuid 0)
  = sheets_to_markdown (document_S (fun _ => u "same") 7).
Proof.
  apply (outline_has_no_identifiers (document_S demo_uuid 0)
                                    (document_S (fun _ => u "same") 7)).
  reflexivity.
Defined.

(** ** Text without a sheet *)

Lemma split_lit_blank : forall s,
  forallb is_space s = true -> split_lit ([NL] ++ u "---" ++ [NL]) 0 s = [s].
Proof.
  induction s as [|c r IH]; intros H; [reflexivity|].
  cbn [forallb] in H. apply andb_prop in H. destruct H as [Hc Hr].
  change (split_lit ([NL] ++ u "---" ++ [NL]) 0 (c :: r))
    with (if startswith (c :: r) ([NL] ++ u "---" ++ [NL])
          then [] :: split_lit ([NL] ++ u "---" ++ [NL])
                       (length ([NL] ++ u "---" ++ [NL]) - 1) r
          else cons_head c (split_lit ([NL] ++ u "---" ++ [NL]) 0 r)).
  assert (S : startswith (c :: r) ([NL] ++ u "---" ++ [NL]) = false).
  { change ([NL] ++ u "---" ++ [NL]) with [NL; 45; 45; 45; NL].
    destruct r as [|d r']; cbn [startswith]; [apply andb_false_r|].
    cbn [forallb] in Hr. apply andb_prop in Hr. destruct Hr as [Hd _].
    destruct (N.eqb_spec 45 d) as [<-|_]; [discriminate Hd|].
    cbn [andb]. apply andb_false_r. }
  rewrite S, (IH Hr). reflexivity.
Qed.

(** X2.  A text of white space only (the empty text included) decodes to
    no sheet, and no identifier is drawn for it. *)
Theorem blank_outline_has_no_sheet :
  forall (uuid : IdGen) (md_text : str) (n : nat),
    forallb is_space md_text = true ->
    markdown_to_sheets uuid md_text n = ([], n).
Proof.
  intros uuid md n H. unfold markdown_to_sheets.
  rewrite (split_lit_blank md H). cbn [parse_blocks].
  assert (E : strip md = []).
  { apply strip_blank in H. destruct (strip md); [reflexivity | discriminate]. }
  rewrite E. reflexivity.
Qed.

Lemma blank_outline_has_no_sheet_witness :
  markdown_to_sheets demo_uuid [NL; SP; 9; NL] 3 = ([], 3%nat).
Proof.
  apply (blank_outline_has_no_sheet demo_uuid [NL; SP; 9; NL] 3). reflexivity.
Defined.

(** ** Titles without inline tags *)

(** X3.  A bullet text without an opening brace holds no inline tag:
    [_parse_title_meta] returns a fresh topic whose title is the stripped
    text and whose labels, link and markers are empty. *)
Theorem title_without_brace_is_plain :
  forall (uuid : IdGen) (raw : str) (n : nat),
    lacks 123 raw = true ->
    _parse_title_meta uuid raw n
    = (mkTopic (uuid n) (strip raw) [] [] [] [] [], S n).
Proof.
  intros uuid raw n H. unfold _parse_title_meta, new_topic, take_list_tag, take_text_tag.
  rewrite !(search_tag_none _ raw 0%nat H). reflexivity.
Qed.

Lemma title_without_brace_is_plain_witness :
  _parse_title_meta demo_uuid (u "  Plan the week ") 0
  = (mkTopic (demo_uuid 0%nat) (u "Plan the week") [] [] [] [] [], 1%nat).
Proof.
  apply (title_without_brace_is_plain demo_uuid (u "  Plan the week ") 0). reflexivity.
Defined.

(** ** What the decoder builds *)

Lemma comma_list_truthy : forall v, forallb (@truthy char) (comma_list v) = true.
Proof.
  intros v. unfold comma_list. apply forallb_forall. intros x Hx.
  apply in_map_iff in Hx. destruct Hx as [y [<- Hy]].
  apply filter_In in Hy. tauto.
Qed.

Lemma starts_clean_drop_while : forall s, starts_clean (drop_while is_space s) = true.
Proof.
  induction s as [|c s IH]; [reflexivity|]. cbn [drop_while].
  destruct (is_space c) eqn:E; [exact IH|]. cbn [starts_clean]. now rewrite E.
Qed.

Lemma strip_is_trimmed : forall s, trimmed (strip s) = true.
Proof.
  intros s. unfold strip, lstrip.
  pose proof (starts_clean_drop_while s) as H.
  destruct (drop_while is_space s) as [|c t]; [reflexivity|].
  cbn [starts_clean] in H. apply negb_true_iff in H.
  unfold trimmed. apply andb_true_intro. split.
  - rewrite (rstrip_cons c t H). cbn [starts_clean]. now rewrite H.
  - unfold ends_clean, rstrip. rewrite rev_involutive. apply starts_clean_drop_while.
Qed.

Lemma comma_list_trimmed : forall v, forallb trimmed (comma_list v) = true.
Proof.
  intros v. unfold comma_list. apply forallb_forall. intros x Hx.
  apply in_map_iff in Hx. destruct Hx as [y [<- _]]. apply strip_is_trimmed.
Qed.

Section Built.
Variable uuid : IdGen.

Lemma parse_title_meta_shape : forall raw n,
  exists title labels link markers,
    _parse_title_meta uuid raw n
    = (mkTopic (uuid n) title [] [] labels link markers, S n)
    /\ forallb (@truthy char) labels = true
    /\ forallb (@truthy char) markers = true
    /\ tidy title labels link markers = true.
Proof.
  intros raw n. unfold _parse_title_meta, new_topic, take_list_tag, take_text_tag.
  destruct (search_tag (u "labels") 0 raw) as [[[a b] g]|];
    cbn [set_labels];
    match goal with |- context [search_tag (u "link") 0 ?r] =>
      destruct (search_tag (u "link") 0 r) as [[[a2 b2] g2]|] end;
    cbn [set_link];
    match goal with |- context [search_tag (u "markers") 0 ?r] =>
      destruct (search_tag (u "markers") 0 r) as [[[a3 b3] g3]|] end;
    cbn [set_markers set_title];
    do 4 eexists; (split; [reflexivity|]);
    (split; [try apply comma_list_truthy; reflexivity|]);
    (split; [try apply comma_list_truthy; reflexivity|]);
    unfold tidy; rewrite ?strip_is_trimmed, ?comma_list_trimmed; reflexivity.
Qed.

Lemma parse_items_built : forall fuel lines n,
  built uuid n (fst (parse_items uuid fuel lines n))
        (snd (parse_items uuid fuel lines n)).
Proof.
  induction fuel as [|fuel IH]; intros lines n; [constructor|].
  destruct lines as [|line rest]; [constructor|].
  rewrite parse_items_S.
  destruct (re_item line) as [[ws text]|]; [|apply IH].
  destruct (parse_title_meta_shape text n) as [ti [la [li [ma [E [Hla [Hma Hti]]]]]]].
  rewrite E.
  destruct (collect_item (length ws) [] [] rest) as [[cl nl] rest'].
  set (no := if truthy nl then join [NL] nl else []).
  assert (T : (if truthy nl
               then set_notes (mkTopic (uuid n) ti [] [] la li ma) (join [NL] nl)
               else mkTopic (uuid n) ti [] [] la li ma)
              = mkTopic (uuid n) ti [] no la li ma).
  { unfold no. destruct (truthy nl); reflexivity. }
  rewrite T.
  destruct (truthy cl).
  - pose proof (IH cl (S n)) as K.
    destruct (parse_items uuid fuel cl (S n)) as [kids n1]. cbn [fst snd] in K.
    cbn [set_children].
    pose proof (IH rest' n1) as R.
    destruct (parse_items uuid fuel rest' n1) as [items n2]. cbn [fst snd] in *.
    eapply built_cons; eassumption.
  - pose proof (IH rest' (S n)) as R.
    destruct (parse_items uuid fuel rest' (S n)) as [items n2]. cbn [fst snd] in *.
    eapply built_cons; [assumption | assumption | assumption | constructor | exact R].
Qed.

Lemma meta_fold_shape : forall lines i ti ch no la li ma parts,
  forallb (@truthy char) la = true -> forallb (@truthy char) ma = true ->
  tidy ti la li ma = true ->
  exists no' la' li' ma' parts',
    fold_left meta_step lines (mkTopic i ti ch no la li ma, parts)
    = (mkTopic i ti ch no' la' li' ma', parts')
    /\ forallb (@truthy char) la' = true /\ forallb (@truthy char) ma' = true
    /\ tidy ti la' li' ma' = true.
Proof.
  induction lines as [|l lines IH]; intros i ti ch no la li ma parts Hla Hma Ht.
  - exists no, la, li, ma, parts. auto.
  - pose proof Ht as Ht'. unfold tidy in Ht'.
    apply andb_prop in Ht'. destruct Ht' as [Ht' T4].
    apply andb_prop in Ht'. destruct Ht' as [Ht' T3].
    apply andb_prop in Ht'. destruct Ht' as [T1 T2].
    cbn [fold_left]. unfold meta_step at 2.
    destruct (startswith (re_sub_quote l) (u "Labels:")).
    { cbn [set_labels]. apply IH; [apply comma_list_truthy | assumption |].
      unfold tidy. now rewrite T1, comma_list_trimmed, T3, T4. }
    destruct (startswith (re_sub_quote l) (u "Link:")).
    { cbn [set_link]. apply IH; [assumption | assumption |].
      unfold tidy. now rewrite T1, T2, strip_is_trimmed, T4. }
    destruct (startswith (re_sub_quote l) (u "Markers:")).
    { cbn [set_markers]. apply IH; [assumption | apply comma_list_truthy |].
      unfold tidy. now rewrite T1, T2, T3, comma_list_trimmed. }
    now apply IH.
Qed.

Lemma block_step_titles : forall st l,
  trimmed (scan_sheet_title st) = true -> trimmed (scan_root_title st) = true ->
  trimmed (scan_sheet_title (block_step st l)) = true
  /\ trimmed (scan_root_title (block_step st l)) = true.
Proof.
  intros [a b c d p] l Ha Hb. cbn [scan_sheet_title scan_root_title] in Ha, Hb.
  unfold block_step.
  destruct (truthy (strip l)); cbn [negb].
  - destruct p;
      repeat match goal with
             | |- context [if ?x then _ else _] => destruct x
             end;
      cbn [scan_sheet_title scan_root_title]; auto using strip_is_trimmed.
  - destruct (is_body p); cbn [scan_sheet_title scan_root_title]; auto.
Qed.

Lemma scan_titles : forall lines st,
  trimmed (scan_sheet_title st) = true -> trimmed (scan_root_title st) = true ->
  trimmed (scan_sheet_title (fold_left block_step lines st)) = true
  /\ trimmed (scan_root_title (fold_left block_step lines st)) = true.
Proof.
  induction lines as [|l lines IH]; intros st Ha Hb; [auto|].
  cbn [fold_left]. destruct (block_step_titles st l Ha Hb) as [Ha' Hb']. now apply IH.
Qed.

Lemma parse_sheet_block_built : forall block n,
  match _parse_sheet_block uuid block n with
  | (None, n') => n' = n
  | (Some s, n') => built_doc uuid n [s] n'
  end.
Proof.
  intros block n. unfold _parse_sheet_block.
  assert (Tt : trimmed (scan_sheet_title (scan_block (split_char NL block))) = true
               /\ trimmed (scan_root_title (scan_block (split_char NL block))) = true).
  { unfold scan_block. apply scan_titles; reflexivity. }
  set (st := scan_block (split_char NL block)) in *.
  destruct Tt as [Ts Tr].
  destruct (negb (truthy (scan_root_title st)) && negb (truthy (scan_body_lines st)));
    [reflexivity|].
  cbn [new_sheet new_topic sheet_id sheet_title]. unfold _apply_block_meta.
  assert (T0 : tidy (scan_root_title st) [] [] [] = true).
  { unfold tidy. now rewrite Tr. }
  destruct (meta_fold_shape (scan_root_meta st) (uuid (S n)) (scan_root_title st)
              [] [] [] [] [] [] eq_refl eq_refl T0)
    as [no [la [li [ma [parts [E [Hla [Hma Hti]]]]]]]].
  rewrite E.
  set (no' := if truthy parts then join [NL] parts else no).
  assert (T : (if truthy parts
               then set_notes (mkTopic (uuid (S n)) (scan_root_title st) [] no la li ma)
                              (join [NL] parts)
               else mkTopic (uuid (S n)) (scan_root_title st) [] no la li ma)
              = mkTopic (uuid (S n)) (scan_root_title st) [] no' la li ma).
  { unfold no'. destruct (truthy parts); reflexivity. }
  rewrite T.
  destruct (truthy (scan_body_lines st)).
  - unfold _parse_md_items.
    pose proof (parse_items_built (S (length (scan_body_lines st)))
                  (scan_body_lines st) (S (S n))) as K.
    destruct (parse_items uuid (S (length (scan_body_lines st)))
                (scan_body_lines st) (S (S n))) as [kids n1].
    cbn [fst snd set_children] in *.
    eapply built_doc_cons; [exact Ts | | constructor].
    eapply built_cons; [exact Hla | exact Hma | exact Hti | exact K | constructor].
  - eapply built_doc_cons; [exact Ts | | constructor].
    eapply built_cons; [exact Hla | exact Hma | exact Hti | constructor | constructor].
Qed.

Lemma built_doc_app : forall n a n1 b n2,
  built_doc uuid n a n1 -> built_doc uuid n1 b n2 -> built_doc uuid n (a ++ b) n2.
Proof.
  intros n a n1 b n2 Ha. revert b n2.
  induction Ha; intros b m Hb; [exact Hb|].
  cbn [app]. econstructor; [eassumption | eassumption |]. now apply IHHa.
Qed.

Lemma parse_blocks_built : forall blocks n,
  built_doc uuid n (fst (parse_blocks uuid blocks n)) (snd (parse_blocks uuid blocks n)).
Proof.
  induction blocks as [|b blocks IH]; intros n; [constructor|].
  cbn [parse_blocks].
  pose proof (parse_sheet_block_built (strip b) n) as B.
  destruct (_parse_sheet_block uuid (strip b) n) as [[s|] n1].
  - pose proof (IH n1) as R.
    destruct (parse_blocks uuid blocks n1) as [sheets n2]. cbn [fst snd] in *.
    apply (built_doc_app n [s] n1 sheets n2 B R).
  - subst n1. pose proof (IH n) as R.
    destruct (parse_blocks uuid blocks n) as [sheets n2]. exact R.
Qed.

Lemma markdown_built : forall md n,
  built_doc uuid n (fst (markdown_to_sheets uuid md n))
            (snd (markdown_to_sheets uuid md n)).
Proof. intros md n. apply parse_blocks_built. Qed.

Lemma built_ids : forall n ts n',
  built uuid n ts n' ->
  (n <= n')%nat /\ flat_map topic_ids ts = map uuid (seq n (n' - n)).
Proof.
  intros n ts n' H.
  induction H as [n | n ti no la li ma kids n1 rest n2 _ _ _ _ [L1 E1] _ [L2 E2]].
  - split; [lia|]. now rewrite Nat.sub_diag.
  - split; [lia|]. cbn [flat_map topic_ids app].
    replace (n2 - n)%nat with (1 + ((n1 - S n) + (n2 - n1)))%nat by lia.
    rewrite E1, E2. cbn [seq map Nat.add]. rewrite seq_app, map_app.
    replace (S n + (n1 - S n))%nat with n1 by lia. reflexivity.
Qed.

Lemma built_doc_ids : forall n doc n',
  built_doc uuid n doc n' ->
  (n <= n')%nat /\ doc_ids doc = map uuid (seq n (n' - n)).
Proof.
  intros n doc n' H.
  induction H as [n | n ti root n1 rest n2 _ B _ [L2 E2]].
  - split; [lia|]. now rewrite Nat.sub_diag.
  - destruct (built_ids _ _ _ B) as [L1 E1]. split; [lia|].
    unfold doc_ids in *. cbn [flat_map]. unfold sheet_ids at 1.
    cbn [sheet_id root_topic app].
    cbn [flat_map] in E1. rewrite app_nil_r in E1.
    replace (n2 - n)%nat with (1 + ((n1 - S n) + (n2 - n1)))%nat by lia.
    rewrite E1, E2. cbn [seq map Nat.add]. rewrite seq_app, map_app.
    replace (S n + (n1 - S n))%nat with n1 by lia. reflexivity.
Qed.

End Built.

Lemma NoDup_map_injective : forall (A B : Type) (f : A -> B) (l : list A),
  (forall i j, f i = f j -> i = j) -> NoDup l -> NoDup (map f l).
Proof.
  intros A B f l Inj H. induction H as [|x l Hx _ IH]; [constructor|].
  cbn [map]. constructor; [|exact IH].
  intros Hin. apply in_map_iff in Hin. destruct Hin as [y [E Hy]].
  apply Inj in E. now subst y.
Qed.

(** X4.  The identifiers of a decoded document are the next answers of the
    identifier source, one for each sheet and each topic and in the order
    of the text: with [n] answers used before and [n'] after, they are the
    answers number [n] to [n' - 1].  So they are pairwise different
    whenever the answers of the source are. *)
Theorem decoded_ids_are_fresh :
  forall (uuid : IdGen) (md_text : str) (n : nat),
    let doc := fst (markdown_to_sheets uuid md_text n) in
    let n' := snd (markdown_to_sheets uuid md_text n) in
    (n <= n')%nat
    /\ doc_ids doc = map uuid (seq n (n' - n))
    /\ ((forall i j, uuid i = uuid j -> i = j) -> NoDup (doc_ids doc)).
Proof.
  intros uuid md n doc n'.
  destruct (built_doc_ids uuid n doc n' (markdown_built uuid md n)) as [L E].
  split; [exact L|]. split; [exact E|].
  intros Inj. rewrite E. apply NoDup_map_injective; [exact Inj | apply seq_NoDup].
Qed.

Lemma demo_uuid_injective : forall i j, demo_uuid i = demo_uuid j -> i = j.
Proof.
  intros i j H. unfold demo_uuid in H. apply app_inv_head in H.
  apply (f_equal (fun l => hd 0 l)) in H. cbn [hd] in H. lia.
Qed.

Lemma decoded_ids_are_fresh_witness :
  NoDup (doc_ids (fst (markdown_to_sheets demo_uuid outline_S 0))).
Proof.
  apply (proj2 (proj2 (decoded_ids_are_fresh demo_uuid outline_S 0))).
  exact demo_uuid_injective.
Defined.

(** ** Updating a package and reading it again *)


Section Safe.
Variable uuid : IdGen.
Hypothesis ids_not_empty : forall k, truthy (uuid k) = true.




End Safe.



(** X6.  A successful [update_xmind] rewrites the whole package: whatever
    entries it held before, afterwards it holds the two entries the encoder
    of its variant writes and no other. *)
Theorem update_drops_other_entries :
  forall (uuid : IdGen) (clock : Clock) (xmind_path md_path : str) (w w' : World),
    update_xmind uuid clock xmind_path md_path w = (Ok xmind_path, w') ->
    exists a,
      fs_get (files w') xmind_path = Some (FZip a)
      /\ (detect_format w xmind_path = Ok (u "zen") ->
          namelist a = [u "content.json"; u "metadata.json"])
      /\ (detect_format w xmind_path = Ok (u "legacy") ->
          namelist a = [u "content.xml"; u "META-INF/manifest.xml"]).
Proof.
  intros uuid clock xp mp w w'. unfold update_xmind.
  destruct (detect_format w xp) as [fmt|e] eqn:D; [|discriminate].
  destruct (read_text w mp) as [md|e] eqn:R; [|discriminate].
  destruct (markdown_to_sheets uuid md (ids w)) as [doc n].
  intros H. injection H as H. subst w'.
  destruct (str_eqb fmt (u "zen")) eqn:Z.
  - unfold create_zen. cbn [files with_files]. rewrite fs_get_put_same.
    eexists. split; [reflexivity|]. split; [reflexivity|].
    intros E. injection E as ->. discriminate Z.
  - unfold create_legacy.
    destruct (legacy_root clock doc (ticks (with_ids w n))) as [root k].
    cbn [files with_files with_ticks with_ids]. rewrite fs_get_put_same.
    eexists. split; [reflexivity|]. split; [|reflexivity].
    intros E. injection E as ->. discriminate Z.
Qed.

Lemma update_drops_other_entries_witness :
  exists a,
    fs_get (files (snd (update_xmind demo_uuid demo_clock (u "map.xmind") (u "edit.md")
                          outline_world))) (u "map.xmind") = Some (FZip a)
    /\ namelist a = [u "content.json"; u "metadata.json"].
Proof.
  pose (p := update_xmind demo_uuid demo_clock (u "map.xmind") (u "edit.md")
               outline_world).
  destruct (update_drops_other_entries demo_uuid demo_clock (u "map.xmind")
              (u "edit.md") outline_world (snd p) eq_refl) as [a [F [Z _]]].
  exists a. split; [exact F | exact (Z eq_refl)].
Defined.

(* ================================================================== *)
(** * Properties of the commands *)
(* ================================================================== *)

(** ** Files and text *)

Lemma fs_get_put_other : forall fs p q f,
  p <> q -> fs_get (fs_put fs q f) p = fs_get fs p.
Proof.
  induction fs as [|[k g] fs IH]; intros p q f H; cbn [fs_put fs_get].
  - destruct (str_eqb_spec p q); [contradiction | reflexivity].
  - destruct (str_eqb_spec q k) as [->|Hq]; cbn [fs_get].
    + destruct (str_eqb_spec p k); [contradiction | reflexivity].
    + destruct (str_eqb_spec p k); [reflexivity | now apply IH].
Qed.

Lemma universal_newlines_no_cr : forall s, no_cr (universal_newlines s) = true.
Proof.
  assert (H : forall k s, (length s <= k)%nat -> no_cr (universal_newlines s) = true).
  { induction k as [|k IH]; intros s L.
    - destruct s; [reflexivity | cbn [length] in L; lia].
    - destruct s as [|c r]; [reflexivity|]. cbn [length] in L.
      cbn [universal_newlines]. destruct (c =? CR) eqn:E.
      + unfold no_cr. cbn [forallb]. change (NL =? CR) with false. cbn [negb andb].
        destruct r as [|d r']; [reflexivity|]. cbn [length] in L.
        destruct (d =? NL); apply IH; cbn [length]; lia.
      + unfold no_cr. cbn [forallb]. rewrite E. cbn [negb andb]. apply IH. lia. }
  intros s. now apply (H (length s)).
Qed.

Lemma universal_newlines_fixed : forall s, no_cr s = true -> universal_newlines s = s.
Proof.
  induction s as [|c r IH]; intros H; [reflexivity|].
  unfold no_cr in H. cbn [forallb] in H. apply andb_prop in H. destruct H as [Hc Hr].
  cbn [universal_newlines]. destruct (c =? CR); [discriminate|].
  now rewrite (IH Hr).
Qed.

Lemma read_text_written : forall w path text,
  read_text (write_text w path text) path = Ok (universal_newlines text).
Proof.
  intros w path text. unfold read_text, write_text. cbn [files with_files].
  now rewrite fs_get_put_same.
Qed.

Lemma read_text_no_cr : forall w path text, read_text w path = Ok text -> no_cr text = true.
Proof.
  intros w path text. unfold read_text.
  destruct (fs_get (files w) path) as [[s|a|]|]; try discriminate.
  intros H. injection H as <-. apply universal_newlines_no_cr.
Qed.

(** ** [cmd_parse] *)

Section ParseProps.
Variable uuid : IdGen.

Lemma parse_zen_state : forall w p,
  files (snd (parse_zen uuid w p)) = files w
  /\ tmpdir (snd (parse_zen uuid w p)) = tmpdir w
  /\ stdout (snd (parse_zen uuid w p)) = stdout w
  /\ stderr (snd (parse_zen uuid w p)) = stderr w.
Proof.
  intros w p. unfold parse_zen.
  match goal with |- context [match ?x with Ok _ => _ | Raise _ => _ end] =>
    destruct x as [[sheets n]|e] end; cbn; auto.
Qed.

Lemma parse_legacy_state : forall w p,
  files (snd (parse_legacy uuid w p)) = files w
  /\ tmpdir (snd (parse_legacy uuid w p)) = tmpdir w
  /\ stdout (snd (parse_legacy uuid w p)) = stdout w
  /\ stderr (snd (parse_legacy uuid w p)) = stderr w.
Proof.
  intros w p. unfold parse_legacy.
  match goal with |- context [match ?x with Ok _ => _ | Raise _ => _ end] =>
    destruct x as [[sheets n]|e] end; cbn; auto.
Qed.

Lemma read_package_state : forall fmt w p,
  files (snd (read_package uuid fmt w p)) = files w
  /\ tmpdir (snd (read_package uuid fmt w p)) = tmpdir w
  /\ stdout (snd (read_package uuid fmt w p)) = stdout w
  /\ stderr (snd (read_package uuid fmt w p)) = stderr w.
Proof.
  intros fmt w p. unfold read_package.
  destruct (str_eqb fmt (u "zen")); [apply parse_zen_state | apply parse_legacy_state].
Qed.

Lemma cmd_parse_run : forall session xp rest w fmt doc w1,
  path_exists w xp = true ->
  detect_format w xp = Ok fmt ->
  read_package uuid fmt w xp = (Ok doc, w1) ->
  cmd_parse uuid session (xp :: rest) w
  = let md := sheets_to_markdown doc in
    let mem := get_memory_path w session xp in
    if encodable md
    then (Status 0%Z,
          print_out (print_out (write_text w1 mem md) md)
                    ([NL] ++ u "<!-- memory_file: " ++ mem ++ u " -->"))
    else (Uncaught UnicodeEncodeError, write_text w1 mem []).
Proof.
  intros session xp rest w fmt doc w1 E D P. unfold cmd_parse.
  rewrite E, D. cbn [negb]. unfold read_package in P. rewrite P.
  pose proof (read_package_state fmt w xp) as [_ [T _]].
  unfold read_package in T. rewrite P in T. cbn [snd] in T.
  unfold get_memory_path, get_memory_dir. rewrite T.
  cbv zeta. unfold write_utf8.
  destruct (encodable (sheets_to_markdown doc)); reflexivity.
Qed.

End ParseProps.

Section ParseOutcome.
Variable uuid : IdGen.

Lemma cmd_parse_files : forall session args w p,
  (forall xp rest, args = xp :: rest -> p <> get_memory_path w session xp) ->
  fs_get (files (snd (cmd_parse uuid session args w))) p = fs_get (files w) p.
Proof.
  intros session args w p H. unfold cmd_parse.
  destruct args as [|xp rest]; [reflexivity|].
  specialize (H xp rest eq_refl).
  destruct (path_exists w xp); [|reflexivity]. cbn [negb].
  destruct (detect_format w xp) as [fmt|e]; [|reflexivity].
  pose proof (read_package_state uuid fmt w xp) as [F [T _]].
  unfold read_package in F, T.
  destruct (if str_eqb fmt (u "zen") then parse_zen uuid w xp else parse_legacy uuid w xp)
    as [[doc|e] w1]; cbn [snd] in *; [|now rewrite F].
  unfold get_memory_path, get_memory_dir in *. rewrite T. unfold write_utf8.
  destruct (encodable (sheets_to_markdown doc)); cbn [snd files print_out write_text with_files];
    rewrite fs_get_put_other by exact H; now rewrite F.
Qed.

Lemma cmd_parse_success_inv : forall session args w w',
  cmd_parse uuid session args w = (Status 0%Z, w') ->
  exists xp rest fmt doc w1,
    args = xp :: rest /\ path_exists w xp = true /\ detect_format w xp = Ok fmt
    /\ read_package uuid fmt w xp = (Ok doc, w1)
    /\ encodable (sheets_to_markdown doc) = true.
Proof.
  intros session args w w'. unfold cmd_parse.
  destruct args as [|xp rest]; [discriminate|].
  destruct (path_exists w xp) eqn:E; [|discriminate]. cbn [negb].
  destruct (detect_format w xp) as [fmt|e] eqn:D; [|discriminate].
  destruct (if str_eqb fmt (u "zen") then parse_zen uuid w xp else parse_legacy uuid w xp)
    as [[doc|e] w1] eqn:P; [|discriminate].
  unfold write_utf8. destruct (encodable (sheets_to_markdown doc)) eqn:C; [|discriminate].
  intros _. exists xp, rest, fmt, doc, w1. auto.
Qed.

End ParseOutcome.

(** X7.  For a package that exists and is read as the document [doc],
    [cmd_parse] writes the outline of [doc] to the memory file of the
    session, prints the outline and the line naming that file, and returns
    0.  When the outline holds a surrogate code point the write fails with
    [UnicodeEncodeError]: the memory file is left empty and nothing is
    printed. *)
Theorem cmd_parse_outcome :
  forall (uuid : IdGen) (session xmind_path : str) (rest : list str) (w w1 : World)
         (fmt : str) (doc : Document),
    path_exists w xmind_path = true ->
    detect_format w xmind_path = Ok fmt ->
    read_package uuid fmt w xmind_path = (Ok doc, w1) ->
    let md := sheets_to_markdown doc in
    let mem := get_memory_path w session xmind_path in
    let r := cmd_parse uuid session (xmind_path :: rest) w in
    (encodable md = true ->
     fst r = Status 0%Z
     /\ fs_get (files (snd r)) mem = Some (FText md)
     /\ stdout (snd r) = stdout w ++ [md; memory_comment mem]
     /\ stderr (snd r) = stderr w)
    /\ (encodable md = false ->
        fst r = Uncaught UnicodeEncodeError
        /\ fs_get (files (snd r)) mem = Some (FText [])
        /\ stdout (snd r) = stdout w
        /\ stderr (snd r) = stderr w).
Proof.
  intros uuid session xp rest w w1 fmt doc E D P md mem r.
  pose proof (read_package_state uuid fmt w xp) as [_ [_ [O Er]]].
  rewrite P in O, Er. cbn [snd] in O, Er.
  unfold r. rewrite (cmd_parse_run uuid session xp rest w fmt doc w1 E D P).
  cbv zeta. fold md mem. split; intros C; rewrite C; cbn [fst snd].
  - split; [reflexivity|]. split; [|split].
    + cbn [print_out files write_text with_files]. apply fs_get_put_same.
    + cbn [print_out stdout write_text with_files]. rewrite O, <- app_assoc. reflexivity.
    + cbn [print_out stderr write_text with_files]. exact Er.
  - split; [reflexivity|]. split; [|split].
    + cbn [files write_text with_files]. apply fs_get_put_same.
    + cbn [stdout write_text with_files]. exact O.
    + cbn [stderr write_text with_files]. exact Er.
Qed.

Lemma cmd_parse_outcome_witness :
  fst (cmd_parse demo_uuid (u "s1") [u "map.xmind"] outline_world) = Status 0%Z
  /\ fs_get (files (snd (cmd_parse demo_uuid (u "s1") [u "map.xmind"] outline_world)))
            (u "/tmp/skills-xmind-parsed/s1/map.md")
     = Some (FText (sheets_to_markdown one_sheet)).
Proof.
  destruct (cmd_parse_outcome demo_uuid (u "s1") (u "map.xmind") [] outline_world
              outline_world (u "zen") one_sheet eq_refl eq_refl eq_refl) as [A _].
  destruct (A eq_refl) as [S0 [F _]]. split; [exact S0 | exact F].
Defined.

(** X8.  Whatever its outcome, [cmd_parse] changes no file but the memory
    file of the session: every other path, the package included, holds
    what it held. *)
Theorem cmd_parse_writes_memory_only :
  forall (uuid : IdGen) (session : str) (args : list str) (w : World) (p : str),
    (forall xmind_path rest,
       args = xmind_path :: rest -> p <> get_memory_path w session xmind_path) ->
    fs_get (files (snd (cmd_parse uuid session args w))) p = fs_get (files w) p.
Proof. exact cmd_parse_files. Qed.

Lemma cmd_parse_writes_memory_only_witness :
  fs_get (files (snd (cmd_parse demo_uuid (u "s1") [u "map.xmind"] outline_world)))
         (u "map.xmind")
  = fs_get (files outline_world) (u "map.xmind").
Proof.
  apply (cmd_parse_writes_memory_only demo_uuid (u "s1") [u "map.xmind"] outline_world
           (u "map.xmind")).
  intros xp rest E. injection E as <- _. vm_compute. discriminate.
Defined.

(** X9.  After a [cmd_parse] that returned 0, [cmd_memory] for the same
    session and package returns 0 and prints the outline [cmd_parse]
    printed, read back in text mode: a carriage return in it, alone or
    before a newline, comes back as a newline. *)
Theorem parse_then_memory :
  forall (uuid : IdGen) (session xmind_path : str) (rest rest' : list str)
         (w w' : World),
    cmd_parse uuid session (xmind_path :: rest) w = (Status 0%Z, w') ->
    exists md,
      stdout w' = stdout w ++ [md; memory_comment (get_memory_path w session xmind_path)]
      /\ cmd_memory session (xmind_path :: rest') w'
         = (Status 0%Z, print_out w' (universal_newlines md)).
Proof.
  intros uuid session xp rest rest' w w' H.
  destruct (cmd_parse_success_inv uuid session _ w w' H)
    as [xp0 [rest0 [fmt [doc [w1 [A [E [D [P C]]]]]]]]].
  injection A as <- <-.
  pose proof (read_package_state uuid fmt w xp) as [_ [T [O _]]].
  rewrite P in T, O. cbn [snd] in T, O.
  rewrite (cmd_parse_run uuid session xp rest w fmt doc w1 E D P) in H.
  cbv zeta in H. rewrite C in H. injection H as <-.
  exists (sheets_to_markdown doc). split.
  - cbn [print_out stdout write_text with_files]. rewrite O, <- app_assoc. reflexivity.
  - unfold cmd_memory.
    set (mem := get_memory_path w session xp).
    assert (M : forall w2, tmpdir w2 = tmpdir w -> get_memory_path w2 session xp = mem).
    { intros w2 E2. unfold mem, get_memory_path, get_memory_dir. now rewrite E2. }
    rewrite M by (cbn [print_out tmpdir write_text with_files]; exact T).
    unfold path_exists, read_text.
    cbn [print_out files write_text with_files]. rewrite fs_get_put_same. reflexivity.
Qed.

Lemma parse_then_memory_witness :
  exists md,
    cmd_memory (u "s1") [u "map.xmind"]
      (snd (cmd_parse demo_uuid (u "s1") [u "map.xmind"] outline_world))
    = (Status 0%Z,
       print_out (snd (cmd_parse demo_uuid (u "s1") [u "map.xmind"] outline_world))
                 (universal_newlines md)).
Proof.
  destruct (parse_then_memory demo_uuid (u "s1") (u "map.xmind") [] [] outline_world
              (snd (cmd_parse demo_uuid (u "s1") [u "map.xmind"] outline_world))
              eq_refl) as [md [_ M]].
  exists md. exact M.
Defined.



(** ** [cmd_memory] *)



(** ** [cmd_create] *)

Section CreateProps.
Variable uuid : IdGen.
Variable clock : Clock.

Lemma write_package_state : forall fmt doc out w,
  tmpdir (write_package clock fmt doc out w) = tmpdir w
  /\ stdout (write_package clock fmt doc out w) = stdout w
  /\ stderr (write_package clock fmt doc out w) = stderr w
  /\ files (write_package clock fmt doc out w)
     = fs_put (files w) out
         (FZip (if str_eqb fmt (u "legacy")
                then [(u "content.xml", PXml (fst (legacy_root clock doc (ticks w))));
                      (u "META-INF/manifest.xml", PRaw legacy_manifest)]
                else [(u "content.json", PJson (zen_content doc));
                      (u "metadata.json", PJson zen_metadata)])).
Proof.
  intros fmt doc out w. unfold write_package.
  destruct (str_eqb fmt (u "legacy")).
  - unfold create_legacy. destruct (legacy_root clock doc (ticks w)) as [root k].
    cbn. auto.
  - cbn. auto.
Qed.

Lemma cmd_create_run : forall session out mdp more w text doc n,
  read_text w mdp = Ok text ->
  markdown_to_sheets uuid text (ids w) = (doc, n) ->
  truthy doc = true ->
  cmd_create uuid clock session (out :: mdp :: more) w
  = let fmt := format_option (out :: mdp :: more) in
    let w2 := write_package clock fmt doc out (with_ids w n) in
    let mem := get_memory_path w session out in
    (Ok 0%Z,
     print_out (print_out (print_out (write_text w2 mem text) (u "已创建: " ++ out))
                          (u "格式: " ++ fmt))
               (u "记忆文件: " ++ mem)).
Proof.
  intros session out mdp more w text doc n R M T. unfold cmd_create, path_exists.
  pose proof R as R'. unfold read_text in R'.
  destruct (fs_get (files w) mdp) as [f|] eqn:F; [|discriminate].
  cbn [negb]. cbv iota. rewrite R, M, T. cbn [negb]. cbv iota zeta.
  set (fmt := format_option (out :: mdp :: more)).
  pose proof (write_package_state fmt doc out (with_ids w n)) as [Tm _].
  unfold write_package in *.
  assert (G : forall w2, tmpdir w2 = tmpdir w ->
              get_memory_path w2 session out = get_memory_path w session out).
  { intros w2 E2. unfold get_memory_path, get_memory_dir. now rewrite E2. }
  rewrite (G _ Tm). reflexivity.
Qed.

Lemma cmd_create_success_inv : forall session args w w',
  cmd_create uuid clock session args w = (Ok 0%Z, w') ->
  exists out mdp more text doc n,
    args = out :: mdp :: more /\ read_text w mdp = Ok text
    /\ markdown_to_sheets uuid text (ids w) = (doc, n) /\ truthy doc = true.
Proof.
  intros session args w w'. unfold cmd_create.
  destruct args as [|out [|mdp more]]; try discriminate.
  destruct (path_exists w mdp); cbn [negb]; [|discriminate].
  destruct (read_text w mdp) as [text|e] eqn:R; [|discriminate].
  destruct (markdown_to_sheets uuid text (ids w)) as [doc n] eqn:M.
  destruct (truthy doc) eqn:T; cbn [negb]; [|discriminate].
  intros _. exists out, mdp, more, text, doc, n. auto.
Qed.


End CreateProps.



(** X13.  A [cmd_create] that returns 0 has written a legacy package when
    the format option is [legacy] and a zen package for every other value
    of the option, also one that names no format (the memory file being
    another file than the package). *)
Theorem cmd_create_format_fallback :
  forall (uuid : IdGen) (clock : Clock) (session output_path md_path : str)
         (more : list str) (w w' : World),
    cmd_create uuid clock session (output_path :: md_path :: more) w = (Ok 0%Z, w') ->
    get_memory_path w session output_path <> output_path ->
    detect_format w' output_path
    = Ok (if str_eqb (format_option (output_path :: md_path :: more)) (u "legacy")
          then u "legacy" else u "zen").
Proof.
  intros uuid clock session out mdp more w w' H Hm.
  destruct (cmd_create_success_inv uuid clock session _ w w' H)
    as [out0 [mdp0 [more0 [text [doc [n [A [R [M T]]]]]]]]].
  injection A as <- <- <-.
  rewrite (cmd_create_run uuid clock session out mdp more w text doc n R M T) in H.
  cbv zeta in H. injection H as <-.
  set (fmt := format_option (out :: mdp :: more)).
  pose proof (write_package_state clock fmt doc out (with_ids w n)) as [_ [_ [_ F]]].
  unfold detect_format, zip_open.
  cbn [print_out files write_text with_files].
  rewrite fs_get_put_other by (intros E; apply Hm; now rewrite <- E).
  rewrite F, fs_get_put_same. cbn [bind].
  destruct (str_eqb fmt (u "legacy")); reflexivity.
Qed.

Lemma cmd_create_format_fallback_witness :
  detect_format
    (snd (cmd_create demo_uuid demo_clock (u "s1")
            [u "new.xmind"; u "edit.md"; u "--format"; u "xml"] outline_world))
    (u "new.xmind")
  = Ok (u "zen").
Proof.
  apply (cmd_create_format_fallback demo_uuid demo_clock (u "s1") (u "new.xmind")
           (u "edit.md") [u "--format"; u "xml"] outline_world
           (snd (cmd_create demo_uuid demo_clock (u "s1")
                   [u "new.xmind"; u "edit.md"; u "--format"; u "xml"] outline_world))).
  - reflexivity.
  - vm_compute. discriminate.
Defined.

(** X14.  After a [cmd_create] that returned 0, [cmd_memory] for the same
    session and the package created returns 0 and prints the outline text
    [cmd_create] read. *)
Theorem create_then_memory :
  forall (uuid : IdGen) (clock : Clock) (session output_path md_path : str)
         (more rest : list str) (w w' : World),
    cmd_create uuid clock session (output_path :: md_path :: more) w = (Ok 0%Z, w') ->
    exists md_text,
      read_text w md_path = Ok md_text
      /\ cmd_memory session (output_path :: rest) w'
         = (Status 0%Z, print_out w' md_text).
Proof.
  intros uuid clock session out mdp more rest w w' H.
  destruct (cmd_create_success_inv uuid clock session _ w w' H)
    as [out0 [mdp0 [more0 [text [doc [n [A [R [M T]]]]]]]]].
  injection A as <- <- <-.
  rewrite (cmd_create_run uuid clock session out mdp more w text doc n R M T) in H.
  cbv zeta in H. injection H as <-.
  exists text. split; [exact R|].
  set (fmt := format_option (out :: mdp :: more)).
  pose proof (write_package_state clock fmt doc out (with_ids w n)) as [Tm _].
  set (mem := get_memory_path w session out).
  assert (G : forall w2, tmpdir w2 = tmpdir w -> get_memory_path w2 session out = mem).
  { intros w2 E2. unfold mem, get_memory_path, get_memory_dir. now rewrite E2. }
  unfold cmd_memory.
  rewrite G by (cbn [print_out tmpdir write_text with_files]; exact Tm).
  unfold path_exists, read_text.
  cbn [print_out files write_text with_files]. rewrite fs_get_put_same.
  rewrite (universal_newlines_fixed text (read_text_no_cr w mdp text R)). reflexivity.
Qed.

Lemma create_then_memory_witness :
  exists md_text,
    read_text outline_world (u "edit.md") = Ok md_text
    /\ cmd_memory (u "s1") [u "new.xmind"]
         (snd (cmd_create demo_uuid demo_clock (u "s1") [u "new.xmind"; u "edit.md"]
                 outline_world))
       = (Status 0%Z,
          print_out (snd (cmd_create demo_uuid demo_clock (u "s1")
                            [u "new.xmind"; u "edit.md"] outline_world)) md_text).
Proof.
  apply (create_then_memory demo_uuid demo_clock (u "s1") (u "new.xmind") (u "edit.md")
           [] [] outline_world).
  reflexivity.
Defined.

(** ** [main] *)

Lemma str_in_app : forall x a b, str_in x (a ++ b) = str_in x a || str_in x b.
Proof. intros x a b. unfold str_in. apply existsb_app. Qed.

Lemma index_of_skip : forall x pre rest,
  ~ In x pre -> index_of x (pre ++ x :: rest) = length pre.
Proof.
  induction pre as [|a pre IH]; intros rest H; cbn [app index_of length].
  - now rewrite str_eqb_refl.
  - destruct (str_eqb_spec a x) as [->|_]; [exfalso; apply H; now left|].
    f_equal. apply IH. intros K. apply H. now right.
Qed.

Lemma take_session_found : forall pre sid post,
  ~ In (u "--session") pre ->
  take_session (pre ++ u "--session" :: sid :: post) = Some (Some sid, pre ++ post).
Proof.
  intros pre sid post H. unfold take_session.
  rewrite str_in_app. cbn [str_in existsb]. rewrite str_eqb_refl, orb_true_r.
  cbn [orb]. rewrite (index_of_skip _ pre (sid :: post) H).
  assert (L : (length pre + 1 <? length (pre ++ u "--session" :: sid :: post))%nat = true).
  { apply Nat.ltb_lt. rewrite length_app. cbn [length]. lia. }
  rewrite L. f_equal. f_equal.
  - replace (pre ++ u "--session" :: sid :: post)
      with ((pre ++ [u "--session"]) ++ sid :: post) by now rewrite <- app_assoc.
    rewrite app_nth2 by (rewrite length_app; cbn [length]; lia).
    rewrite length_app. cbn [length].
    replace (length pre + 1 - (length pre + 1))%nat with 0%nat by lia. reflexivity.
  - rewrite firstn_app, firstn_all, Nat.sub_diag. cbn [firstn]. rewrite app_nil_r.
    f_equal.
    replace (pre ++ u "--session" :: sid :: post)
      with ((pre ++ [u "--session"; sid]) ++ post) by now rewrite <- app_assoc.
    rewrite skipn_app, length_app. cbn [length].
    replace (length pre + 2 - (length pre + 2))%nat with 0%nat by lia.
    rewrite skipn_all2 by (rewrite length_app; cbn [length]; lia). reflexivity.
Qed.

Lemma take_session_absent : forall argv,
  ~ In (u "--session") argv -> take_session argv = Some (None, argv).
Proof.
  intros argv H. unfold take_session. apply str_in_false in H. now rewrite H.
Qed.

(** X15.  Without the option [--session] among its arguments [main] runs
    no command: it changes no file and ends with status 1, or with status 0
    when the first argument asks for help. *)
Theorem main_requires_session :
  forall (uuid : IdGen) (clock : Clock) (argv : list str) (w : World),
    ~ In (u "--session") argv ->
    files (snd (main uuid clock argv w)) = files w
    /\ fst (main uuid clock argv w)
       = Status (match argv with
                 | first :: _ => if is_help first then 0%Z else 1%Z
                 | [] => 1%Z
                 end).
Proof.
  intros uuid clock argv w H. unfold main.
  destruct argv as [|a rest]; [split; reflexivity|].
  destruct (is_help a); [split; reflexivity|].
  rewrite (take_session_absent _ H). split; reflexivity.
Qed.

Lemma main_requires_session_witness :
  fst (main demo_uuid demo_clock [u "update"; u "map.xmind"; u "edit.md"] outline_world)
  = Status 1%Z.
Proof.
  apply (proj2 (main_requires_session demo_uuid demo_clock
                  [u "update"; u "map.xmind"; u "edit.md"] outline_world
                  ltac:(vm_compute; intuition discriminate))).
Defined.

(** X16.  The option [--session] and its value may stand anywhere among
    the arguments: [main] does the same as with the option put first,
    unless the first argument asks for help. *)
Theorem main_session_anywhere :
  forall (uuid : IdGen) (clock : Clock) (pre post : list str) (sid : str) (w : World),
    ~ In (u "--session") pre ->
    (forall first more, pre = first :: more -> is_help first = false) ->
    main uuid clock (pre ++ u "--session" :: sid :: post) w
    = main uuid clock (u "--session" :: sid :: pre ++ post) w.
Proof.
  intros uuid clock pre post sid w H Hh.
  assert (R : forall argv first more,
            argv = first :: more -> is_help first = false ->
            take_session argv = Some (Some sid, pre ++ post) ->
            main uuid clock argv w
            = match sid with
              | c :: s =>
                  match pre ++ post with
                  | [] => (Status 1%Z, print_usage w)
                  | cmd :: rest =>
                      match dispatch uuid clock cmd with
                      | None => (Status 1%Z,
                                 print_usage (print_err w (u "未知命令: " ++ cmd)))
                      | Some fn => fn (c :: s) rest w
                      end
                  end
              | [] => (Status 1%Z,
                       print_usage (print_err w (u "错误：缺少必填参数 --session <id>")))
              end).
  { intros argv first more -> Hf T. unfold main. rewrite Hf, T. reflexivity. }
  rewrite (R (u "--session" :: sid :: pre ++ post) (u "--session") (sid :: pre ++ post)
             eq_refl eq_refl (take_session_found [] sid (pre ++ post) (fun K => K))).
  destruct pre as [|a pre'].
  - apply (R _ (u "--session") (sid :: post) eq_refl eq_refl).
    apply (take_session_found [] sid post). intros K; exact K.
  - apply (R _ a (pre' ++ u "--session" :: sid :: post) eq_refl (Hh a pre' eq_refl)).
    apply (take_session_found (a :: pre') sid post H).
Qed.

Lemma main_session_anywhere_witness :
  main demo_uuid demo_clock [u "parse"; u "map.xmind"; u "--session"; u "s1"] outline_world
  = main demo_uuid demo_clock [u "--session"; u "s1"; u "parse"; u "map.xmind"]
      outline_world.
Proof.
  apply (main_session_anywhere demo_uuid demo_clock [u "parse"; u "map.xmind"] []
           (u "s1") outline_world).
  - vm_compute. intuition discriminate.
  - intros first more E. injection E as <- _. reflexivity.
Defined.

(** ** The memory file of a package *)

Lemma split_char_sep_app : forall c a b,
  split_char c (a ++ c :: b) = split_char c a ++ split_char c b.
Proof.
  induction a as [|x a IH]; intros b.
  - cbn [app split_char]. now rewrite N.eqb_refl.
  - cbn [app split_char]. destruct (x =? c); rewrite IH; [reflexivity|].
    pose proof (split_char_nonempty c a) as N.
    destruct (split_char c a); [congruence | reflexivity].
Qed.

Lemma rfind_none : forall c s, lacks c s = true -> rfind c s = None.
Proof.
  induction s as [|d s IH]; intros H; [reflexivity|].
  unfold lacks in H. cbn [forallb] in H. apply andb_prop in H. destruct H as [Hd Hs].
  cbn [rfind]. rewrite (IH Hs). destruct (d =? c); [discriminate | reflexivity].
Qed.

Lemma rfind_last : forall c a b,
  lacks c b = true -> rfind c (a ++ c :: b) = Some (length a).
Proof.
  induction a as [|x a IH]; intros b H.
  - cbn [app rfind length]. now rewrite (rfind_none c b H), N.eqb_refl.
  - cbn [app rfind length]. now rewrite (IH b H).
Qed.

Lemma path_stem_last : forall prefix name,
  (prefix = [] \/ exists dir, prefix = dir ++ [47]) ->
  lacks 47 name = true -> truthy name = true -> str_eqb name (u ".") = false ->
  path_stem (prefix ++ name) = path_stem name.
Proof.
  intros prefix name [->|[dir ->]] Hs Ht Hd; [reflexivity|].
  unfold path_stem. rewrite <- app_assoc. cbn [app].
  rewrite split_char_sep_app, filter_app, (split_char_whole 47 name Hs).
  cbn [filter]. rewrite Ht, Hd. cbn [negb andb].
  now rewrite last_last.
Qed.

(** X17.  The memory file of a package is named after the stem of its
    file name alone: for a path that ends in [stem.ext] (after a directory
    part or none; [ext] without a dot, neither part empty) it is the file
    [stem.md] in the directory of the session, so two packages of the same
    file name in different directories, or that differ in the extension
    only, share one memory file. *)
Theorem memory_path_by_stem :
  forall (w : World) (session prefix stem ext : str),
    (prefix = [] \/ exists dir, prefix = dir ++ u "/") ->
    lacks 47 stem = true -> lacks 47 ext = true -> lacks 46 ext = true ->
    truthy stem = true -> truthy ext = true ->
    get_memory_path w session (prefix ++ stem ++ u "." ++ ext)
    = path_join (get_memory_dir w session) (stem ++ u ".md").
Proof.
  intros w session prefix stem ext Hp Hs He Hd Ts Te.
  unfold get_memory_path. f_equal. f_equal.
  set (name := stem ++ u "." ++ ext).
  assert (Ln : lacks 47 name = true).
  { unfold name. rewrite !lacks_app, Hs, He. reflexivity. }
  assert (Tn : truthy name = true).
  { unfold name. destruct stem; [discriminate | reflexivity]. }
  assert (Dn : str_eqb name (u ".") = false).
  { unfold name. destruct stem as [|c [|d stem]]; try discriminate.
    - destruct ext; [discriminate|]. cbn. apply andb_false_r.
    - cbn. apply andb_false_r. }
  rewrite (path_stem_last prefix name Hp Ln Tn Dn).
  unfold path_stem. rewrite (split_char_whole 47 name Ln). cbn [filter].
  rewrite Tn, Dn. cbn [negb andb last].
  unfold name. change (u ".") with [46]. cbn [app].
  rewrite (rfind_last 46 stem ext Hd).
  assert (L : ((0 <? length stem) && (length stem <? length (stem ++ 46%N :: ext) - 1))%nat
              = true).
  { rewrite length_app. cbn [length].
    destruct stem; [discriminate|]. destruct ext; [discriminate|]. cbn [length].
    apply andb_true_intro. split; [reflexivity|]. apply Nat.ltb_lt. lia. }
  rewrite L. apply firstn_exact.
Qed.

Lemma memory_path_by_stem_witness :
  get_memory_path outline_world (u "s1") (u "/home/me/maps/week.plan.xmind")
  = u "/tmp/skills-xmind-parsed/s1/week.plan.md".
Proof.
  apply (memory_path_by_stem outline_world (u "s1") (u "/home/me/maps/")
           (u "week.plan") (u "xmind")); try reflexivity.
  right. exists (u "/home/me/maps"). reflexivity.
Defined.

(** ** [cmd_update] and the cycle of parsing and updating *)





Section UpdateRun.
Variable uuid : IdGen.
Variable clock : Clock.




End UpdateRun.

Lemma decode_encoded : forall uuid doc n,
  forallb sheet_ok doc = true ->
  map erase_sheet (fst (markdown_to_sheets uuid (sheets_to_markdown doc) n))
  = map erase_sheet doc.
Proof.
  intros uuid doc n H. unfold markdown_to_sheets.
  rewrite sheets_to_markdown_lines.
  destruct doc as [|s rest]; [reflexivity|].
  cbn [forallb] in H. apply andb_prop in H. destruct H as [Hs Hrest].
  destruct (blocks_roundtrip uuid rest s 0 0 n Hs Hrest) as [doc' [n' [P E]]].
  change ([NL] ++ u "---" ++ [NL]) with block_sep.
  cbn [doc_lines]. change (@nil str ++ ?x) with x.
  cbn [repeat] in P. change (@nil str ++ ?x) with x in P.
  rewrite P. exact E.
Qed.


Section Cycle.
Variable uuid : IdGen.
Variable clock : Clock.
Hypothesis ids_not_empty : forall k, truthy (uuid k) = true.




End Cycle.



(** ** More on the outline codec *)

(** X19.  No two documents the outline keeps share an outline text unless
    they are the same document, identifiers apart: on these documents the
    encoder loses nothing but the identifiers. *)
Theorem outline_is_unambiguous :
  forall doc doc' : Document,
    forallb sheet_ok doc = true -> forallb sheet_ok doc' = true ->
    sheets_to_markdown doc = sheets_to_markdown doc' ->
    map erase_sheet doc = map erase_sheet doc'.
Proof.
  intros doc doc' H H' E.
  rewrite <- (decode_encoded (fun _ => []) doc 0 H).
  rewrite <- (decode_encoded (fun _ => []) doc' 0 H').
  now rewrite E.
Qed.

Lemma outline_is_unambiguous_witness :
  map erase_sheet (document_S demo_uuid 0) = map erase_sheet (document_S demo_uuid 5).
Proof.
  apply (outline_is_unambiguous (document_S demo_uuid 0) (document_S demo_uuid 5));
    reflexivity.
Defined.

(** *** Blank lines in the bullet list *)

Lemma blank_no_item : forall l, truthy (strip l) = false -> re_item l = None.
Proof.
  intros l H. apply strip_blank in H. apply drop_while_all in H.
  unfold re_item. now rewrite H.
Qed.

Lemma collect_item_filter : forall lines cur cl nl,
  collect_item cur cl nl (filter (fun l => truthy (strip l)) lines)
  = let '(cl', nl', rest) := collect_item cur cl nl lines in
    (cl', nl', filter (fun l => truthy (strip l)) rest).
Proof.
  induction lines as [|nxt rest IH]; intros cur cl nl; [reflexivity|].
  cbn [filter]. destruct (truthy (strip nxt)) eqn:B.
  - cbn [collect_item]. rewrite B. cbn [negb].
    destruct (re_bullet nxt) as [ws|].
    + destruct (cur <? length ws)%nat; [apply IH|].
      cbn [filter]. now rewrite B.
    + destruct (re_quote nxt) as [[ws text]|].
      * destruct (negb (truthy cl) && (length ws =? cur + 2)%nat); [apply IH|].
        destruct (cur <? length ws)%nat; [apply IH|].
        cbn [filter]. now rewrite B.
      * destruct (startswith nxt (spaces (cur + 2))); [apply IH|].
        cbn [filter]. now rewrite B.
  - cbn [collect_item]. rewrite B. cbn [negb]. apply IH.
Qed.

Lemma filter_length_le : forall (A : Type) (p : A -> bool) (l : list A),
  (length (filter p l) <= length l)%nat.
Proof.
  induction l as [|x l IH]; [apply le_n|]. cbn [filter]. destruct (p x); cbn [length]; lia.
Qed.

Section BlankLines.
Variable uuid : IdGen.

Lemma parse_items_filter : forall fuel lines n,
  (length lines < fuel)%nat ->
  parse_items uuid fuel (filter (fun l => truthy (strip l)) lines) n
  = parse_items uuid fuel lines n.
Proof.
  induction fuel as [|fuel IH]; intros lines n L; [lia|].
  destruct lines as [|line rest]; [reflexivity|]. cbn [length] in L.
  cbn [filter]. destruct (truthy (strip line)) eqn:B.
  - rewrite !parse_items_S. destruct (re_item line) as [[ws text]|].
    + destruct (_parse_title_meta uuid text n) as [topic n1].
      rewrite collect_item_filter.
      pose proof (collect_item_length rest (length ws) [] []) as Len.
      destruct (collect_item (length ws) [] [] rest) as [[cl nl] rest'].
      specialize (Len cl nl rest' eq_refl). cbn [length] in Len.
      destruct (truthy cl).
      * destruct (parse_items uuid fuel cl n1) as [kids n2].
        rewrite IH by lia. reflexivity.
      * rewrite IH by lia. reflexivity.
    + apply IH. lia.
  - rewrite (parse_items_S uuid fuel line rest n), (blank_no_item line B).
    rewrite <- (IH rest n) by lia.
    apply parse_items_fuel.
    + pose proof (filter_length_le _ (fun l => truthy (strip l)) rest). lia.
    + pose proof (filter_length_le _ (fun l => truthy (strip l)) rest). lia.
Qed.

End BlankLines.

(** X20.  Blank lines in a bullet list do not matter: [_parse_md_items]
    returns the same topics, and draws the same identifiers, for the lines
    with every line of white space left out. *)
Theorem blank_lines_do_not_matter :
  forall (uuid : IdGen) (lines : list str) (n : nat),
    _parse_md_items uuid (filter (fun l => truthy (strip l)) lines) n
    = _parse_md_items uuid lines n.
Proof.
  intros uuid lines n. unfold _parse_md_items.
  rewrite <- (parse_items_filter uuid (S (length lines)) lines n) by lia.
  apply parse_items_fuel.
  - lia.
  - pose proof (filter_length_le _ (fun l => truthy (strip l)) lines). lia.
Qed.

(* ================================================================== *)
(** * Further properties of the zen decoder *)
(* ================================================================== *)

Lemma dict_get_skip : forall kv1 k v kv2 key,
  str_eqb key k = false ->
  dict_get (kv1 ++ (k, v) :: kv2) key = dict_get (kv1 ++ kv2) key.
Proof.
  induction kv1 as [|[k' v'] kv1 IH]; intros k v kv2 key H; cbn [app dict_get].
  - now rewrite H.
  - destruct (str_eqb key k'); [reflexivity | now apply IH].
Qed.

Lemma json_depth_remove : forall kv1 k v kv2,
  (json_depth (JObj (kv1 ++ kv2)) <= json_depth (JObj (kv1 ++ (k, v) :: kv2)))%nat.
Proof.
  intros kv1 k v kv2. cbn [json_depth]. apply le_n_S.
  induction kv1 as [|[k' v'] kv1 IH]; cbn [app fold_right snd]; lia.
Qed.

Lemma zen_attached_depth : forall data items c,
  zen_attached data = Ok items -> In c items ->
  (json_depth c < json_depth data)%nat.
Proof.
  intros data items c. unfold zen_attached, py_get.
  destruct data as [| | | | |kv]; try discriminate.
  destruct (dict_get kv (u "children")) as [cd|] eqn:G; cbn [bind].
  - apply dict_get_in, json_depth_field in G.
    destruct cd as [| | | | |kv2]; try discriminate.
    destruct (dict_get kv2 (u "attached")) as [at_|] eqn:G2; cbn [bind].
    + apply dict_get_in, json_depth_field in G2.
      destruct at_ as [| | |s|l|kv3]; cbn [py_iter]; try discriminate;
        intros H; injection H as <-; intros Hc.
      * apply in_map_iff in Hc. destruct Hc as [x [<- _]]. cbn [json_depth] in *. lia.
      * apply json_depth_item in Hc. lia.
      * apply in_map_iff in Hc. destruct Hc as [x [<- _]]. cbn [json_depth] in *. lia.
    + cbn [py_iter]. intros H; injection H as <-. intros [].
  - cbn [dict_get bind py_iter]. intros H; injection H as <-. intros [].
Qed.

Lemma zen_each_ext : forall f g l n,
  (forall c m, In c l -> f c m = g c m) -> zen_each f l n = zen_each g l n.
Proof.
  intros f g l. induction l as [|c l IH]; intros n H; [reflexivity|].
  cbn [zen_each]. rewrite (H c n (or_introl eq_refl)).
  destruct (g c n) as [[t n1]|e]; cbn [bind]; [|reflexivity].
  rewrite (IH n1); [reflexivity|]. intros c' m Hc. apply H. now right.
Qed.

Section ZenParts.
Variable uuid : IdGen.

Lemma zen_loop_each : forall fuel l n,
  (fix each (l : list json) (n : nat) : result (list Topic * nat) :=
     match l with
     | [] => Ok ([], n)
     | child :: r =>
         '(t, n) <- parse_zen_topic uuid fuel child n ;;
         '(ts, n) <- each r n ;;
         Ok (t :: ts, n)
     end) l n
  = zen_each (parse_zen_topic uuid fuel) l n.
Proof.
  intros fuel. induction l as [|c l IH]; intros n; [reflexivity|].
  cbn [zen_each]. destruct (parse_zen_topic uuid fuel c n) as [[t n1]|e];
    cbn [bind]; [|reflexivity].
  now rewrite IH.
Qed.

Ltac head_step :=
  match goal with
  | |- bind ?X _ = _ => destruct X; cbn [bind]; [|reflexivity]
  end.

Lemma parse_zen_topic_parts : forall fuel data n,
  parse_zen_topic uuid (S fuel) data n
  = ('(topic, n) <- zen_own_fields uuid data n ;;
     attached <- zen_attached data ;;
     '(kids, n) <- zen_each (parse_zen_topic uuid fuel) attached n ;;
     Ok (set_children topic (topic_children topic ++ kids), n)).
Proof.
  intros fuel data n. rewrite parse_zen_topic_S. unfold zen_own_fields, zen_attached.
  do 4 head_step.
  match goal with |- context [new_topic uuid ?a ?b ?c] =>
    destruct (new_topic uuid a b c) as [topic n0] end.
  do 13 head_step.
  rewrite zen_loop_each. reflexivity.
Qed.

Lemma parse_zen_topic_fuel : forall f1 f2 data n,
  (json_depth data < f1)%nat -> (json_depth data < f2)%nat ->
  parse_zen_topic uuid f1 data n = parse_zen_topic uuid f2 data n.
Proof.
  induction f1 as [|f1 IH]; intros f2 data n L1 L2; [lia|].
  destruct f2 as [|f2]; [lia|].
  rewrite !parse_zen_topic_parts.
  destruct (zen_own_fields uuid data n) as [[topic n1]|e]; cbn [bind]; [|reflexivity].
  destruct (zen_attached data) as [items|e] eqn:A; cbn [bind]; [|reflexivity].
  rewrite (zen_each_ext (parse_zen_topic uuid f1) (parse_zen_topic uuid f2) items n1);
    [reflexivity|].
  intros c m Hc. pose proof (zen_attached_depth data items c A Hc). apply IH; lia.
Qed.

Lemma zen_parts_skip : forall kv1 k v kv2 n,
  str_in k topic_keys = false ->
  zen_own_fields uuid (JObj (kv1 ++ (k, v) :: kv2)) n
  = zen_own_fields uuid (JObj (kv1 ++ kv2)) n
  /\ zen_attached (JObj (kv1 ++ (k, v) :: kv2)) = zen_attached (JObj (kv1 ++ kv2)).
Proof.
  intros kv1 k v kv2 n H.
  assert (G : forall key, In key topic_keys ->
              dict_get (kv1 ++ (k, v) :: kv2) key = dict_get (kv1 ++ kv2) key).
  { intros key Hk. apply dict_get_skip.
    destruct (str_eqb_spec key k) as [->|_]; [|reflexivity].
    apply str_in_spec in Hk. congruence. }
  unfold zen_own_fields, zen_attached, py_get.
  rewrite !G by (unfold topic_keys; cbn [In]; tauto).
  split; reflexivity.
Qed.

End ZenParts.

(** X21.  [_parse_zen_topic] reads seven keys of a topic and no other: a
    topic with one more entry, under any other key and with any value, is
    decoded to the same topic (or fails with the same exception). *)
Theorem zen_topic_ignores_other_keys :
  forall (uuid : IdGen) (kv1 kv2 : list (str * json)) (k : str) (v : json) (n : nat),
    str_in k topic_keys = false ->
    _parse_zen_topic uuid (JObj (kv1 ++ (k, v) :: kv2)) n
    = _parse_zen_topic uuid (JObj (kv1 ++ kv2)) n.
Proof.
  intros uuid kv1 kv2 k v n H. unfold _parse_zen_topic.
  pose proof (json_depth_remove kv1 k v kv2) as D.
  rewrite (parse_zen_topic_fuel uuid (S (json_depth (JObj (kv1 ++ kv2))))
             (S (json_depth (JObj (kv1 ++ (k, v) :: kv2)))) (JObj (kv1 ++ kv2)) n)
    by lia.
  rewrite !parse_zen_topic_parts.
  destruct (zen_parts_skip uuid kv1 k v kv2 n H) as [-> ->]. reflexivity.
Qed.

Lemma zen_topic_ignores_other_keys_witness :
  _parse_zen_topic demo_uuid
    (JObj [(u "id", JStr (u "t1")); (u "structureClass", JStr (u "org.xmind.ui.map"));
           (u "title", JStr (u "T"))]) 0
  = _parse_zen_topic demo_uuid
      (JObj [(u "id", JStr (u "t1")); (u "title", JStr (u "T"))]) 0.
Proof.
  apply (zen_topic_ignores_other_keys demo_uuid [(u "id", JStr (u "t1"))]
           [(u "title", JStr (u "T"))] (u "structureClass")
           (JStr (u "org.xmind.ui.map")) 0).
  reflexivity.
Defined.

(** ** Text as the decoder stores it *)

Lemma built_tidy : forall uuid n ts n',
  built uuid n ts n' -> forallb topic_tidy ts = true.
Proof.
  intros uuid n ts n' H.
  induction H as [n | n ti no la li ma kids n1 rest n2 _ _ Ht _ IHk _ IHr];
    [reflexivity|].
  cbn [forallb topic_tidy]. now rewrite Ht, IHk, IHr.
Qed.

Lemma built_doc_tidy : forall uuid n doc n',
  built_doc uuid n doc n' -> forallb sheet_tidy doc = true.
Proof.
  intros uuid n doc n' H.
  induction H as [n | n ti root n1 rest n2 Ht B _ IH]; [reflexivity|].
  cbn [forallb]. rewrite IH, andb_true_r. unfold sheet_tidy.
  cbn [sheet_title root_topic]. rewrite Ht.
  apply built_tidy in B. cbn [forallb] in B. now rewrite andb_true_r in B.
Qed.

(** X22.  The outline decoder stores stripped text: in every document it
    returns, no sheet title, topic title, link, label or marker starts or
    ends with white space. *)
Theorem decoded_text_is_tidy :
  forall (uuid : IdGen) (md_text : str) (n : nat),
    forallb sheet_tidy (fst (markdown_to_sheets uuid md_text n)) = true.
Proof.
  intros uuid md n. exact (built_doc_tidy uuid n _ _ (markdown_built uuid md n)).
Qed.

(* ================================================================== *)
(** * Further properties of the legacy decoder *)
(* ================================================================== *)

Lemma legacy_fields_children : forall elem topic,
  topic_children (legacy_fields elem topic) = topic_children topic.
Proof.
  intros elem [i ti ch no la li ma]. unfold legacy_fields.
  destruct (find elem (u "notes")) as [ne|];
    [destruct (find ne (u "plain")) as [[? ? [[|? ?]|] ?]|]|];
    cbn [set_notes];
    (destruct (find elem (u "labels")); cbn [set_labels topic_labels]);
    (destruct (truthy match attr_get (elem_attrib elem) _XLINK with
                      | Some h => h | None => [] end); cbn [set_link]);
    (destruct (find elem (u "marker-refs")); cbn [set_markers topic_markers]);
    reflexivity.
Qed.

Lemma no_attached_topics : forall children_elem,
  (forall t, In t (findall children_elem (u "topics")) ->
             attr_get (elem_attrib t) (u "type") <> Some (u "attached")) ->
  attached_topics children_elem = [].
Proof.
  intros ce H. unfold attached_topics.
  induction (findall ce (u "topics")) as [|t ts IH]; [reflexivity|].
  cbn [flat_map]. rewrite IH by (intros x Hx; apply H; now right).
  rewrite app_nil_r. specialize (H t (or_introl eq_refl)).
  destruct (attr_get (elem_attrib t) (u "type")) as [ty|]; [|reflexivity].
  destruct (str_eqb_spec ty (u "attached")) as [->|_]; [congruence | reflexivity].
Qed.

(** X23.  [_parse_legacy_topic] reads the child topics of the [topics]
    elements of type [attached] only: when the [children] element of a
    topic holds no such element (its topics are detached ones, say), the
    topic is decoded without children, and without error. *)
Theorem legacy_reads_attached_topics_only :
  forall (uuid : IdGen) (elem children_elem : Element) (n : nat),
    find elem (u "children") = Some children_elem ->
    (forall t, In t (findall children_elem (u "topics")) ->
               attr_get (elem_attrib t) (u "type") <> Some (u "attached")) ->
    exists topic n',
      _parse_legacy_topic uuid elem n = Ok (topic, n')
      /\ topic_children topic = [].
Proof.
  intros uuid elem ce n F H. unfold _parse_legacy_topic.
  rewrite parse_legacy_topic_S, F, (no_attached_topics ce H).
  destruct (new_topic uuid (text_or (find elem (u "title")) [])
              (attr_get (elem_attrib elem) (u "id")) n) as [topic n0] eqn:N.
  cbn [bind]. eexists. eexists. split; [reflexivity|].
  cbn [set_children]. rewrite app_nil_r.
  assert (C : topic_children topic = []).
  { unfold new_topic in N.
    destruct (attr_get (elem_attrib elem) (u "id")) as [[|c i]|];
      injection N as <- _; reflexivity. }
  destruct (legacy_fields elem topic) as [i ti ch no la li ma] eqn:L.
  pose proof (legacy_fields_children elem topic) as K. rewrite L, C in K.
  exact K.
Qed.

Lemma legacy_reads_attached_topics_only_witness :
  exists topic n',
    _parse_legacy_topic demo_uuid
      (Elem (_ctag (u "topic")) [(u "id", u "t1")] None
         [Elem (_ctag (u "title")) [] (Some (u "T")) [];
          Elem (_ctag (u "children")) [] None
            [Elem (_ctag (u "topics")) [(u "type", u "detached")] None
               [Elem (_ctag (u "topic")) [(u "id", u "t2")] None []]]]) 0
    = Ok (topic, n')
    /\ topic_children topic = [].
Proof.
  apply (legacy_reads_attached_topics_only demo_uuid _
           (Elem (_ctag (u "children")) [] None
              [Elem (_ctag (u "topics")) [(u "type", u "detached")] None
                 [Elem (_ctag (u "topic")) [(u "id", u "t2")] None []]])).
  - reflexivity.
  - intros t [<-|[]]. vm_compute. discriminate.
Defined.
